(** * ContainerImageOptimizer: the rule-based Dockerfile rewrite passes

    A shallow embedding of [DockerfileOptimizer], of
    [DockerfileAnalyzer.analyze_dockerfile] and of
    [DockerfileAnalyzer.generate_report] (src/dockerfile-optimizer.py), with
    the properties of the specification stated and settled against it, and
    further properties of the code after them.

    Texts are Python [str] values.  A character is a code point below 256
    (an [ascii]); a text is a [list ascii].  The file system is a finite map
    from resolved paths to file contents. *)

From Stdlib Require Import ZArith Ascii String List Lia DecimalString.
From stdpp Require Import base list gmap strings sorting.

Local Open Scope list_scope.

(** ** Texts *)

Abbreviation str := (list ascii).

Definition txt (s : string) : str := list_ascii_of_string s.

(** The characters the source writes with escapes. *)
Definition nl : ascii := "010"%char.
Definition cr : ascii := "013"%char.
Definition bslash : ascii := "092"%char.
Definition dquote : ascii := "034"%char.

(** ** The Python string primitives the passes use *)

Module Py.

(** [str.isspace] on one character, which is also what [\s] matches in a
    [str] pattern: TAB..CR, FS..US, SPACE, NEL and NBSP below 256. *)
Definition isspace (c : ascii) : bool :=
  let n := nat_of_ascii c in
  ((9 <=? n) && (n <=? 13)) || ((28 <=? n) && (n <=? 32))
  || (n =? 133) || (n =? 160).

(** [s.startswith(p)], returning what follows the prefix. *)
Fixpoint strip_prefix (p s : str) : option str :=
  match p, s with
  | [], _ => Some s
  | _ :: _, [] => None
  | a :: p', b :: s' => if Ascii.eqb a b then strip_prefix p' s' else None
  end.

Definition startswith (s p : str) : bool :=
  match strip_prefix p s with Some _ => true | None => false end.

(** Offset of the first occurrence of a non-empty or empty [sub] in [s]. *)
Fixpoint index_of (sub s : str) : option nat :=
  if startswith s sub then Some 0
  else match s with
       | [] => None
       | _ :: t => S <$> index_of sub t
       end.

(** A slice bound as Python normalises it: a negative index counts from the
    end, and the result is clipped to [0, len s]. *)
Definition slice_bound (s : str) (i : Z) : nat :=
  let n := Z.of_nat (length s) in
  Z.to_nat (if (i <? 0)%Z then Z.max 0 (i + n) else Z.min i n).

(** [s[:i]] and [s[i:]]. *)
Definition upto (s : str) (i : Z) : str := firstn (slice_bound s i) s.
Definition from (s : str) (i : Z) : str := skipn (slice_bound s i) s.

(** [s.find(sub, start)]: the lowest index at or after [start], or [-1].
    A negative [start] counts from the end; a [start] beyond the end finds
    nothing. *)
Definition find (s sub : str) (start : Z) : Z :=
  let n := Z.of_nat (length s) in
  let st := if (start <? 0)%Z then Z.max 0 (start + n) else start in
  if (n <? st)%Z then (-1)%Z
  else match index_of sub (skipn (Z.to_nat st) s) with
       | Some i => (st + Z.of_nat i)%Z
       | None => (-1)%Z
       end.

(** [s.replace(old, new)] for a non-empty [old], scanning left to right over
    non-overlapping occurrences; [skip] counts the characters of the
    occurrence just replaced that are still to be passed over. *)
Fixpoint replace_from (old new : str) (skip : nat) (s : str) : str :=
  match s with
  | [] => []
  | c :: t =>
      match skip with
      | S k => replace_from old new k t
      | O => if startswith s old
             then new ++ replace_from old new (length old - 1) t
             else c :: replace_from old new 0 t
      end
  end.

(** [s.replace(old, new)]; an empty [old] matches between all characters. *)
Definition replace (s old new : str) : str :=
  match old with
  | [] => new ++ flat_map (fun c => c :: new) s
  | _ :: _ => replace_from old new 0 s
  end.

(** [sep.join(parts)]. *)
Fixpoint join (sep : str) (parts : list str) : str :=
  match parts with
  | [] => []
  | [p] => p
  | p :: rest => p ++ sep ++ join sep rest
  end.

(** [s.split()]: the maximal runs of non-space characters; [cur] is the run
    being read. *)
Fixpoint split_from (cur : str) (s : str) : list str :=
  match s with
  | [] => match cur with [] => [] | _ => [cur] end
  | c :: t =>
      if isspace c
      then match cur with
           | [] => split_from [] t
           | _ => cur :: split_from [] t
           end
      else split_from (cur ++ [c]) t
  end.

Definition split (s : str) : list str := split_from [] s.

(** What reading a file in text mode does to its line ends: CR LF and a
    lone CR both become LF. *)
Fixpoint universal_newlines (s : str) : str :=
  match s with
  | [] => []
  | c :: t =>
      if Ascii.eqb c cr
      then nl :: match t with
                 | c' :: t' =>
                     if Ascii.eqb c' nl then universal_newlines t'
                     else universal_newlines t
                 | [] => universal_newlines t
                 end
      else c :: universal_newlines t
  end.

(** The order of [sorted] on texts: lexicographic on code points. *)
Fixpoint cmp (a b : str) : comparison :=
  match a, b with
  | [], [] => Eq
  | [], _ :: _ => Lt
  | _ :: _, [] => Gt
  | x :: a', y :: b' =>
      match Nat.compare (nat_of_ascii x) (nat_of_ascii y) with
      | Eq => cmp a' b'
      | c => c
      end
  end.

Definition le (a b : str) : Prop := cmp a b ≠ Gt.
Definition lt (a b : str) : Prop := cmp a b = Lt.

#[global] Instance le_dec : RelDecision le :=
  fun a b => decide (cmp a b ≠ Gt).

(** [sorted(packages)] on a set of texts. *)
Definition sorted (packages : gset str) : list str :=
  merge_sort le (elements packages).

(** [packages.update(items)]. *)
Definition update (packages : gset str) (items : list str) : gset str :=
  packages ∪ list_to_set items.

End Py.

(** ** The fragment of [re] the passes use

    A backtracking matcher in continuation-passing style over the remaining
    input.  Repetition is only ever applied to a one-character class, as in
    the source's patterns, so the matcher is structural in the pattern and in
    the input. *)

Module Re.

Inductive re : Type :=
| Lit (s : str)                  (* literal text *)
| Chr (p : ascii → bool)         (* one character of a class *)
| Star (p : ascii → bool)        (* [c*], greedy *)
| Plus (p : ascii → bool)        (* [c+], greedy *)
| LazyStar (p : ascii → bool)    (* [c*?] *)
| LazyPlus (p : ascii → bool)    (* [c+?] *)
| Seq (r1 r2 : re)
| Alt (r1 r2 : re)               (* [r1|r2], first alternative first *)
| Group (r : re)                 (* capturing group *)
| Ahead (r : re)                 (* [(?=r)] *)
| Eos.                           (* [$] without MULTILINE *)

(** Character classes. *)
Definition dot (c : ascii) : bool := negb (Ascii.eqb c nl).      (* [.] *)
Definition dot_all (c : ascii) : bool := true.          (* [.] with DOTALL *)
Definition not_nl (c : ascii) : bool := negb (Ascii.eqb c nl).  (* [[^\n]] *)
Definition is_nl (c : ascii) : bool := Ascii.eqb c nl.          (* [\n] *)
Definition space (c : ascii) : bool := Py.isspace c.            (* [\s] *)
Definition space_or_bslash (c : ascii) : bool :=                (* [[\s\\]] *)
  Py.isspace c || Ascii.eqb c bslash.

(** The outcome of a match: the input left over and the captured groups. *)
Definition outcome : Type := str * list str.

Definition greedy (p : ascii → bool) (k : str → option outcome) :
    str → option outcome :=
  fix loop (s : str) : option outcome :=
    match s with
    | c :: t =>
        if p c
        then match loop t with Some o => Some o | None => k s end
        else k s
    | [] => k s
    end.

Definition lazy (p : ascii → bool) (k : str → option outcome) :
    str → option outcome :=
  fix loop (s : str) : option outcome :=
    match k s with
    | Some o => Some o
    | None =>
        match s with
        | c :: t => if p c then loop t else None
        | [] => None
        end
    end.

Definition one (p : ascii → bool) (k : str → option outcome)
    (s : str) : option outcome :=
  match s with
  | c :: t => if p c then k t else None
  | [] => None
  end.

Fixpoint run (r : re) (s : str) (caps : list str)
    (k : str → list str → option outcome) : option outcome :=
  match r with
  | Lit l =>
      match Py.strip_prefix l s with
      | Some s' => k s' caps
      | None => None
      end
  | Chr p => one p (fun s' => k s' caps) s
  | Star p => greedy p (fun s' => k s' caps) s
  | Plus p => one p (greedy p (fun s' => k s' caps)) s
  | LazyStar p => lazy p (fun s' => k s' caps) s
  | LazyPlus p => one p (lazy p (fun s' => k s' caps)) s
  | Seq r1 r2 => run r1 s caps (fun s' caps' => run r2 s' caps' k)
  | Alt r1 r2 =>
      match run r1 s caps k with
      | Some o => Some o
      | None => run r2 s caps k
      end
  | Group r1 =>
      run r1 s caps
        (fun s' caps' =>
           k s' (caps' ++ [firstn (length s - length s') s]))
  | Ahead r1 =>
      match run r1 s caps (fun s' caps' => Some (s', caps')) with
      | Some _ => k s caps
      | None => None
      end
  | Eos =>
      match s with
      | [] => k s caps
      | [c] => if Ascii.eqb c nl then k s caps else None
      | _ => None
      end
  end.

(** A match anchored at the head of [s]: the matched text and its groups. *)
Definition match_at (r : re) (s : str) : option (str * list str) :=
  match run r s [] (fun s' caps => Some (s', caps)) with
  | Some (s', caps) => Some (firstn (length s - length s') s, caps)
  | None => None
  end.

(** [re.finditer]: the non-overlapping matches from left to right; [skip]
    counts the characters of the last match still to be passed over.  The
    patterns of this program all start with literal text, so no match is
    empty. *)
Fixpoint finditer_from (r : re) (skip : nat) (s : str) :
    list (str * list str) :=
  match skip with
  | S k => match s with [] => [] | _ :: t => finditer_from r k t end
  | O =>
      match match_at r s with
      | Some m =>
          m :: match s with
               | [] => []
               | _ :: t => finditer_from r (length m.1 - 1) t
               end
      | None => match s with [] => [] | _ :: t => finditer_from r 0 t end
      end
  end.

Definition finditer (r : re) (s : str) : list (str * list str) :=
  finditer_from r 0 s.

(** [re.findall] for a pattern without groups: the matched texts. *)
Definition findall0 (r : re) (s : str) : list str :=
  (fun m => m.1) <$> finditer r s.

(** [re.findall] for a pattern with one group: the group's texts. *)
Definition findall1 (r : re) (s : str) : list str :=
  (fun m => match m.2 with g :: _ => g | [] => [] end) <$> finditer r s.

(** [re.findall] for a pattern with two groups: the pairs of texts. *)
Definition findall2 (r : re) (s : str) : list (str * str) :=
  (fun m => match m.2 with
            | g1 :: g2 :: _ => (g1, g2)
            | _ => ([], [])
            end) <$> finditer r s.

(** [re.sub(r, repl, s)] for a literal replacement. *)
Fixpoint sub_from (r : re) (repl : str) (skip : nat) (s : str) : str :=
  match skip with
  | S k => match s with [] => [] | _ :: t => sub_from r repl k t end
  | O =>
      match match_at r s with
      | Some m =>
          repl ++ match s with
                  | [] => []
                  | c :: t =>
                      match m.1 with
                      | [] => c :: sub_from r repl 0 t
                      | _ :: _ => sub_from r repl (length m.1 - 1) t
                      end
                  end
      | None => match s with [] => [] | c :: t => c :: sub_from r repl 0 t end
      end
  end.

Definition sub (r : re) (repl s : str) : str := sub_from r repl 0 s.

Module Notations.
Infix ">>" := Seq (at level 65, right associativity).
End Notations.

End Re.

(** ** The process state the passes can see

    A path is the list of components of a resolved location.  Opening a file
    for writing creates or truncates it, and succeeds; reading a missing file
    raises.  A file holds the characters written to it; line ends are
    written as they are (POSIX) and translated when a file is read. *)

Abbreviation path := (list string).

Record world : Type := World {
  files : gmap path str;
  environ : gmap string string;
  cwd : path;
}.

Inductive exn : Type :=
| FileNotFoundError (p : path)
| ReplyError                     (* raised while asking the language model *)
| AnalysisError (cause : exn).   (* [Exception("Error analyzing Dockerfile: ...")] *)

Inductive result (A : Type) : Type :=
| Ok (a : A)
| Raised (e : exn).
Arguments Ok {A} a.
Arguments Raised {A} e.

Definition M (A : Type) : Type := world → result A * world.

#[global] Instance M_ret : MRet M := fun A a w => (Ok a, w).
#[global] Instance M_bind : MBind M := fun A B f m w =>
  match m w with
  | (Ok a, w') => f a w'
  | (Raised e, w') => (Raised e, w')
  end.

(** [pathlib.Path.exists]. *)
Definition path_exists (p : path) : M bool :=
  fun w => (Ok (bool_decide (is_Some (files w !! p))), w).

(** [open(p, 'r').read()]. *)
Definition read_file (p : path) : M str :=
  fun w => match files w !! p with
           | Some c => (Ok (Py.universal_newlines c), w)
           | None => (Raised (FileNotFoundError p), w)
           end.

(** [open(p, 'w').write(c)]. *)
Definition write_file (p : path) (c : str) : M unit :=
  fun w => (Ok (), World (<[p := c]> (files w)) (environ w) (cwd w)).

(** A relative file name given to [open] resolves against the working
    directory. *)
Definition in_cwd (name : string) : M path :=
  fun w => (Ok (cwd w ++ [name]), w).

(** [Path(p).parent]. *)
Definition parent (p : path) : path := removelast p.

(** ** [class DockerfileOptimizer] *)

Module DockerfileOptimizer.
Import Re.Notations.
Import Re (Lit, Chr, Star, Plus, LazyStar, LazyPlus, Alt, Group, Ahead, Eos).

(** [(?=\n[^\n]|$)]: the end of a span. *)
Definition span_end : Re.re :=
  Ahead (Alt (Lit [nl] >> Chr Re.not_nl) Eos).

(** [r'RUN apt-get update.*?(?=\n[^\n]|$)'] with [re.DOTALL]. *)
Definition apt_pattern : Re.re :=
  Lit (txt "RUN apt-get update") >> LazyStar Re.dot_all >> span_end.

(** [r'install -y\s+(.+?)[\s\\]*\n']. *)
Definition apt_pkg_pattern : Re.re :=
  Lit (txt "install -y") >> Plus Re.space >> Group (LazyPlus Re.dot) >>
  Star Re.space_or_bslash >> Lit [nl].

(** [r'RUN (?:pip|pip3) install.*?(?=\n[^\n]|$)'] with [re.DOTALL]. *)
Definition pip_pattern : Re.re :=
  Lit (txt "RUN ") >> Alt (Lit (txt "pip")) (Lit (txt "pip3")) >>
  Lit (txt " install") >> LazyStar Re.dot_all >> span_end.

(** [r'install\s+(.+?)[\s\\]*\n']. *)
Definition pip_pkg_pattern : Re.re :=
  Lit (txt "install") >> Plus Re.space >> Group (LazyPlus Re.dot) >>
  Star Re.space_or_bslash >> Lit [nl].

(** [r'COPY\s+(.+?)\s+(.+?)[\s\\]*\n']. *)
Definition copy_pattern : Re.re :=
  Lit (txt "COPY") >> Plus Re.space >> Group (LazyPlus Re.dot) >>
  Plus Re.space >> Group (LazyPlus Re.dot) >>
  Star Re.space_or_bslash >> Lit [nl].

(** [r'\n\n+']. *)
Definition blank_run : Re.re := Lit [nl] >> Plus Re.is_nl.

(** [pkg_matches[0].split() if pkg_matches else []]. *)
Definition first_payload (pkg_pattern : Re.re) (cmd : str) : list str :=
  match Re.findall1 pkg_pattern cmd with
  | g :: _ => Py.split g
  | [] => []
  end.

(** The loop [for cmd in commands: packages.update(...)] over [set()]. *)
Definition collect_packages (pkg_pattern : Re.re) (commands : list str) :
    gset str :=
  foldl (fun packages cmd => Py.update packages (first_payload pkg_pattern cmd))
    ∅ commands.

(** The loop [for cmd in commands: content = content.replace(cmd, '')]. *)
Definition remove_all (commands : list str) (content : str) : str :=
  foldl (fun content cmd => Py.replace content cmd []) content commands.

(** [content[:from_idx] + '\n' + combined_command + content[from_idx:]]
    with [from_idx = content.find('\n', content.find('FROM'))]. *)
Definition from_idx (content : str) : Z :=
  Py.find content [nl] (Py.find content (txt "FROM") 0).

Definition insert_after_from (combined_command content : str) : str :=
  Py.upto content (from_idx content) ++ [nl] ++ combined_command
  ++ Py.from content (from_idx content).

(** The text of the merged apt instruction for a package set. *)
Definition apt_combined_command (packages : gset str) : str :=
  txt "RUN apt-get update && \" ++ [nl]
  ++ txt "    DEBIAN_FRONTEND=noninteractive \" ++ [nl]
  ++ txt "    apt-get install -y --no-install-recommends \" ++ [nl]
  ++ txt "        "
  ++ Py.join (txt " \" ++ [nl] ++ txt "        ") (Py.sorted packages)
  ++ txt " \" ++ [nl]
  ++ txt "    && apt-get clean \" ++ [nl]
  ++ txt "    && rm -rf /var/lib/apt/lists/*".

Definition optimize_apt_commands (dockerfile_content : str) : str :=
  let apt_commands := Re.findall0 apt_pattern dockerfile_content in
  match apt_commands with
  | [] => dockerfile_content
  | _ :: _ =>
      let packages := collect_packages apt_pkg_pattern apt_commands in
      let combined_command := apt_combined_command packages in
      let content := remove_all apt_commands dockerfile_content in
      let content := Re.sub blank_run [nl; nl] content in
      insert_after_from combined_command content
  end.

(** The text of the pip instruction; it does not depend on the packages. *)
Definition pip_combined_command : str :=
  txt "COPY requirements.txt /tmp/" ++ [nl]
  ++ txt "RUN pip install --no-cache-dir -r /tmp/requirements.txt && \"
  ++ [nl]
  ++ txt "    rm /tmp/requirements.txt".

Definition optimize_pip_commands (dockerfile_content : str) : M str :=
  let pip_commands := Re.findall0 pip_pattern dockerfile_content in
  match pip_commands with
  | [] => mret dockerfile_content
  | _ :: _ =>
      let combined_command := pip_combined_command in
      let packages := collect_packages pip_pkg_pattern pip_commands in
      f ← in_cwd "requirements.txt";
      _ ← write_file f (Py.join [nl] (Py.sorted packages));
      let content := remove_all pip_commands dockerfile_content in
      let content := Re.sub blank_run [nl; nl] content in
      mret (insert_after_from combined_command content)
  end.

Definition dockerignore_entries : list str :=
  txt <$> [ ".git"; ".gitignore"; "Dockerfile"; ".dockerignore";
            "__pycache__"; "*.pyc"; "*.pyo"; "*.pyd"; ".Python"; "env";
            "pip-log.txt"; "pip-delete-this-directory.txt"; ".tox";
            ".coverage"; ".coverage.*"; "htmlcov"; ".pytest_cache"; ".env";
            ".venv"; "venv"; "node_modules"; "npm-debug.log" ]%string.

(** [copy_groups]: a [dict] from destination to the list of its sources,
    in insertion order of the destinations. *)
Fixpoint group_add (dest src : str) (groups : list (str * list str)) :
    list (str * list str) :=
  match groups with
  | [] => [(dest, [src])]
  | (d, sources) :: rest =>
      if decide (d = dest) then (d, sources ++ [src]) :: rest
      else (d, sources) :: group_add dest src rest
  end.

Definition copy_groups (copy_commands : list (str * str)) :
    list (str * list str) :=
  foldl (fun groups '(src, dest) => group_add dest src groups)
    [] copy_commands.

(** [f'COPY {cmd_src} {cmd_dest}']. *)
Definition copy_text (cmd : str * str) : str :=
  txt "COPY " ++ cmd.1 ++ txt " " ++ cmd.2.

Definition optimized_copy (group : str * list str) : str :=
  match group.2 with
  | [src] => txt "COPY " ++ src ++ txt " " ++ group.1
  | sources =>
      txt "COPY " ++ Py.join (txt " ") sources ++ txt " " ++ group.1
      ++ txt "/"
  end.

Definition copy_insert_point (content : str) : Z :=
  let i := Py.find content (txt "CMD") 0 in
  if decide (i = -1)%Z then Z.of_nat (length content) else i.

Definition optimize_copy_commands (dockerfile_content : str) :
    str * list str :=
  let copy_commands := Re.findall2 copy_pattern dockerfile_content in
  match copy_commands with
  | [] => (dockerfile_content, dockerignore_entries)
  | _ :: _ =>
      let groups := copy_groups copy_commands in
      let content :=
        foldl (fun content cmd => Py.replace content (copy_text cmd) [])
          dockerfile_content copy_commands in
      let optimized_copies := optimized_copy <$> groups in
      let i := copy_insert_point content in
      (Py.upto content i ++ Py.join [nl] optimized_copies ++ [nl]
         ++ Py.from content i,
       dockerignore_entries)
  end.

Definition build_args : str :=
  txt "# Build arguments for optimization" ++ [nl]
  ++ txt "ARG BUILDKIT_INLINE_CACHE=1" ++ [nl]
  ++ txt "ARG DOCKER_BUILDKIT=1" ++ [nl].

Definition add_build_optimization_args (dockerfile_content : str) : str :=
  build_args ++ dockerfile_content.

End DockerfileOptimizer.

(** ** The result records *)

Record DockerfileIssue : Type := Issue {
  severity : str;
  category : str;
  description : str;
  recommendation : str;
  line_number : option Z;
}.

Record OptimizationMetrics : Type := Metrics {
  layer_count : Z;
  estimated_size : str;
  cache_efficiency : Z;
  build_time_score : Z;
  maintainability_score : Z;
}.

Record AnalysisResult : Type := Analysis {
  issues : list DockerfileIssue;
  optimized_dockerfile : str;
  security_score : Z;
  optimization_score : Z;
  optimization_metrics : OptimizationMetrics;
}.

(** ** [DockerfileAnalyzer.analyze_dockerfile]

    The language model is not code of this repository.  What lines 257 to
    274 do with the rewritten text (format the prompt, call the model, parse
    the reply with [json.loads] and build the records) is a parameter
    [llm]: the result for a text, or nothing when any of these steps
    raises. *)

Module DockerfileAnalyzer.
Import DockerfileOptimizer.

(** "Apply optimization strategies": the four passes in their fixed order. *)
Definition rewrite (content : str) : M (str * list str) :=
  let content := optimize_apt_commands content in
  content ← optimize_pip_commands content;
  let '(content, entries) := optimize_copy_commands content in
  let content := add_build_optimization_args content in
  mret (content, entries).

(** "Save .dockerignore if it doesn't exist". *)
Definition save_dockerignore (dockerfile_path : path)
    (entries : list str) : M unit :=
  let dockerignore_path := parent dockerfile_path ++ [".dockerignore"%string] in
  present ← path_exists dockerignore_path;
  if (present : bool) then mret ()
  else write_file dockerignore_path (Py.join [nl] entries).

Section analyze.
Variable llm : str → option AnalysisResult.

(** "Get analysis from LLM", "Parse response", "Convert to AnalysisResult". *)
Definition ask (content : str) : M AnalysisResult :=
  fun w => match llm content with
           | Some analysis => (Ok analysis, w)
           | None => (Raised ReplyError, w)
           end.

(** The body of the [try]. *)
Definition analyze (dockerfile_path : path) : M AnalysisResult :=
  content ← read_file dockerfile_path;
  '(content, entries) ← rewrite content;
  _ ← save_dockerignore dockerfile_path entries;
  ask content.

(** [except Exception as e: raise Exception(...)]: whatever the body raises
    is raised again, wrapped. *)
Definition analyze_dockerfile (dockerfile_path : path) : M AnalysisResult :=
  fun w => match analyze dockerfile_path w with
           | (Ok analysis, w') => (Ok analysis, w')
           | (Raised e, w') => (Raised (AnalysisError e), w')
           end.
End analyze.

End DockerfileAnalyzer.

(** ** [DockerfileAnalyzer.generate_report]

    The report is a function of the result alone.  [sorted] with a key is a
    stable sort; it is written as an insertion from the right, which keeps
    equal keys in their order. *)

(** [str(n)] for an [int]. *)
Definition str_of_int (n : Z) : str := txt (NilZero.string_of_int (Z.to_int n)).

(** [str.lower] on one character and on a text. *)
Definition lower_char (c : ascii) : ascii :=
  let n := nat_of_ascii c in
  if ((65 <=? n) && (n <=? 90))
     || ((192 <=? n) && (n <=? 222) && negb (n =? 215))
  then ascii_of_nat (n + 32) else c.

Definition lower (s : str) : str := lower_char <$> s.

(** [severity_order.get(x.severity.lower(), 4)]. *)
Definition severity_rank (x : DockerfileIssue) : Z :=
  let s := lower (severity x) in
  if decide (s = txt "high") then 1
  else if decide (s = txt "medium") then 2
  else if decide (s = txt "low") then 3
  else 4.

(** The order of the sort keys [(rank, category)]. *)
Definition key_le (x y : DockerfileIssue) : Prop :=
  (severity_rank x < severity_rank y)%Z
  ∨ (severity_rank x = severity_rank y ∧ Py.le (category x) (category y)).

#[global] Instance key_le_dec : RelDecision key_le :=
  fun x y => or_dec _ _.

(** [sorted(issues, key=...)]: a stable sort. *)
Fixpoint insert_issue (x : DockerfileIssue) (l : list DockerfileIssue) :
    list DockerfileIssue :=
  match l with
  | [] => [x]
  | y :: l' => if decide (key_le x y) then x :: l else y :: insert_issue x l'
  end.

Definition sorted_issues (l : list DockerfileIssue) : list DockerfileIssue :=
  foldr insert_issue [] l.

Section report.
(** [str.upper], which takes two characters below 256 to characters above. *)
Variable upper : str → str.

(** The heading printed when the severity changes. *)
Definition severity_heading (sev : str) : str :=
  txt "### " ++ upper sev ++ txt " Severity Issues" ++ [nl; nl].

(** The lines printed for one issue. *)
Definition issue_lines (issue : DockerfileIssue) : str :=
  txt "**" ++ category issue ++ txt "**" ++ [nl]
  ++ txt "- Description: " ++ description issue ++ [nl]
  ++ txt "- Recommendation: " ++ recommendation issue ++ [nl]
  ++ match line_number issue with
     | Some n => if decide (n = 0%Z) then []
                 else txt "- Line Number: " ++ str_of_int n ++ [nl]
     | None => []
     end
  ++ [nl].

(** One round of the loop over the sorted issues. *)
Definition report_issue (state : option str * str) (issue : DockerfileIssue) :
    option str * str :=
  let '(current_severity, report) := state in
  let '(current_severity, report) :=
    if decide (Some (severity issue) = current_severity)
    then (current_severity, report)
    else (Some (severity issue), report ++ severity_heading (severity issue)) in
  (current_severity, report ++ issue_lines issue).

Definition report_head (result : AnalysisResult) : str :=
  txt "# Dockerfile Analysis Report" ++ [nl; nl]
  ++ txt "## Overall Scores" ++ [nl]
  ++ txt "Security Score: " ++ str_of_int (security_score result)
  ++ txt "/100" ++ [nl]
  ++ txt "Optimization Score: " ++ str_of_int (optimization_score result)
  ++ txt "/100" ++ [nl; nl]
  ++ txt "## Optimization Metrics" ++ [nl]
  ++ txt "- Layer Count: "
  ++ str_of_int (layer_count (optimization_metrics result)) ++ [nl]
  ++ txt "- Estimated Image Size: "
  ++ estimated_size (optimization_metrics result) ++ [nl]
  ++ txt "- Cache Efficiency: "
  ++ str_of_int (cache_efficiency (optimization_metrics result))
  ++ txt "/100" ++ [nl]
  ++ txt "- Build Time Score: "
  ++ str_of_int (build_time_score (optimization_metrics result))
  ++ txt "/100" ++ [nl]
  ++ txt "- Maintainability Score: "
  ++ str_of_int (maintainability_score (optimization_metrics result))
  ++ txt "/100" ++ [nl; nl]
  ++ txt "## Issues Found" ++ [nl; nl].

Definition generate_report (result : AnalysisResult) : str :=
  (foldl report_issue (None, report_head result)
     (sorted_issues (issues result))).2.
End report.

(** ** Documents used as concrete inputs *)

Module Examples.

(** The Dockerfile that [main] writes when none exists. *)
Definition example_dockerfile : str :=
  Py.join [nl]
    [ txt "FROM ubuntu:latest";
      txt "RUN apt-get update && apt-get install -y python3";
      txt "RUN apt-get update && apt-get install -y nginx";
      txt "RUN pip3 install flask";
      txt "RUN pip3 install requests";
      txt "COPY app.py /app/";
      txt "RUN chmod +x /app/app.py";
      txt "EXPOSE 8080";
      txt "CMD [" ++ [dquote] ++ txt "/app/app.py" ++ [dquote] ++ txt "]" ].

(** A document with nothing for the span passes to find. *)
Definition plain_dockerfile : str :=
  Py.join [nl] [ txt "FROM ubuntu:latest"; txt "EXPOSE 8080"; [] ].

(** An apt instruction followed by a blank line, and no base image. *)
Definition no_from_dockerfile : str :=
  Py.join [nl]
    [ txt "RUN apt-get update && apt-get install -y curl"; [];
      txt "CMD sh"; [] ].

(** A pip instruction followed by a blank line, and no base image. *)
Definition no_from_pip_dockerfile : str :=
  Py.join [nl] [ txt "RUN pip install flask"; []; txt "CMD app"; [] ].

(** A pip instruction followed by a blank line. *)
Definition pip_dockerfile : str :=
  Py.join [nl]
    [ txt "FROM python:3.12"; txt "RUN pip install flask"; [];
      txt "CMD app"; [] ].

(** An apt instruction followed by a blank line, after the base image. *)
Definition apt_dockerfile : str :=
  Py.join [nl]
    [ txt "FROM ubuntu:latest";
      txt "RUN apt-get update && apt-get install -y curl git"; [];
      txt "CMD sh"; [] ].

(** Two apt instructions, each followed by a blank line, in both orders. *)
Definition apt_two_dockerfile : str :=
  Py.join [nl]
    [ txt "FROM ubuntu:latest";
      txt "RUN apt-get update && apt-get install -y git"; [];
      txt "RUN apt-get update && apt-get install -y curl"; [];
      txt "CMD sh"; [] ].

Definition apt_two_swapped_dockerfile : str :=
  Py.join [nl]
    [ txt "FROM ubuntu:latest";
      txt "RUN apt-get update && apt-get install -y curl"; [];
      txt "RUN apt-get update && apt-get install -y git"; [];
      txt "CMD sh"; [] ].

(** Two apt instructions, the first followed by a blank line and the second
    by the next instruction, in both orders. *)
Definition apt_mixed_dockerfile : str :=
  Py.join [nl]
    [ txt "FROM ubuntu:latest";
      txt "RUN apt-get update && apt-get install -y git"; [];
      txt "RUN apt-get update && apt-get install -y curl";
      txt "CMD sh"; [] ].

Definition apt_mixed_swapped_dockerfile : str :=
  Py.join [nl]
    [ txt "FROM ubuntu:latest";
      txt "RUN apt-get update && apt-get install -y curl"; [];
      txt "RUN apt-get update && apt-get install -y git";
      txt "CMD sh"; [] ].

(** Two copies to one destination and one to another. *)
Definition copy_dockerfile : str :=
  Py.join [nl]
    [ txt "FROM ubuntu:latest"; txt "COPY a.txt /x"; txt "COPY b.txt /x";
      txt "COPY c.txt /y"; txt "CMD run"; [] ].

(** An apt instruction followed by a blank line, after the base image, in a
    document whose first line is a comment that holds the word FROM. *)
Definition commented_dockerfile : str :=
  Py.join [nl]
    [ txt "# Build FROM source"; txt "FROM ubuntu:latest";
      txt "RUN apt-get update && apt-get install -y git"; [];
      txt "CMD sh"; [] ].

(** The same three copies, written with two blanks after [COPY] and in
    front of the destination. *)
Definition copy_spaced_dockerfile : str :=
  Py.join [nl]
    [ txt "FROM ubuntu:latest"; txt "COPY  a.txt  /x"; txt "COPY  b.txt  /x";
      txt "COPY  c.txt  /y"; txt "CMD run"; [] ].

Definition home : path := ["home"; "build"]%string.

(** A process in [home] with an empty file system. *)
Definition empty_world : world := World ∅ ∅ home.

(** A process in [home] whose Dockerfile directory already has an ignore
    file. *)
Definition managed_world : world :=
  World (<[ home ++ [".dockerignore"%string] := txt "secrets" ]>
           (<[ home ++ ["Dockerfile"%string] := pip_dockerfile ]> ∅))
        ∅ home.

End Examples.

Module ReportExamples.

(** [str.upper] on a text of ASCII characters. *)
Definition upper_ascii (s : str) : str :=
  (λ c, let n := nat_of_ascii c in
        if (97 <=? n) && (n <=? 122) then ascii_of_nat (n - 32) else c) <$> s.

(** A result with issues of the three severities, not in report order. *)
Definition sample_result : AnalysisResult :=
  Analysis
    [ Issue (txt "low") (txt "cache") (txt "pip cache kept")
        (txt "use --no-cache-dir") None;
      Issue (txt "high") (txt "user") (txt "runs as root")
        (txt "add a USER instruction") (Some 9%Z);
      Issue (txt "medium") (txt "layers") (txt "two apt layers")
        (txt "merge the RUN lines") (Some 2%Z);
      Issue (txt "high") (txt "base image") (txt "latest tag")
        (txt "pin a version") (Some 1%Z) ]
    (txt "FROM ubuntu:22.04") 40 55 (Metrics 7 (txt "450MB") 60 50 70).

(** A language model that answers every text with [sample_result], and one
    whose reply cannot be used. *)
Definition sample_llm : str → option AnalysisResult :=
  fun _ => Some sample_result.

Definition failing_llm : str → option AnalysisResult := fun _ => None.

End ReportExamples.

(** ** Notions used to state the properties *)

Import DockerfileOptimizer DockerfileAnalyzer.

(** The file the pip pass writes, seen from a process state. *)
Definition requirements_path (w : world) : path :=
  cwd w ++ ["requirements.txt"%string].

(** The ignore file that belongs to a Dockerfile. *)
Definition dockerignore_path (dockerfile_path : path) : path :=
  parent dockerfile_path ++ [".dockerignore"%string].

(** The text a span pass works on once the spans are gone and the blank runs
    are collapsed. *)
Definition cleaned (spans : list str) (content : str) : str :=
  Re.sub blank_run [nl; nl] (remove_all spans content).

(** The text part of the pip pass. *)
Definition pip_text (d : str) : str :=
  match Re.findall0 pip_pattern d with
  | [] => d
  | spans => insert_after_from pip_combined_command (cleaned spans d)
  end.

(** The state the pip pass leaves. *)
Definition pip_world (d : str) (w : world) : world :=
  match Re.findall0 pip_pattern d with
  | [] => w
  | spans =>
      World (<[ requirements_path w :=
                  Py.join [nl] (Py.sorted (collect_packages pip_pkg_pattern spans)) ]>
               (files w))
            (environ w) (cwd w)
  end.

(** The text the pipeline returns. *)
Definition rewrite_text (d : str) : str :=
  add_build_optimization_args
    (optimize_copy_commands (pip_text (optimize_apt_commands d))).1.

(** [s.count(sub)]: the number of non-overlapping occurrences of [sub] in
    [s], counted from the left; [skip] is as in [Py.replace_from]. *)
Fixpoint count_from (sub : str) (skip : nat) (s : str) : nat :=
  match s with
  | [] => 0
  | _ :: t =>
      match skip with
      | S k => count_from sub k t
      | O => if Py.startswith s sub
             then S (count_from sub (length sub - 1) t)
             else count_from sub 0 t
      end
  end.

Definition count (s sub : str) : nat :=
  match sub with
  | [] => S (length s)
  | _ :: _ => count_from sub 0 s
  end.

(** [x in s]: the text [x] occurs in the text [s]. *)
Definition occurs (x s : str) : Prop := ∃ a b, s = a ++ x ++ b.

(** The destinations of a list of copies in the order in which each is met
    first, as the specification words the order of the groups. *)
Definition first_seen (dests : list str) : list str :=
  foldl (fun seen d => if decide (d ∈ seen) then seen else seen ++ [d])
    [] dests.

(** A pattern of the shape [... \n]: whatever it matches ends in a newline. *)
Fixpoint ends_in_newline (r : Re.re) : bool :=
  match r with
  | Re.Lit l => bool_decide (l = [nl])
  | Re.Seq _ r2 => ends_in_newline r2
  | _ => false
  end.

(** The text of the copy pass once every matched [COPY src dest] is taken
    out, and the grouped instructions it puts in. *)
Definition copy_removed (d : str) : str :=
  foldl (fun content cmd => Py.replace content (copy_text cmd) [])
    d (Re.findall2 copy_pattern d).

Definition copy_instructions (d : str) : str :=
  Py.join [nl] (optimized_copy <$> copy_groups (Re.findall2 copy_pattern d)).

(** The text the loop adds, given the severity of the issue before. *)
Fixpoint report_body (upper : str → str) (current_severity : option str)
    (l : list DockerfileIssue) : str :=
  match l with
  | [] => []
  | issue :: l' =>
      (if decide (Some (severity issue) = current_severity) then []
       else severity_heading upper (severity issue))
      ++ issue_lines issue
      ++ report_body upper (Some (severity issue)) l'
  end.

(** The text of a run of issues under the heading of [sev]. *)
Definition section_text (upper : str → str) (sev : str)
    (g : list DockerfileIssue) : str :=
  match g with
  | [] => []
  | _ => severity_heading upper sev ++ concat (issue_lines <$> g)
  end.

(** The section of one severity: its heading and its issues, in the order of
    [l]; nothing when [l] has no issue of that severity. *)
Definition severity_section (upper : str → str) (sev : str)
    (l : list DockerfileIssue) : str :=
  section_text upper sev (filter (λ i, severity i = sev) l).

(** The severities the report orders. *)
Definition canonical (issue : DockerfileIssue) : Prop :=
  severity issue ∈ [txt "high"; txt "medium"; txt "low"].

(** A place where a line starts: the text in front of it is empty or ends in
    a line break. *)
Definition starts_line (pre : str) : Prop := pre = [] ∨ last pre = Some nl.

(** The names on an install line: the text between the white space after
    the install words and the end of the line, which starts and ends with a
    character of a name. *)
Definition names_text (payload : str) : Prop :=
  payload ≠ [] ∧ (nl ∉ payload)
  ∧ (∀ c, head payload = Some c → Py.isspace c = false)
  ∧ (∀ c, last payload = Some c → Re.space_or_bslash c = false).

(** What stands between the install words and the line break of an install
    line: white space, the names, and blanks or backslashes. *)
Definition install_line (ws payload trail : str) : Prop :=
  ws ≠ [] ∧ Forall (λ c, Py.isspace c = true) ws
  ∧ names_text payload
  ∧ Forall (λ c, Re.space_or_bslash c = true) trail.

(** The shape the two package patterns share. *)
Definition payload_pattern (l : str) : Re.re :=
  Re.Seq (Re.Lit l)
    (Re.Seq (Re.Plus Re.space)
       (Re.Seq (Re.Group (Re.LazyPlus Re.dot))
          (Re.Seq (Re.Star Re.space_or_bslash) (Re.Lit [nl])))).

(** * Properties *)

(** ** Prefixes *)

Lemma strip_prefix_app (p s r : str) :
  Py.strip_prefix p s = Some r → s = p ++ r.
Proof.
  revert s. induction p as [|a p IH]; intros [|b s]; simpl; try congruence.
  destruct (Ascii.eqb_spec a b) as [->|]; [|done].
  intros H. f_equal. by apply IH.
Qed.

Lemma startswith_app (p s : str) : Py.startswith (p ++ s) p = true.
Proof.
  unfold Py.startswith.
  assert (H : Py.strip_prefix p (p ++ s) = Some s).
  { induction p as [|a p IH]; simpl; [by destruct s|].
    by rewrite Ascii.eqb_refl. }
  by rewrite H.
Qed.

(** ** Running the effectful steps *)

Lemma optimize_pip_commands_run d w :
  optimize_pip_commands d w = (Ok (pip_text d), pip_world d w).
Proof.
  unfold optimize_pip_commands, pip_text, pip_world.
  destruct (Re.findall0 pip_pattern d); reflexivity.
Qed.

Lemma optimize_copy_commands_entries d :
  (optimize_copy_commands d).2 = dockerignore_entries.
Proof.
  unfold optimize_copy_commands.
  destruct (Re.findall2 copy_pattern d); reflexivity.
Qed.

Lemma optimize_apt_commands_spans (d : str) :
  Re.findall0 apt_pattern d ≠ [] →
  optimize_apt_commands d =
    insert_after_from
      (apt_combined_command
         (collect_packages apt_pkg_pattern (Re.findall0 apt_pattern d)))
      (cleaned (Re.findall0 apt_pattern d) d).
Proof.
  intros H. unfold optimize_apt_commands, cleaned.
  by destruct (Re.findall0 apt_pattern d).
Qed.

Lemma pip_text_spans (d : str) :
  Re.findall0 pip_pattern d ≠ [] →
  pip_text d =
    insert_after_from pip_combined_command
      (cleaned (Re.findall0 pip_pattern d) d).
Proof.
  intros H. unfold pip_text. by destruct (Re.findall0 pip_pattern d).
Qed.

Lemma rewrite_run d w :
  rewrite d w =
    (Ok (rewrite_text d, dockerignore_entries),
     pip_world (optimize_apt_commands d) w).
Proof.
  unfold rewrite, rewrite_text, mbind, M_bind.
  rewrite optimize_pip_commands_run.
  pose proof (optimize_copy_commands_entries
                (pip_text (optimize_apt_commands d))) as He.
  destruct (optimize_copy_commands (pip_text (optimize_apt_commands d)))
    as [c e]; simpl in *; subst e. reflexivity.
Qed.

Lemma pip_world_environ d w : environ (pip_world d w) = environ w.
Proof. unfold pip_world. destruct (Re.findall0 pip_pattern d); reflexivity. Qed.

Lemma pip_world_cwd d w : cwd (pip_world d w) = cwd w.
Proof. unfold pip_world. destruct (Re.findall0 pip_pattern d); reflexivity. Qed.

Lemma pip_world_files_other d w p :
  p ≠ requirements_path w →
  files (pip_world d w) !! p = files w !! p.
Proof.
  intros Hp. unfold pip_world.
  destruct (Re.findall0 pip_pattern d); [reflexivity|].
  simpl. by rewrite lookup_insert_ne.
Qed.

Lemma dockerignore_is_not_requirements p w :
  dockerignore_path p ≠ requirements_path w.
Proof.
  unfold dockerignore_path, requirements_path. intros H.
  apply app_inj_tail in H as [_ H]. discriminate H.
Qed.

Lemma save_dockerignore_present p entries w :
  is_Some (files w !! dockerignore_path p) →
  save_dockerignore p entries w = (Ok (), w).
Proof.
  intros H. unfold save_dockerignore, mbind, M_bind, path_exists.
  fold (dockerignore_path p). by rewrite bool_decide_eq_true_2.
Qed.

Lemma save_dockerignore_absent p entries w :
  files w !! dockerignore_path p = None →
  save_dockerignore p entries w =
    (Ok (), World (<[ dockerignore_path p := Py.join [nl] entries ]> (files w))
              (environ w) (cwd w)).
Proof.
  intros H. unfold save_dockerignore, mbind, M_bind, path_exists.
  fold (dockerignore_path p). rewrite bool_decide_eq_false_2; [reflexivity|].
  rewrite H. by intros [? ?].
Qed.

(** ** The build-argument pass *)

(** C10: for every text [d], [add_build_optimization_args] returns the fixed
    block (the comment header and the two ARG lines, 85 characters) followed
    by [d]: the block is the first 85 characters of the result and [d],
    unchanged, is the rest, also when [d] is empty or has no FROM. *)
Theorem C10_build_args_prepended (d : str) :
  add_build_optimization_args d =
    txt "# Build arguments for optimization" ++ [nl]
    ++ txt "ARG BUILDKIT_INLINE_CACHE=1" ++ [nl]
    ++ txt "ARG DOCKER_BUILDKIT=1" ++ [nl] ++ d
  ∧ take 85 (add_build_optimization_args d) = build_args
  ∧ drop 85 (add_build_optimization_args d) = d
  ∧ length (add_build_optimization_args d) = 85 + length d
  ∧ add_build_optimization_args [] = build_args.
Proof.
  unfold add_build_optimization_args.
  assert (Hlen : length build_args = 85) by reflexivity.
  split_and!.
  - unfold build_args. by rewrite <- !app_assoc.
  - rewrite <- Hlen. by rewrite take_app_length.
  - rewrite <- Hlen. by rewrite drop_app_length.
  - by rewrite length_app, Hlen.
  - apply app_nil_r.
Qed.

(** ** The ignore list and its persistence *)

(** C8: the ignore globs returned for any two documents are the same fixed
    list, by the copy pass and by the whole pipeline; the persistence step
    leaves the whole state alone when the ignore file already exists and
    writes the list, one glob per line, when it does not; and an ignore file
    present before [analyze_dockerfile] runs has the same content
    afterwards. *)
Theorem C8_ignore_list_stable (d1 d2 : str) (p : path) (w : world) (c : str)
    (llm : str → option AnalysisResult) :
  (optimize_copy_commands d1).2 = (optimize_copy_commands d2).2
  ∧ (optimize_copy_commands d1).2 = dockerignore_entries
  ∧ (rewrite d1 w).1 = Ok (rewrite_text d1, dockerignore_entries)
  ∧ (rewrite d2 w).1 = Ok (rewrite_text d2, dockerignore_entries)
  ∧ (files w !! dockerignore_path p = Some c →
       save_dockerignore p dockerignore_entries w = (Ok (), w)
       ∧ files (analyze_dockerfile llm p w).2 !! dockerignore_path p = Some c)
  ∧ (files w !! dockerignore_path p = None →
       files (save_dockerignore p dockerignore_entries w).2
         !! dockerignore_path p
       = Some (Py.join [nl] dockerignore_entries)).
Proof.
  split_and!.
  - by rewrite !optimize_copy_commands_entries.
  - apply optimize_copy_commands_entries.
  - by rewrite rewrite_run.
  - by rewrite rewrite_run.
  - intros Hc. split; [apply save_dockerignore_present; by rewrite Hc|].
    unfold analyze_dockerfile, analyze, mbind, M_bind, read_file.
    destruct (files w !! p) as [content|]; [|by simpl].
    rewrite rewrite_run.
    assert (Hc' : files (pip_world
                           (optimize_apt_commands
                              (Py.universal_newlines content)) w)
                    !! dockerignore_path p = Some c).
    { rewrite pip_world_files_other; [done|].
      apply dockerignore_is_not_requirements. }
    rewrite save_dockerignore_present; [|by rewrite Hc'].
    unfold ask. by destruct (llm _).
  - intros Hn. rewrite save_dockerignore_absent by done.
    simpl. apply lookup_insert_eq.
Qed.

Lemma C8_ignore_list_stable_witness :
  files Examples.managed_world
    !! dockerignore_path (Examples.home ++ ["Dockerfile"%string])
  = Some (txt "secrets")
  ∧ files (analyze_dockerfile ReportExamples.sample_llm
             (Examples.home ++ ["Dockerfile"%string])
             Examples.managed_world).2
      !! dockerignore_path (Examples.home ++ ["Dockerfile"%string])
    = Some (txt "secrets")
  ∧ files Examples.empty_world
      !! dockerignore_path (Examples.home ++ ["Dockerfile"%string]) = None
  ∧ files (save_dockerignore (Examples.home ++ ["Dockerfile"%string])
             dockerignore_entries Examples.empty_world).2
      !! dockerignore_path (Examples.home ++ ["Dockerfile"%string])
    = Some (Py.join [nl] dockerignore_entries).
Proof.
  assert (H1 : files Examples.managed_world
                 !! dockerignore_path (Examples.home ++ ["Dockerfile"%string])
               = Some (txt "secrets")) by (vm_compute; reflexivity).
  assert (H2 : files Examples.empty_world
                 !! dockerignore_path (Examples.home ++ ["Dockerfile"%string])
               = None) by (vm_compute; reflexivity).
  destruct (C8_ignore_list_stable Examples.pip_dockerfile
              Examples.plain_dockerfile
              (Examples.home ++ ["Dockerfile"%string])
              Examples.managed_world (txt "secrets")
              ReportExamples.sample_llm)
    as (_ & _ & _ & _ & Hpresent & _).
  destruct (C8_ignore_list_stable Examples.pip_dockerfile
              Examples.plain_dockerfile
              (Examples.home ++ ["Dockerfile"%string])
              Examples.empty_world [] ReportExamples.sample_llm)
    as (_ & _ & _ & _ & _ & Habsent).
  exact (conj H1 (conj (proj2 (Hpresent H1)) (conj H2 (Habsent H2)))).
Defined.

(** ** What the passes do to the process state *)

(** C9, as the code has it: the state the pipeline leaves is the state the
    pip pass leaves, the apt, copy and build-argument passes being functions
    of the text alone; the pipeline leaves the environment variables and the
    working directory alone and changes no file other than
    [requirements.txt] in the working directory; it changes nothing at all
    when the pip pass finds no span, and when it finds one it writes the
    sorted package names to that file, one per line. *)
Theorem C9_rewrite_effects (d : str) (w : world) (p : path) :
  (rewrite d w).2 = (optimize_pip_commands (optimize_apt_commands d) w).2
  ∧ environ (rewrite d w).2 = environ w
  ∧ cwd (rewrite d w).2 = cwd w
  ∧ (p ≠ requirements_path w →
       files (rewrite d w).2 !! p = files w !! p)
  ∧ (Re.findall0 pip_pattern (optimize_apt_commands d) = [] →
       (rewrite d w).2 = w)
  ∧ (Re.findall0 pip_pattern (optimize_apt_commands d) ≠ [] →
       files (rewrite d w).2 !! requirements_path w =
         Some (Py.join [nl]
                 (Py.sorted
                    (collect_packages pip_pkg_pattern
                       (Re.findall0 pip_pattern (optimize_apt_commands d)))))).
Proof.
  rewrite rewrite_run, optimize_pip_commands_run. cbn [snd]. split_and!.
  - reflexivity.
  - apply pip_world_environ.
  - apply pip_world_cwd.
  - apply pip_world_files_other.
  - intros H. unfold pip_world. by rewrite H.
  - intros H. unfold pip_world.
    destruct (Re.findall0 pip_pattern (optimize_apt_commands d)); [done|].
    simpl. apply lookup_insert_eq.
Qed.

Lemma C9_rewrite_effects_witness :
  files (rewrite Examples.pip_dockerfile Examples.empty_world).2
    !! (Examples.home ++ ["Dockerfile"%string])
  = files Examples.empty_world !! (Examples.home ++ ["Dockerfile"%string])
  ∧ (rewrite Examples.plain_dockerfile Examples.empty_world).2
    = Examples.empty_world
  ∧ files (rewrite Examples.pip_dockerfile Examples.empty_world).2
      !! requirements_path Examples.empty_world
    = Some (Py.join [nl]
              (Py.sorted
                 (collect_packages pip_pkg_pattern
                    (Re.findall0 pip_pattern
                       (optimize_apt_commands Examples.pip_dockerfile))))).
Proof.
  destruct (C9_rewrite_effects Examples.pip_dockerfile Examples.empty_world
              (Examples.home ++ ["Dockerfile"%string]))
    as (_ & _ & _ & Hother & _ & Hwritten).
  destruct (C9_rewrite_effects Examples.plain_dockerfile Examples.empty_world
              []) as (_ & _ & _ & _ & Hnone & _).
  split_and!.
  - apply Hother. vm_compute. discriminate.
  - apply Hnone. vm_compute. reflexivity.
  - apply Hwritten. vm_compute. discriminate.
Defined.

(** C9 as stated fails: on a document with a pip instruction the pip pass
    creates [requirements.txt] in the working directory. *)
Lemma C9_counterexample :
  files Examples.empty_world !! (Examples.home ++ ["requirements.txt"%string])
  = None
  ∧ files (optimize_pip_commands Examples.pip_dockerfile
             Examples.empty_world).2
      !! (Examples.home ++ ["requirements.txt"%string])
    = Some (txt "flask").
Proof. split; vm_compute; reflexivity. Qed.

(** ** Copy grouping *)

Lemma group_add_dests (dest src : str) (groups : list (str * list str)) :
  (group_add dest src groups).*1 =
    if decide (dest ∈ groups.*1) then groups.*1 else groups.*1 ++ [dest].
Proof.
  induction groups as [|[d ss] groups IH].
  - reflexivity.
  - cbn [group_add]. rewrite (fmap_cons fst (d, ss) groups). cbn [fst].
    destruct (decide (d = dest)) as [->|Hd].
    + rewrite fmap_cons. cbn [fst].
      rewrite decide_True; [done|]. apply list_elem_of_here.
    + rewrite fmap_cons, IH. cbn [fst].
      destruct (decide (dest ∈ groups.*1)) as [Hin|Hin].
      * rewrite decide_True; [done|]. by apply list_elem_of_further.
      * rewrite decide_False; [done|].
        intros [?|?]%elem_of_cons; [by subst|done].
Qed.

Lemma foldl_group_add_dests (cmds : list (str * str))
    (groups : list (str * list str)) :
  (foldl (fun groups '(src, dest) => group_add dest src groups) groups cmds).*1
  = foldl (fun seen d => if decide (d ∈ seen) then seen else seen ++ [d])
      (groups.*1) (cmds.*2).
Proof.
  revert groups. induction cmds as [|[src dest] cmds IH]; intros groups;
    simpl; [done|].
  by rewrite IH, group_add_dests.
Qed.

(** Three copies [A -> x], [B -> x], [C -> y] with [x] and [y] distinct give
    one grouped instruction for [x] that lists [A] and [B] and ends the
    destination with a separator, and one two-argument instruction for [y];
    the groups stand in the order in which their destinations are first met.
    On a document whose three COPY lines are written with single blanks the
    pass puts exactly these two instructions in front of CMD. *)
Lemma copy_grouping_of_pairs (A B C x y : str) :
  x ≠ y →
  optimized_copy <$> copy_groups [(A, x); (B, x); (C, y)]
    = [ txt "COPY " ++ A ++ txt " " ++ B ++ txt " " ++ x ++ txt "/";
        txt "COPY " ++ C ++ txt " " ++ y ]
  ∧ optimized_copy <$> copy_groups [(A, x); (C, y); (B, x)]
    = [ txt "COPY " ++ A ++ txt " " ++ B ++ txt " " ++ x ++ txt "/";
        txt "COPY " ++ C ++ txt " " ++ y ]
  ∧ optimized_copy <$> copy_groups [(C, y); (A, x); (B, x)]
    = [ txt "COPY " ++ C ++ txt " " ++ y;
        txt "COPY " ++ A ++ txt " " ++ B ++ txt " " ++ x ++ txt "/" ]
  ∧ (∀ cmds : list (str * str), (copy_groups cmds).*1 = first_seen (cmds.*2))
  ∧ Re.findall2 copy_pattern Examples.copy_dockerfile
    = [ (txt "a.txt", txt "/x"); (txt "b.txt", txt "/x");
        (txt "c.txt", txt "/y") ]
  ∧ (optimize_copy_commands Examples.copy_dockerfile).1
    = Py.join [nl]
        [ txt "FROM ubuntu:latest"; []; []; [];
          txt "COPY a.txt b.txt /x/"; txt "COPY c.txt /y";
          txt "CMD run"; [] ]
  ∧ (rewrite Examples.copy_dockerfile Examples.empty_world).1
    = Ok (build_args
          ++ Py.join [nl]
               [ txt "FROM ubuntu:latest"; []; []; [];
                 txt "COPY a.txt b.txt /x/"; txt "COPY c.txt /y";
                 txt "CMD run"; [] ],
          dockerignore_entries).
Proof.
  intros Hxy.
  assert (Hyx : y ≠ x) by congruence.
  split_and!.
  - unfold copy_groups. simpl.
    rewrite decide_True by done. simpl.
    rewrite decide_False by done. simpl.
    unfold optimized_copy. simpl. by rewrite <- !app_assoc.
  - unfold copy_groups. simpl.
    rewrite decide_False by done. simpl.
    rewrite decide_True by done. simpl.
    unfold optimized_copy. simpl. by rewrite <- !app_assoc.
  - unfold copy_groups. simpl.
    rewrite decide_False by done. simpl.
    rewrite decide_False by done. simpl.
    rewrite decide_True by done. simpl.
    unfold optimized_copy. simpl. by rewrite <- !app_assoc.
  - intros cmds. apply foldl_group_add_dests.
  - vm_compute. reflexivity.
  - vm_compute. reflexivity.
  - vm_compute. reflexivity.
Qed.

(** C5 does not hold of the code.  The scanner reads a COPY line with any
    white space between its parts, but the pass takes out only the exact
    text [COPY src dest] with single blanks.  On a document whose three COPY
    lines are written with two blanks the scanner returns the three pairs
    and the two grouped instructions are put in, but the three lines stay:
    the text has five COPY instructions, [c.txt] is copied to [/y] by two
    of them, and [a.txt] and [b.txt] are each copied to [/x] twice.  With
    single blanks the same three copies give the two instructions alone. *)
Theorem C5_copies_not_replaced :
  Re.findall2 copy_pattern Examples.copy_spaced_dockerfile
  = [ (txt "a.txt", txt "/x"); (txt "b.txt", txt "/x");
      (txt "c.txt", txt "/y") ]
  ∧ Re.findall2 copy_pattern Examples.copy_spaced_dockerfile
    = Re.findall2 copy_pattern Examples.copy_dockerfile
  ∧ rewrite Examples.copy_spaced_dockerfile Examples.empty_world
    = (Ok (build_args
           ++ Py.join [nl]
                [ txt "FROM ubuntu:latest";
                  txt "COPY  a.txt  /x"; txt "COPY  b.txt  /x";
                  txt "COPY  c.txt  /y";
                  txt "COPY a.txt b.txt /x/"; txt "COPY c.txt /y";
                  txt "CMD run"; [] ],
           dockerignore_entries),
       Examples.empty_world)
  ∧ count (rewrite_text Examples.copy_spaced_dockerfile) (txt "COPY") = 5
  ∧ count (rewrite_text Examples.copy_dockerfile) (txt "COPY") = 2.
Proof. split_and!; vm_compute; reflexivity. Qed.

(** ** The order of [sorted] *)

Section order.

Lemma nat_of_ascii_inj a b : nat_of_ascii a = nat_of_ascii b → a = b.
Proof.
  intros H. rewrite <- (ascii_nat_embedding a), <- (ascii_nat_embedding b).
  by rewrite H.
Qed.

Lemma cmp_refl a : Py.cmp a a = Eq.
Proof. induction a as [|x a IH]; simpl; [done|]. by rewrite Nat.compare_refl. Qed.

Lemma cmp_eq a b : Py.cmp a b = Eq → a = b.
Proof.
  revert b. induction a as [|x a IH]; intros [|y b]; simpl; try done.
  destruct (Nat.compare_spec (nat_of_ascii x) (nat_of_ascii y)) as [E| |];
    try done.
  intros H. apply nat_of_ascii_inj in E. subst y. f_equal. by apply IH.
Qed.

Lemma cmp_antisym a b : Py.cmp b a = CompOpp (Py.cmp a b).
Proof.
  revert b. induction a as [|x a IH]; intros [|y b]; simpl; try done.
  rewrite (Nat.compare_antisym (nat_of_ascii x) (nat_of_ascii y)).
  destruct (nat_of_ascii x ?= nat_of_ascii y); simpl; auto.
Qed.

Lemma cmp_lt_trans a b c :
  Py.cmp a b = Lt → Py.cmp b c = Lt → Py.cmp a c = Lt.
Proof.
  revert b c. induction a as [|x a IH]; intros [|y b] [|z c]; simpl;
    try done.
  destruct (Nat.compare_spec (nat_of_ascii x) (nat_of_ascii y)) as [E1|L1|G1];
    destruct (Nat.compare_spec (nat_of_ascii y) (nat_of_ascii z)) as [E2|L2|G2];
    try done; intros H1 H2.
  - rewrite E1, E2, Nat.compare_refl. by eapply IH.
  - rewrite E1. by apply Nat.compare_lt_iff in L2 as ->.
  - rewrite <- E2. by apply Nat.compare_lt_iff in L1 as ->.
  - assert (L : nat_of_ascii x < nat_of_ascii z) by lia.
    by apply Nat.compare_lt_iff in L as ->.
Qed.

#[global] Instance le_total : Total Py.le.
Proof.
  intros a b. unfold Py.le. rewrite (cmp_antisym a b).
  destruct (Py.cmp a b); simpl; auto.
Qed.

#[global] Instance le_trans : Transitive Py.le.
Proof.
  intros a b c. unfold Py.le. intros H1 H2.
  destruct (Py.cmp a b) eqn:E1; [| |done].
  - apply cmp_eq in E1. by subst b.
  - destruct (Py.cmp b c) eqn:E2; [| |done].
    + apply cmp_eq in E2. subst c. by rewrite E1.
    + by rewrite (cmp_lt_trans a b c).
Qed.

Lemma le_ne_lt a b : Py.le a b → a ≠ b → Py.lt a b.
Proof.
  unfold Py.le, Py.lt. intros H Hne.
  destruct (Py.cmp a b) eqn:E; [|done|done].
  by apply cmp_eq in E.
Qed.

Lemma sorted_Permutation (X : gset str) : Py.sorted X ≡ₚ elements X.
Proof. apply merge_sort_Permutation. Qed.

Lemma elem_of_sorted (X : gset str) (x : str) : x ∈ Py.sorted X ↔ x ∈ X.
Proof. by rewrite sorted_Permutation, elem_of_elements. Qed.

Lemma sorted_NoDup (X : gset str) : NoDup (Py.sorted X).
Proof. rewrite sorted_Permutation. apply NoDup_elements. Qed.

Lemma StronglySorted_lt_of_le (l : list str) :
  StronglySorted Py.le l → NoDup l → StronglySorted Py.lt l.
Proof.
  induction 1 as [|x l Hl IH Hx]; intros Hnd; constructor.
  - apply IH. by apply NoDup_cons in Hnd as [_ ?].
  - apply NoDup_cons in Hnd as [Hin _].
    apply Forall_forall. intros y Hy.
    apply le_ne_lt.
    + rewrite Forall_forall in Hx. by apply Hx.
    + intros ->. by apply Hin, list_elem_of_In.
Qed.

Lemma sorted_ascending (X : gset str) : StronglySorted Py.lt (Py.sorted X).
Proof.
  apply StronglySorted_lt_of_le; [|apply sorted_NoDup].
  apply StronglySorted_merge_sort; apply _.
Qed.

End order.

(** ** Collecting the payloads *)

Lemma elem_of_foldl_update (pat : Re.re) (cmds : list str) (acc : gset str)
    (x : str) :
  x ∈ foldl (fun packages cmd => Py.update packages (first_payload pat cmd))
        acc cmds
  ↔ x ∈ acc ∨ ∃ cmd, cmd ∈ cmds ∧ x ∈ first_payload pat cmd.
Proof.
  revert acc. induction cmds as [|c cmds IH]; intros acc; simpl.
  - split; [auto|]. intros [H|(cmd & H & _)]; [done|]. by apply elem_of_nil in H.
  - rewrite IH. unfold Py.update. rewrite elem_of_union, elem_of_list_to_set.
    split.
    + intros [[H|H]|(cmd & H1 & H2)]; [by left| |].
      * right. exists c. split; [apply list_elem_of_here|done].
      * right. exists cmd. split; [by apply list_elem_of_further|done].
    + intros [H|(cmd & H1 & H2)]; [by left; left|].
      apply elem_of_cons in H1 as [->|H1]; [by left; right|].
      right. by exists cmd.
Qed.

Lemma elem_of_collect_packages (pat : Re.re) (cmds : list str) (x : str) :
  x ∈ collect_packages pat cmds
  ↔ ∃ cmd, cmd ∈ cmds ∧ x ∈ first_payload pat cmd.
Proof.
  unfold collect_packages. rewrite elem_of_foldl_update.
  split; [|by right]. intros [H|H]; [|done]. by apply elem_of_empty in H.
Qed.

Lemma collect_packages_Permutation (pat : Re.re) (cmds1 cmds2 : list str) :
  cmds1 ≡ₚ cmds2 → collect_packages pat cmds1 = collect_packages pat cmds2.
Proof.
  intros Hp. apply set_eq. intros x. rewrite !elem_of_collect_packages.
  split; intros (cmd & H1 & H2); exists cmd; split; try done.
  - by rewrite <- Hp.
  - by rewrite Hp.
Qed.

(** ** The extractor and the newline

    The package sub-patterns end in [\n], so a span yields a payload only if
    it takes in a newline. *)

Lemma greedy_fails (p : ascii → bool) (k : str → option Re.outcome) (s : str) :
  (∀ s', s' `suffix_of` s → k s' = None) → Re.greedy p k s = None.
Proof.
  induction s as [|c t IH]; intros Hk; simpl.
  - by apply Hk.
  - destruct (p c); [|by apply Hk].
    rewrite IH; [by apply Hk|].
    intros s' Hs'. apply Hk. by apply suffix_cons_r.
Qed.

Lemma lazy_fails (p : ascii → bool) (k : str → option Re.outcome) (s : str) :
  (∀ s', s' `suffix_of` s → k s' = None) → Re.lazy p k s = None.
Proof.
  induction s as [|c t IH]; intros Hk; simpl.
  - by rewrite Hk.
  - rewrite Hk by done. destruct (p c); [|done].
    apply IH. intros s' Hs'. apply Hk. by apply suffix_cons_r.
Qed.

Lemma one_fails (p : ascii → bool) (k : str → option Re.outcome) (s : str) :
  (∀ s', s' `suffix_of` s → k s' = None) → Re.one p k s = None.
Proof.
  destruct s as [|c t]; intros Hk; simpl; [done|].
  destruct (p c); [|done]. apply Hk. apply suffix_cons_r. done.
Qed.

Lemma strip_prefix_suffix (l s s' : str) :
  Py.strip_prefix l s = Some s' → s' `suffix_of` s.
Proof. intros H. exists l. by apply strip_prefix_app. Qed.

Lemma run_fails (r : Re.re) (s : str) (caps : list str)
    (k : str → list str → option Re.outcome) :
  (∀ s' caps', s' `suffix_of` s → k s' caps' = None) →
  Re.run r s caps k = None.
Proof.
  revert s caps k.
  induction r as [l|p|p|p|p|p|r1 IH1 r2 IH2|r1 IH1 r2 IH2|r1 IH1|r1 IH1|];
    intros s caps k Hk; simpl.
  - destruct (Py.strip_prefix l s) as [s'|] eqn:E; [|done].
    apply Hk. by eapply strip_prefix_suffix.
  - apply one_fails. intros s' Hs'. by apply Hk.
  - apply greedy_fails. intros s' Hs'. by apply Hk.
  - apply one_fails. intros s' Hs'. apply greedy_fails.
    intros s'' Hs''. apply Hk. by etrans.
  - apply lazy_fails. intros s' Hs'. by apply Hk.
  - apply one_fails. intros s' Hs'. apply lazy_fails.
    intros s'' Hs''. apply Hk. by etrans.
  - apply IH1. intros s' caps' Hs'. apply IH2.
    intros s'' caps'' Hs''. apply Hk. by etrans.
  - rewrite IH1 by done. by apply IH2.
  - apply IH1. intros s' caps' Hs'. by apply Hk.
  - destruct (Re.run r1 s caps _); [|done]. by apply Hk.
  - destruct s as [|c [|c' t]]; [by apply Hk| |done].
    destruct (Ascii.eqb c nl); [by apply Hk|done].
Qed.

Lemma suffix_no_newline (s s' : str) : s' `suffix_of` s → nl ∉ s → nl ∉ s'.
Proof. intros [l ->] H Hin. apply H, elem_of_app. by right. Qed.

Lemma run_needs_newline (r : Re.re) (s : str) (caps : list str)
    (k : str → list str → option Re.outcome) :
  ends_in_newline r = true → nl ∉ s → Re.run r s caps k = None.
Proof.
  revert s caps k.
  induction r as [l| | | | | |r1 _ r2 IH2| | | |]; intros s caps k Hr Hs;
    simpl in Hr; try done.
  - apply bool_decide_eq_true_1 in Hr as ->.
    destruct s as [|c t]; cbn [Re.run Py.strip_prefix]; [done|].
    destruct (Ascii.eqb_spec nl c) as [<-|_]; [|done].
    exfalso. apply Hs, list_elem_of_here.
  - simpl. apply run_fails. intros s' caps' Hs'.
    apply IH2; [done|]. by eapply suffix_no_newline.
Qed.

Lemma finditer_needs_newline (r : Re.re) (s : str) :
  ends_in_newline r = true → nl ∉ s → Re.finditer r s = [].
Proof.
  intros Hr. unfold Re.finditer. induction s as [|c t IH]; intros Hs.
  - simpl. unfold Re.match_at. by rewrite run_needs_newline.
  - simpl. unfold Re.match_at. rewrite run_needs_newline by done.
    apply IH. intros Hin. apply Hs. by apply list_elem_of_further.
Qed.

(** A span without a newline yields no package name. *)
Lemma first_payload_needs_newline (pat : Re.re) (cmd : str) :
  ends_in_newline pat = true → nl ∉ cmd → first_payload pat cmd = [].
Proof.
  intros Hr Hs. unfold first_payload, Re.findall1.
  by rewrite finditer_needs_newline.
Qed.

(** Spans without a newline leave the package set empty. *)
Lemma collect_packages_needs_newline (pat : Re.re) (cmds : list str) :
  ends_in_newline pat = true →
  Forall (fun cmd => nl ∉ cmd) cmds →
  collect_packages pat cmds = ∅.
Proof.
  intros Hr Hc. apply set_eq. intros x.
  rewrite elem_of_collect_packages. split; [|by intros ?%elem_of_empty].
  intros (cmd & Hin & Hx). rewrite Forall_forall in Hc.
  rewrite first_payload_needs_newline in Hx by auto.
  by apply elem_of_nil in Hx.
Qed.

(** ** The merged install instruction under reordering *)

(** Two documents whose apt spans are the same up to order get the same
    merged apt instruction, character for character, and each pass output is
    that one instruction spliced into the cleaned text; the instruction lists
    exactly the collected package names, joined in strictly ascending
    lexicographic order. *)
Lemma apt_instruction_order_independent (d1 d2 : str) :
  Re.findall0 apt_pattern d1 ≡ₚ Re.findall0 apt_pattern d2 →
  let packages1 := collect_packages apt_pkg_pattern (Re.findall0 apt_pattern d1) in
  let packages2 := collect_packages apt_pkg_pattern (Re.findall0 apt_pattern d2) in
  apt_combined_command packages1 = apt_combined_command packages2
  ∧ (Re.findall0 apt_pattern d1 ≠ [] →
       optimize_apt_commands d1 =
         insert_after_from (apt_combined_command packages1)
           (cleaned (Re.findall0 apt_pattern d1) d1)
       ∧ optimize_apt_commands d2 =
           insert_after_from (apt_combined_command packages1)
             (cleaned (Re.findall0 apt_pattern d2) d2))
  ∧ StronglySorted Py.lt (Py.sorted packages1)
  ∧ (∀ x, x ∈ Py.sorted packages1 ↔ x ∈ packages1).
Proof.
  intros Hp packages1 packages2.
  assert (Heq : packages1 = packages2).
  { unfold packages1, packages2. by apply collect_packages_Permutation. }
  split_and!.
  - by rewrite Heq.
  - intros Hs. split; [by apply optimize_apt_commands_spans|].
    rewrite Heq. apply optimize_apt_commands_spans.
    intros E. rewrite E in Hp. by apply Permutation_nil_r in Hp.
  - apply sorted_ascending.
  - intros x. apply elem_of_sorted.
Qed.

Example apt_two_dockerfile_same_instruction :
  Re.findall0 apt_pattern Examples.apt_two_dockerfile
    ≡ₚ Re.findall0 apt_pattern Examples.apt_two_swapped_dockerfile
  ∧ apt_combined_command
      (collect_packages apt_pkg_pattern
         (Re.findall0 apt_pattern Examples.apt_two_dockerfile))
    = apt_combined_command
        (collect_packages apt_pkg_pattern
           (Re.findall0 apt_pattern Examples.apt_two_swapped_dockerfile))
  ∧ Py.sorted
      (collect_packages apt_pkg_pattern
         (Re.findall0 apt_pattern Examples.apt_two_dockerfile))
    = [ txt "curl"; txt "git" ].
Proof.
  assert (H : Re.findall0 apt_pattern Examples.apt_two_dockerfile
                ≡ₚ Re.findall0 apt_pattern Examples.apt_two_swapped_dockerfile)
    by (vm_compute; apply perm_swap).
  split_and!; [exact H| |vm_compute; reflexivity].
  exact (proj1 (apt_instruction_order_independent _ _ H)).
Qed.

(** C4 does not hold of the code: the two documents below differ only in the
    order of their two apt install lines, [git] and [curl], one of which is
    followed by a blank line and the other by the CMD line.  In both the
    scanner matches two spans, but only the span that takes in a newline
    yields a package name, so the merged instruction of the first document
    lists [git] alone and that of the second lists [curl] alone: the two
    canonical instructions differ. *)
Theorem C4_reordering_changes_instruction :
  Examples.apt_mixed_dockerfile
  = Py.join [nl]
      [ txt "FROM ubuntu:latest";
        txt "RUN apt-get update && apt-get install -y git"; [];
        txt "RUN apt-get update && apt-get install -y curl";
        txt "CMD sh"; [] ]
  ∧ Examples.apt_mixed_swapped_dockerfile
    = Py.join [nl]
        [ txt "FROM ubuntu:latest";
          txt "RUN apt-get update && apt-get install -y curl"; [];
          txt "RUN apt-get update && apt-get install -y git";
          txt "CMD sh"; [] ]
  ∧ Re.findall0 apt_pattern Examples.apt_mixed_dockerfile
    = [ txt "RUN apt-get update && apt-get install -y git" ++ [nl];
        txt "RUN apt-get update && apt-get install -y curl" ]
  ∧ Re.findall0 apt_pattern Examples.apt_mixed_swapped_dockerfile
    = [ txt "RUN apt-get update && apt-get install -y curl" ++ [nl];
        txt "RUN apt-get update && apt-get install -y git" ]
  ∧ optimize_apt_commands Examples.apt_mixed_dockerfile
    = txt "FROM ubuntu:latest" ++ [nl]
      ++ apt_combined_command {[ txt "git" ]} ++ [nl; nl]
      ++ txt "CMD sh" ++ [nl]
  ∧ optimize_apt_commands Examples.apt_mixed_swapped_dockerfile
    = txt "FROM ubuntu:latest" ++ [nl]
      ++ apt_combined_command {[ txt "curl" ]} ++ [nl; nl]
      ++ txt "CMD sh" ++ [nl]
  ∧ apt_combined_command {[ txt "git" ]}
    ≠ apt_combined_command {[ txt "curl" ]}
  ∧ rewrite_text Examples.apt_mixed_dockerfile
    ≠ rewrite_text Examples.apt_mixed_swapped_dockerfile.
Proof.
  split_and!; [vm_compute; reflexivity..| |].
  - intros H. apply (f_equal length) in H. vm_compute in H. discriminate H.
  - intros H. apply (f_equal length) in H. vm_compute in H. discriminate H.
Qed.

(** ** Occurrence of a text inside another *)

Lemma occurs_here (x a b : str) : occurs x (a ++ x ++ b).
Proof. by exists a, b. Qed.

Lemma occurs_app_r (x a s : str) : occurs x s → occurs x (a ++ s).
Proof. intros (u & v & ->). exists (a ++ u), v. by rewrite <- app_assoc. Qed.

Lemma occurs_app_l (x s b : str) : occurs x s → occurs x (s ++ b).
Proof. intros (u & v & ->). exists u, (v ++ b). by rewrite <- !app_assoc. Qed.

Lemma occurs_refl (x : str) : occurs x x.
Proof. exists [], []. by rewrite app_nil_r. Qed.

Lemma occurs_trans (x y z : str) : occurs x y → occurs y z → occurs x z.
Proof.
  intros (a & b & ->) (u & v & ->).
  exists (u ++ a), (b ++ v). by rewrite <- !app_assoc.
Qed.

Lemma occurs_join (sep x : str) (l : list str) :
  x ∈ l → occurs x (Py.join sep l).
Proof.
  induction l as [|p [|q rest] IH]; intros Hx.
  - by apply elem_of_nil in Hx.
  - apply list_elem_of_singleton in Hx as ->. apply occurs_refl.
  - apply elem_of_cons in Hx as [->|Hx].
    + change (occurs p (p ++ sep ++ Py.join sep (q :: rest))).
      apply occurs_app_l, occurs_refl.
    + change (occurs x (p ++ sep ++ Py.join sep (q :: rest))).
      by apply occurs_app_r, occurs_app_r, IH.
Qed.

(** ** Where the merged instruction goes *)

Lemma insert_after_from_occurs (combined content : str) :
  occurs combined (insert_after_from combined content).
Proof.
  unfold insert_after_from. apply occurs_app_r, occurs_app_r, occurs_app_l,
    occurs_refl.
Qed.

Lemma index_of_char (c : ascii) (l r : str) :
  c ∉ l → Py.index_of [c] (l ++ c :: r) = Some (length l).
Proof.
  induction l as [|a l IH]; intros Hc.
  - simpl. unfold Py.startswith. simpl. by rewrite Ascii.eqb_refl.
  - apply not_elem_of_cons in Hc as [Hca Hcl].
    simpl. unfold Py.startswith. simpl.
    destruct (Ascii.eqb_spec c a) as [->|_]; [done|].
    rewrite IH by done. reflexivity.
Qed.

Lemma insert_after_from_line (combined content pre line rest : str) :
  content = pre ++ txt "FROM" ++ line ++ nl :: rest →
  Py.find content (txt "FROM") 0 = Z.of_nat (length pre) →
  nl ∉ line →
  insert_after_from combined content =
    pre ++ txt "FROM" ++ line ++ [nl] ++ combined ++ nl :: rest.
Proof.
  intros Hc Hf Hl.
  assert (Hidx : from_idx content
                 = Z.of_nat (length (pre ++ txt "FROM" ++ line))).
  { unfold from_idx. rewrite Hf. unfold Py.find.
    assert (Hn : (Z.of_nat (length pre) <? 0)%Z = false)
      by (apply Z.ltb_ge; lia).
    rewrite Hn.
    assert (Hm : (Z.of_nat (length content) <? Z.of_nat (length pre))%Z
                 = false).
    { apply Z.ltb_ge. rewrite Hc, length_app. lia. }
    rewrite Hm, Nat2Z.id.
    assert (Hs : skipn (length pre) content
                 = (txt "FROM" ++ line) ++ nl :: rest).
    { rewrite Hc. rewrite drop_app_length. by rewrite <- app_assoc. }
    rewrite Hs, index_of_char.
    - rewrite !length_app. lia.
    - intros Hin. apply elem_of_app in Hin as [Hin|Hin]; [|done].
      assert (Hnf : nl ∉ txt "FROM")
        by (apply (bool_decide_unpack _); vm_compute; exact I).
      by apply Hnf. }
  assert (Hb : Py.slice_bound content (from_idx content)
               = length (pre ++ txt "FROM" ++ line)).
  { unfold Py.slice_bound. rewrite Hidx.
    assert (Hn : (Z.of_nat (length (pre ++ txt "FROM" ++ line)) <? 0)%Z
                 = false) by (apply Z.ltb_ge; lia).
    rewrite Hn, Hc. rewrite !length_app. simpl. lia. }
  unfold insert_after_from, Py.upto, Py.from. rewrite Hb.
  assert (Hc' : content = (pre ++ txt "FROM" ++ line) ++ nl :: rest).
  { rewrite Hc. by rewrite <- !app_assoc. }
  rewrite Hc'. rewrite take_app_length, drop_app_length.
  by rewrite <- !app_assoc.
Qed.

(** C6, as the code has it by design.  Take the text left after removing the
    apt spans, and let its first base-image declaration, a line that starts
    with FROM and ends in a line break, be the first place where the text
    FROM occurs at all.  The apt pass puts the merged instruction on the
    line right after that line, and so does the pip pass with its
    instruction.  The build-argument block is not put there but at the very
    start of the document. *)
Theorem C6_anchor_placement (d pre line rest : str) :
  (Re.findall0 apt_pattern d ≠ [] →
   cleaned (Re.findall0 apt_pattern d) d
     = pre ++ txt "FROM" ++ line ++ nl :: rest →
   starts_line pre →
   Py.find (cleaned (Re.findall0 apt_pattern d) d) (txt "FROM") 0
     = Z.of_nat (length pre) →
   nl ∉ line →
   optimize_apt_commands d =
     pre ++ txt "FROM" ++ line ++ [nl]
     ++ apt_combined_command
          (collect_packages apt_pkg_pattern (Re.findall0 apt_pattern d))
     ++ nl :: rest)
  ∧ (Re.findall0 pip_pattern d ≠ [] →
     cleaned (Re.findall0 pip_pattern d) d
       = pre ++ txt "FROM" ++ line ++ nl :: rest →
     starts_line pre →
     Py.find (cleaned (Re.findall0 pip_pattern d) d) (txt "FROM") 0
       = Z.of_nat (length pre) →
     nl ∉ line →
     ∀ w, (optimize_pip_commands d w).1 =
            Ok (pre ++ txt "FROM" ++ line ++ [nl] ++ pip_combined_command
                ++ nl :: rest))
  ∧ add_build_optimization_args d = build_args ++ d.
Proof.
  split_and!.
  - intros Hs Hc _ Hf Hl. rewrite optimize_apt_commands_spans by done.
    by apply insert_after_from_line.
  - intros Hs Hc _ Hf Hl w. rewrite optimize_pip_commands_run. cbn [fst].
    rewrite pip_text_spans by done. f_equal.
    by apply insert_after_from_line.
  - reflexivity.
Qed.

Lemma C6_anchor_placement_witness :
  optimize_apt_commands Examples.apt_dockerfile =
    [] ++ txt "FROM" ++ txt " ubuntu:latest" ++ [nl]
    ++ apt_combined_command
         (collect_packages apt_pkg_pattern
            (Re.findall0 apt_pattern Examples.apt_dockerfile))
    ++ nl :: nl :: txt "CMD sh" ++ [nl]
  ∧ (optimize_pip_commands Examples.pip_dockerfile Examples.empty_world).1 =
      Ok ([] ++ txt "FROM" ++ txt " python:3.12" ++ [nl]
          ++ pip_combined_command ++ nl :: nl :: txt "CMD app" ++ [nl]).
Proof.
  split.
  - apply (C6_anchor_placement Examples.apt_dockerfile []
             (txt " ubuntu:latest") (nl :: txt "CMD sh" ++ [nl])).
    + vm_compute. discriminate.
    + vm_compute. reflexivity.
    + by left.
    + vm_compute. reflexivity.
    + apply (bool_decide_unpack _). vm_compute. exact I.
  - apply (C6_anchor_placement Examples.pip_dockerfile []
             (txt " python:3.12") (nl :: txt "CMD app" ++ [nl])).
    + vm_compute. discriminate.
    + vm_compute. reflexivity.
    + by left.
    + vm_compute. reflexivity.
    + apply (bool_decide_unpack _). vm_compute. exact I.
Defined.

(** C6 as stated fails, twice.  By design, for the build arguments: in the
    rewritten text of a document that starts with its FROM line, both ARG
    lines stand before the FROM line, not after it.  By a defect, for the
    merged instruction: the anchor is the first place where the text FROM
    occurs, so in a document whose first line is a comment that holds the
    word FROM the instruction is put after the comment, in front of the
    base-image declaration. *)
Lemma C6_counterexample :
  rewrite Examples.plain_dockerfile Examples.empty_world
  = (Ok (build_args ++ Examples.plain_dockerfile, dockerignore_entries),
     Examples.empty_world)
  ∧ Py.find Examples.plain_dockerfile (txt "FROM") 0 = 0%Z
  ∧ Py.find (build_args ++ Examples.plain_dockerfile)
      (txt "ARG BUILDKIT_INLINE_CACHE=1") 0 = 35%Z
  ∧ Py.find (build_args ++ Examples.plain_dockerfile)
      (txt "ARG DOCKER_BUILDKIT=1") 0 = 63%Z
  ∧ Py.find (build_args ++ Examples.plain_dockerfile) (txt "FROM") 0 = 85%Z
  ∧ optimize_apt_commands Examples.commented_dockerfile
    = txt "# Build FROM source" ++ [nl]
      ++ apt_combined_command {[ txt "git" ]} ++ [nl]
      ++ txt "FROM ubuntu:latest" ++ [nl; nl] ++ txt "CMD sh" ++ [nl].
Proof. split_and!; vm_compute; reflexivity. Qed.

(** ** A missing base image *)

(** C2, as the code has it: on a document with an apt or pip span and no
    FROM the pipeline raises nothing and returns a rewritten text; when an
    apt span is found the apt pass has spliced the merged instruction into
    its output, and when a pip span is found the pip pass has spliced its
    instruction into its output. *)
Theorem C2_missing_from_is_not_signalled (d : str) (w : world) :
  Re.findall0 apt_pattern d ≠ [] ∨ Re.findall0 pip_pattern d ≠ [] →
  Py.find d (txt "FROM") 0 = (-1)%Z →
  (rewrite d w).1 = Ok (rewrite_text d, dockerignore_entries)
  ∧ (Re.findall0 apt_pattern d ≠ [] →
       occurs
         (apt_combined_command
            (collect_packages apt_pkg_pattern (Re.findall0 apt_pattern d)))
         (optimize_apt_commands d))
  ∧ (Re.findall0 pip_pattern d ≠ [] →
       (optimize_pip_commands d w).1 = Ok (pip_text d)
       ∧ occurs pip_combined_command (pip_text d)).
Proof.
  intros _ _. split_and!.
  - by rewrite rewrite_run.
  - intros Hs. rewrite optimize_apt_commands_spans by done.
    apply insert_after_from_occurs.
  - intros Hs. split; [by rewrite optimize_pip_commands_run|].
    rewrite pip_text_spans by done. apply insert_after_from_occurs.
Qed.

Lemma C2_missing_from_is_not_signalled_witness :
  Re.findall0 apt_pattern Examples.no_from_dockerfile ≠ []
  ∧ Py.find Examples.no_from_dockerfile (txt "FROM") 0 = (-1)%Z
  ∧ (rewrite Examples.no_from_dockerfile Examples.empty_world).1
    = Ok (rewrite_text Examples.no_from_dockerfile, dockerignore_entries)
  ∧ occurs
      (apt_combined_command
         (collect_packages apt_pkg_pattern
            (Re.findall0 apt_pattern Examples.no_from_dockerfile)))
      (optimize_apt_commands Examples.no_from_dockerfile)
  ∧ Re.findall0 pip_pattern Examples.no_from_pip_dockerfile ≠ []
  ∧ Py.find Examples.no_from_pip_dockerfile (txt "FROM") 0 = (-1)%Z
  ∧ occurs pip_combined_command (pip_text Examples.no_from_pip_dockerfile).
Proof.
  assert (H1 : Re.findall0 apt_pattern Examples.no_from_dockerfile ≠ [])
    by (vm_compute; discriminate).
  assert (H2 : Py.find Examples.no_from_dockerfile (txt "FROM") 0 = (-1)%Z)
    by (vm_compute; reflexivity).
  assert (H3 : Re.findall0 pip_pattern Examples.no_from_pip_dockerfile ≠ [])
    by (vm_compute; discriminate).
  assert (H4 : Py.find Examples.no_from_pip_dockerfile (txt "FROM") 0
               = (-1)%Z) by (vm_compute; reflexivity).
  destruct (C2_missing_from_is_not_signalled Examples.no_from_dockerfile
              Examples.empty_world (or_introl H1) H2) as (Ha & Hb & _).
  destruct (C2_missing_from_is_not_signalled Examples.no_from_pip_dockerfile
              Examples.empty_world (or_intror H3) H4) as (_ & _ & Hc).
  exact (conj H1 (conj H2 (conj Ha (conj (Hb H1)
           (conj H3 (conj H4 (proj2 (Hc H3)))))))).
Defined.

(** C2 as stated fails: a document with an apt span and no FROM is rewritten
    and returned, with the merged instruction at its end; nothing is raised. *)
Lemma C2_counterexample :
  Re.findall0 apt_pattern Examples.no_from_dockerfile
  = [ txt "RUN apt-get update && apt-get install -y curl" ++ [nl] ]
  ∧ Py.find Examples.no_from_dockerfile (txt "FROM") 0 = (-1)%Z
  ∧ rewrite Examples.no_from_dockerfile Examples.empty_world
    = (Ok (build_args ++ [nl] ++ txt "CMD sh" ++ [nl]
           ++ apt_combined_command {[ txt "curl" ]} ++ [nl],
           dockerignore_entries),
       Examples.empty_world).
Proof. split_and!; vm_compute; reflexivity. Qed.

(** ** Absence, as [find] reports it *)

Lemma occurs_index_of (x s : str) : occurs x s → is_Some (Py.index_of x s).
Proof.
  intros (a & b & ->). induction a as [|c a IH].
  - destruct (x ++ b) eqn:E; simpl; rewrite <- E, startswith_app; by eexists.
  - simpl. destruct (Py.startswith (c :: a ++ x ++ b) x); [by eexists|].
    destruct IH as [i ->]. by eexists.
Qed.

Lemma find_absent (s x : str) : Py.find s x 0 = (-1)%Z → ¬ occurs x s.
Proof.
  unfold Py.find. simpl.
  assert (Hn : (Z.of_nat (length s) <? 0)%Z = false) by (apply Z.ltb_ge; lia).
  rewrite Hn. change (drop (Z.to_nat 0) s) with s.
  intros H Ho. apply occurs_index_of in Ho as [i Hi].
  rewrite Hi in H. lia.
Qed.

Lemma index_of_occurs (x s : str) (i : nat) :
  Py.index_of x s = Some i → occurs x s.
Proof.
  revert i. induction s as [|c s IH]; intros i; simpl.
  - unfold Py.startswith.
    destruct (Py.strip_prefix x []) as [r|] eqn:E; [|done].
    intros _. apply strip_prefix_app in E. rewrite E. apply (occurs_here x []).
  - unfold Py.startswith.
    destruct (Py.strip_prefix x (c :: s)) as [r|] eqn:E.
    + intros _. apply strip_prefix_app in E. rewrite E.
      apply (occurs_here x []).
    + destruct (Py.index_of x s) as [j|]; [|done].
      intros _. apply (occurs_app_r x [c]). by apply (IH j).
Qed.

Lemma find_present (s x : str) : Py.find s x 0 ≠ (-1)%Z → occurs x s.
Proof.
  unfold Py.find. simpl.
  assert (Hn : (Z.of_nat (length s) <? 0)%Z = false) by (apply Z.ltb_ge; lia).
  rewrite Hn. change (drop (Z.to_nat 0) s) with s.
  destruct (Py.index_of x s) as [i|] eqn:E; [|done].
  intros _. by apply (index_of_occurs x s i).
Qed.

(** ** Grouping keeps every pair *)

Lemma group_add_new (dest src : str) (groups : list (str * list str)) :
  ∃ sources, (dest, sources) ∈ group_add dest src groups ∧ src ∈ sources.
Proof.
  induction groups as [|[d ss] groups IH]; simpl.
  - exists [src]. split; apply list_elem_of_here.
  - case_decide as Hd.
    + subst d. exists (ss ++ [src]). split; [apply list_elem_of_here|].
      apply elem_of_app. right. apply list_elem_of_here.
    + destruct IH as (sources & H1 & H2). exists sources.
      split; [by apply list_elem_of_further|done].
Qed.

Lemma group_add_keeps (dest src d s : str) (ss : list str)
    (groups : list (str * list str)) :
  (d, ss) ∈ groups → s ∈ ss →
  ∃ sources, (d, sources) ∈ group_add dest src groups ∧ s ∈ sources.
Proof.
  intros Hg Hs. induction groups as [|[d' ss'] groups IH]; simpl.
  - by apply elem_of_nil in Hg.
  - apply elem_of_cons in Hg as [Hg|Hg].
    + injection Hg as <- <-. case_decide as Hd.
      * exists (ss ++ [src]). split; [apply list_elem_of_here|].
        apply elem_of_app. by left.
      * exists ss. split; [apply list_elem_of_here|done].
    + case_decide as Hd.
      * exists ss. split; [by apply list_elem_of_further|done].
      * destruct (IH Hg) as (sources & H1 & H2). exists sources.
        split; [by apply list_elem_of_further|done].
Qed.

Lemma foldl_group_add_keeps (cmds : list (str * str)) (d s : str)
    (ss : list str) (groups : list (str * list str)) :
  (d, ss) ∈ groups → s ∈ ss →
  ∃ sources,
    (d, sources) ∈ foldl (fun groups '(src, dest) => group_add dest src groups)
                     groups cmds
    ∧ s ∈ sources.
Proof.
  revert ss groups. induction cmds as [|[src dest] cmds IH];
    intros ss groups Hg Hs; simpl.
  - by exists ss.
  - destruct (group_add_keeps dest src d s ss groups Hg Hs)
      as (ss' & Hg' & Hs').
    by apply (IH ss').
Qed.

Lemma foldl_group_add_member (cmds : list (str * str)) (src dest : str)
    (groups : list (str * list str)) :
  (src, dest) ∈ cmds →
  ∃ sources,
    (dest, sources) ∈ foldl (fun groups '(src, dest) => group_add dest src groups)
                        groups cmds
    ∧ src ∈ sources.
Proof.
  revert groups. induction cmds as [|[s' d'] cmds IH]; intros groups Hin.
  - by apply elem_of_nil in Hin.
  - apply elem_of_cons in Hin as [Hin|Hin]; simpl.
    + injection Hin as <- <-.
      destruct (group_add_new dest src groups) as (ss & Hg & Hs).
      by apply (foldl_group_add_keeps cmds dest src ss).
    + by apply IH.
Qed.

Lemma copy_groups_member (cmds : list (str * str)) (src dest : str) :
  (src, dest) ∈ cmds →
  ∃ sources, (dest, sources) ∈ copy_groups cmds ∧ src ∈ sources.
Proof. apply foldl_group_add_member. Qed.

Lemma optimized_copy_shape (dest : str) (sources : list str) :
  ∃ sep, (sep = [] ∨ sep = txt "/")
    ∧ optimized_copy (dest, sources) =
        txt "COPY " ++ Py.join (txt " ") sources ++ txt " " ++ dest ++ sep.
Proof.
  unfold optimized_copy. destruct sources as [|s [|s' sources]].
  - exists (txt "/"). split; [by right|done].
  - exists []. split; [by left|]. cbn [snd fst Py.join]. by rewrite app_nil_r.
  - exists (txt "/"). split; [by right|done].
Qed.

Lemma optimize_copy_commands_occurs (d instr : str) :
  instr ∈ optimized_copy <$> copy_groups (Re.findall2 copy_pattern d) →
  occurs instr (optimize_copy_commands d).1.
Proof.
  unfold optimize_copy_commands.
  destruct (Re.findall2 copy_pattern d) as [|c cmds] eqn:E.
  - intros H. by apply elem_of_nil in H.
  - intros H. cbn [fst]. apply occurs_app_r, occurs_app_l.
    by apply occurs_join.
Qed.

Lemma apt_combined_command_occurs (packages : gset str) (pkg : str) :
  pkg ∈ packages → occurs pkg (apt_combined_command packages).
Proof.
  intros H. unfold apt_combined_command.
  do 7 apply occurs_app_r. apply occurs_app_l.
  apply occurs_join. by apply elem_of_sorted.
Qed.

(** ** Conservation of what the extractors return *)

(** Every package name the extractor returns for a matched apt span occurs
    in the text the apt pass returns; every package name it returns for a
    matched pip span occurs in the [requirements.txt] the pip pass writes;
    every (source, destination) pair the copy scanner matches occurs in a
    COPY instruction of the text the copy pass returns, the source among the
    listed sources and the destination last, and for the text that reaches
    the copy pass that instruction is in the text the pipeline returns. *)
Lemma extracted_payloads_are_kept (d : str) (w : world) :
  (∀ cmd pkg : str,
      cmd ∈ Re.findall0 apt_pattern d →
      pkg ∈ first_payload apt_pkg_pattern cmd →
      occurs pkg (optimize_apt_commands d))
  ∧ (∀ cmd pkg : str,
      cmd ∈ Re.findall0 pip_pattern d →
      pkg ∈ first_payload pip_pkg_pattern cmd →
      ∃ content,
        files (optimize_pip_commands d w).2 !! requirements_path w
          = Some content
        ∧ occurs pkg content)
  ∧ (∀ src dest : str,
      (src, dest) ∈ Re.findall2 copy_pattern d →
      ∃ (sources : list str) (sep : str),
        src ∈ sources ∧ (sep = [] ∨ sep = txt "/")
        ∧ occurs
            (txt "COPY " ++ Py.join (txt " ") sources ++ txt " " ++ dest ++ sep)
            (optimize_copy_commands d).1)
  ∧ (∀ src dest : str,
      (src, dest)
        ∈ Re.findall2 copy_pattern (pip_text (optimize_apt_commands d)) →
      ∃ (sources : list str) (sep : str),
        src ∈ sources ∧ (sep = [] ∨ sep = txt "/")
        ∧ occurs
            (txt "COPY " ++ Py.join (txt " ") sources ++ txt " " ++ dest ++ sep)
            (rewrite_text d)
        ∧ (rewrite d w).1 = Ok (rewrite_text d, dockerignore_entries)).
Proof.
  assert (Hcopy : ∀ (c src dest : str),
            (src, dest) ∈ Re.findall2 copy_pattern c →
            ∃ (sources : list str) (sep : str),
              src ∈ sources ∧ (sep = [] ∨ sep = txt "/")
              ∧ occurs
                  (txt "COPY " ++ Py.join (txt " ") sources ++ txt " "
                   ++ dest ++ sep)
                  (optimize_copy_commands c).1).
  { intros c src dest Hin.
    destruct (copy_groups_member _ _ _ Hin) as (sources & Hg & Hs).
    destruct (optimized_copy_shape dest sources) as (sep & Hsep & Hshape).
    exists sources, sep. split_and!; [done|done|].
    rewrite <- Hshape. apply optimize_copy_commands_occurs.
    apply list_elem_of_fmap. by exists (dest, sources). }
  split_and!.
  - intros cmd pkg Hcmd Hpkg.
    assert (Hs : Re.findall0 apt_pattern d ≠ []).
    { intros E. rewrite E in Hcmd. by apply elem_of_nil in Hcmd. }
    rewrite optimize_apt_commands_spans by done.
    eapply occurs_trans; [|apply insert_after_from_occurs].
    apply apt_combined_command_occurs, elem_of_collect_packages.
    by exists cmd.
  - intros cmd pkg Hcmd Hpkg.
    rewrite optimize_pip_commands_run. cbn [snd]. unfold pip_world.
    destruct (Re.findall0 pip_pattern d) as [|c cs] eqn:E;
      [by apply elem_of_nil in Hcmd|].
    eexists. split; [apply lookup_insert_eq|].
    apply occurs_join, elem_of_sorted, elem_of_collect_packages.
    by exists cmd.
  - intros src dest. apply Hcopy.
  - intros src dest Hin.
    destruct (Hcopy _ _ _ Hin) as (sources & sep & Hs & Hsep & Ho).
    exists sources, sep. split_and!; [done|done| |by rewrite rewrite_run].
    unfold rewrite_text, add_build_optimization_args.
    by apply occurs_app_r.
Qed.

(** ** Scanning past the build-argument block *)

Lemma finditer_from_nomatch (r : Re.re) (c : ascii) (s : str) :
  Re.match_at r (c :: s) = None →
  Re.finditer_from r 0 (c :: s) = Re.finditer_from r 0 s.
Proof. intros H. simpl. by rewrite H. Qed.

(** Steps a scan over the characters of [build_args], none of which starts a
    match. *)
Ltac scan_build_args :=
  unfold Re.finditer;
  let b := eval vm_compute in build_args in
  change build_args with b;
  cbn [app];
  repeat (rewrite finditer_from_nomatch by reflexivity);
  reflexivity.

Lemma finditer_apt_build_args (d : str) :
  Re.finditer apt_pattern (build_args ++ d) = Re.finditer apt_pattern d.
Proof. scan_build_args. Qed.

Lemma finditer_pip_build_args (d : str) :
  Re.finditer pip_pattern (build_args ++ d) = Re.finditer pip_pattern d.
Proof. scan_build_args. Qed.

Lemma finditer_copy_build_args (d : str) :
  Re.finditer copy_pattern (build_args ++ d) = Re.finditer copy_pattern d.
Proof. scan_build_args. Qed.

Lemma rewrite_text_no_spans (d : str) :
  Re.findall0 apt_pattern d = [] →
  Re.findall0 pip_pattern d = [] →
  Re.findall2 copy_pattern d = [] →
  rewrite_text d = build_args ++ d.
Proof.
  intros Ha Hp Hc.
  unfold rewrite_text, optimize_apt_commands. rewrite Ha.
  unfold pip_text. rewrite Hp.
  unfold optimize_copy_commands. by rewrite Hc.
Qed.

(** ** Running the pipeline twice *)

(** C1, as the code has it: the text the pipeline returns always starts with
    the build-argument block; on a document with no apt span, no pip span and
    no copy instruction the span passes change nothing, so the pipeline
    returns the block followed by the document, and run on that output it
    returns the block twice followed by the document, which is a different
    text: the second run repeats the build-argument instructions. *)
Theorem C1_second_run_prepends_again (d : str) (w : world) :
  Re.findall0 apt_pattern d = [] →
  Re.findall0 pip_pattern d = [] →
  Re.findall2 copy_pattern d = [] →
  rewrite d w = (Ok (build_args ++ d, dockerignore_entries), w)
  ∧ rewrite (build_args ++ d) w
    = (Ok (build_args ++ build_args ++ d, dockerignore_entries), w)
  ∧ build_args ++ build_args ++ d ≠ build_args ++ d
  ∧ (∀ d' : str, take 85 (rewrite_text d') = build_args).
Proof.
  intros Ha Hp Hc.
  assert (Ha' : Re.findall0 apt_pattern (build_args ++ d) = []).
  { unfold Re.findall0 in *. by rewrite finditer_apt_build_args. }
  assert (Hp' : Re.findall0 pip_pattern (build_args ++ d) = []).
  { unfold Re.findall0 in *. by rewrite finditer_pip_build_args. }
  assert (Hc' : Re.findall2 copy_pattern (build_args ++ d) = []).
  { unfold Re.findall2 in *. by rewrite finditer_copy_build_args. }
  split_and!.
  - rewrite rewrite_run, rewrite_text_no_spans by done.
    unfold pip_world, optimize_apt_commands. by rewrite Ha, Hp.
  - rewrite rewrite_run, rewrite_text_no_spans by done.
    unfold pip_world, optimize_apt_commands. by rewrite Ha', Hp'.
  - intros H. apply (f_equal length) in H. rewrite !length_app in H.
    assert (Hlen : length build_args = 85) by reflexivity. lia.
  - intros d'. unfold rewrite_text, add_build_optimization_args.
    change 85 with (length build_args). apply take_app_length.
Qed.

Lemma C1_second_run_prepends_again_witness :
  rewrite Examples.plain_dockerfile Examples.empty_world
  = (Ok (build_args ++ Examples.plain_dockerfile, dockerignore_entries),
     Examples.empty_world)
  ∧ rewrite (build_args ++ Examples.plain_dockerfile) Examples.empty_world
    = (Ok (build_args ++ build_args ++ Examples.plain_dockerfile,
           dockerignore_entries),
       Examples.empty_world)
  ∧ build_args ++ build_args ++ Examples.plain_dockerfile
    ≠ build_args ++ Examples.plain_dockerfile.
Proof.
  destruct (C1_second_run_prepends_again Examples.plain_dockerfile
              Examples.empty_world)
    as (H1 & H2 & H3 & _); [vm_compute; reflexivity..|].
  exact (conj H1 (conj H2 H3)).
Defined.

(** C1 as stated fails: for a document with only a FROM and an EXPOSE line
    the pipeline returns the build-argument block followed by the document,
    and run on that text it returns the block twice followed by the document;
    for the example Dockerfile the first text starts with the block and the
    FROM line and the second with the block twice. *)
Lemma C1_counterexample :
  rewrite_text Examples.plain_dockerfile
  = build_args ++ Examples.plain_dockerfile
  ∧ rewrite_text (rewrite_text Examples.plain_dockerfile)
    = build_args ++ build_args ++ Examples.plain_dockerfile
  ∧ rewrite_text (rewrite_text Examples.plain_dockerfile)
    ≠ rewrite_text Examples.plain_dockerfile
  ∧ (rewrite Examples.example_dockerfile Examples.empty_world).1
    = Ok (rewrite_text Examples.example_dockerfile, dockerignore_entries)
  ∧ (rewrite (rewrite_text Examples.example_dockerfile)
       (rewrite Examples.example_dockerfile Examples.empty_world).2).1
    = Ok (rewrite_text (rewrite_text Examples.example_dockerfile),
          dockerignore_entries)
  ∧ take 89 (rewrite_text Examples.example_dockerfile)
    = build_args ++ txt "FROM"
  ∧ take 170 (rewrite_text (rewrite_text Examples.example_dockerfile))
    = build_args ++ build_args
  ∧ rewrite_text (rewrite_text Examples.example_dockerfile)
    ≠ rewrite_text Examples.example_dockerfile.
Proof.
  split_and!.
  - vm_compute. reflexivity.
  - vm_compute. reflexivity.
  - intros H. apply (f_equal length) in H. vm_compute in H. discriminate H.
  - by rewrite rewrite_run.
  - by rewrite rewrite_run.
  - vm_compute. reflexivity.
  - vm_compute. reflexivity.
  - intros H. apply (f_equal length) in H. vm_compute in H. discriminate H.
Qed.

(** ** The example of [main] *)

Lemma example_rewrite_text :
  rewrite_text Examples.example_dockerfile
  = build_args
    ++ txt "FROM ubuntu:latest" ++ [nl]
    ++ [nl]
    ++ txt "RUN pip install --no-cache-dir -r /tmp/requirements.txt && \"
    ++ [nl]
    ++ txt "    rm /tmp/requirements.txt" ++ [nl]
    ++ apt_combined_command
         (collect_packages apt_pkg_pattern
            (Re.findall0 apt_pattern Examples.example_dockerfile))
    ++ [nl; nl; nl]
    ++ txt "RUN chmod +x /app/app.py" ++ [nl]
    ++ txt "EXPOSE 8080" ++ [nl]
    ++ txt "COPY requirements.txt /tmp/" ++ [nl]
    ++ txt "COPY app.py /app/" ++ [nl]
    ++ txt "CMD [" ++ [dquote] ++ txt "/app/app.py" ++ [dquote] ++ txt "]".
Proof. vm_compute. reflexivity. Qed.

(** C7 does not hold of the code.  On the Dockerfile that [main] writes, the
    scanners match the two apt install lines and the two pip install lines,
    and the passes take all four out of the text; but none of the four spans
    takes in its line break, so the extractors find no name in them.  The
    merged apt instruction the pipeline returns lists no package at all,
    [requirements.txt] is written empty, and none of [flask], [nginx],
    [python3] and [requests] is left anywhere in the text: the packages of
    the example are lost.  The copy instruction and the build-argument
    block are as the claim says. *)
Theorem C7_example_loses_packages :
  Re.findall0 apt_pattern Examples.example_dockerfile
  = [ txt "RUN apt-get update && apt-get install -y python3";
      txt "RUN apt-get update && apt-get install -y nginx" ]
  ∧ Re.findall0 pip_pattern (optimize_apt_commands Examples.example_dockerfile)
    = [ txt "RUN pip3 install flask"; txt "RUN pip3 install requests" ]
  ∧ rewrite Examples.example_dockerfile Examples.empty_world
    = (Ok (Py.join [nl]
             [ txt "# Build arguments for optimization";
               txt "ARG BUILDKIT_INLINE_CACHE=1";
               txt "ARG DOCKER_BUILDKIT=1";
               txt "FROM ubuntu:latest";
               [];
               txt "RUN pip install --no-cache-dir -r /tmp/requirements.txt && \";
               txt "    rm /tmp/requirements.txt";
               txt "RUN apt-get update && \";
               txt "    DEBIAN_FRONTEND=noninteractive \";
               txt "    apt-get install -y --no-install-recommends \";
               txt "         \";
               txt "    && apt-get clean \";
               txt "    && rm -rf /var/lib/apt/lists/*";
               [];
               [];
               txt "RUN chmod +x /app/app.py";
               txt "EXPOSE 8080";
               txt "COPY requirements.txt /tmp/";
               txt "COPY app.py /app/";
               txt "CMD [" ++ [dquote] ++ txt "/app/app.py" ++ [dquote]
                 ++ txt "]" ],
           dockerignore_entries),
       World {[ Examples.home ++ ["requirements.txt"%string] := [] ]}
         ∅ Examples.home)
  ∧ Forall
      (fun name => ¬ occurs name (rewrite_text Examples.example_dockerfile))
      [ txt "flask"; txt "nginx"; txt "python3"; txt "requests" ]
  ∧ count (rewrite_text Examples.example_dockerfile) (txt "COPY app.py /app/")
    = 1.
Proof.
  split_and!.
  - vm_compute. reflexivity.
  - vm_compute. reflexivity.
  - vm_compute. reflexivity.
  - repeat constructor; apply find_absent; vm_compute; reflexivity.
  - vm_compute. reflexivity.
Qed.

(** * Further properties of the code *)

(** ** What a successful match consumes *)

Lemma greedy_succeeds (p : ascii → bool) (k : str → option Re.outcome)
    (s : str) (o : Re.outcome) :
  Re.greedy p k s = Some o → ∃ s', s' `suffix_of` s ∧ k s' = Some o.
Proof.
  induction s as [|c t IH]; simpl.
  - intros H. by exists [].
  - destruct (p c).
    + destruct (Re.greedy p k t) as [o'|] eqn:E.
      * intros [= <-]. destruct (IH eq_refl) as (s' & Hs & Hk).
        exists s'. split; [by apply suffix_cons_r|done].
      * intros H. by exists (c :: t).
    + intros H. by exists (c :: t).
Qed.

Lemma lazy_succeeds (p : ascii → bool) (k : str → option Re.outcome)
    (s : str) (o : Re.outcome) :
  Re.lazy p k s = Some o → ∃ s', s' `suffix_of` s ∧ k s' = Some o.
Proof.
  induction s as [|c t IH]; simpl.
  - destruct (k []) eqn:E; [|done]. intros [= <-]. by exists [].
  - destruct (k (c :: t)) eqn:E.
    + intros [= <-]. by exists (c :: t).
    + destruct (p c); [|done]. intros H.
      destruct (IH H) as (s' & Hs & Hk).
      exists s'. split; [by apply suffix_cons_r|done].
Qed.

Lemma one_succeeds (p : ascii → bool) (k : str → option Re.outcome)
    (s : str) (o : Re.outcome) :
  Re.one p k s = Some o → ∃ s', s' `suffix_of` s ∧ k s' = Some o.
Proof.
  destruct s as [|c t]; simpl; [done|].
  destruct (p c); [|done]. intros H.
  exists t. split; [by apply suffix_cons_r|done].
Qed.

Lemma run_succeeds (r : Re.re) (s : str) (caps : list str)
    (k : str → list str → option Re.outcome) (o : Re.outcome) :
  Re.run r s caps k = Some o →
  ∃ s' caps', s' `suffix_of` s ∧ k s' caps' = Some o.
Proof.
  revert s caps k.
  induction r as [l|p|p|p|p|p|r1 IH1 r2 IH2|r1 IH1 r2 IH2|r1 IH1|r1 IH1|];
    intros s caps k; simpl.
  - destruct (Py.strip_prefix l s) as [s'|] eqn:E; [|done].
    intros H. exists s', caps. split; [by eapply strip_prefix_suffix|done].
  - intros (s' & Hs & Hk)%one_succeeds. by exists s', caps.
  - intros (s' & Hs & Hk)%greedy_succeeds. by exists s', caps.
  - intros (s' & Hs & (s'' & Hs' & Hk)%greedy_succeeds)%one_succeeds.
    exists s'', caps. split; [by etrans|done].
  - intros (s' & Hs & Hk)%lazy_succeeds. by exists s', caps.
  - intros (s' & Hs & (s'' & Hs' & Hk)%lazy_succeeds)%one_succeeds.
    exists s'', caps. split; [by etrans|done].
  - intros (s' & caps' & Hs & (s'' & caps'' & Hs' & Hk)%IH2)%IH1.
    exists s'', caps''. split; [by etrans|done].
  - destruct (Re.run r1 s caps k) as [o'|] eqn:E.
    + intros [= <-]. by apply IH1 in E.
    + apply IH2.
  - intros (s' & caps' & Hs & Hk)%IH1. by eexists s', _.
  - destruct (Re.run r1 s caps _); [|done]. intros H. by exists s, caps.
  - destruct s as [|c [|c' t]]; [| |done].
    + intros H. by exists [], caps.
    + destruct (Ascii.eqb c nl); [|done]. intros H. by exists [c], caps.
Qed.

Lemma match_at_prefix (r : Re.re) (s m : str) (caps : list str) :
  Re.match_at r s = Some (m, caps) → ∃ s', s = m ++ s'.
Proof.
  unfold Re.match_at.
  destruct (Re.run r s [] _) as [[s' caps']|] eqn:E; [|done].
  intros [= <- <-].
  apply run_succeeds in E as (s'' & caps'' & [u ->] & [= -> ->]).
  exists s'. rewrite length_app.
  replace (length u + length s' - length s') with (length u) by lia.
  by rewrite take_app_length.
Qed.

(** Every match of a scan lies in the scanned text, and is what the pattern
    matches at the place where it lies. *)
Lemma finditer_from_match (r : Re.re) (skip : nat) (s : str)
    (m : str * list str) :
  m ∈ Re.finditer_from r skip s →
  ∃ a b, s = a ++ m.1 ++ b ∧ Re.match_at r (m.1 ++ b) = Some m.
Proof.
  revert skip. induction s as [|c t IH]; intros skip.
  - destruct skip; simpl; [|by intros ?%elem_of_nil].
    destruct (Re.match_at r []) as [[m' caps']|] eqn:E;
      [|by intros ?%elem_of_nil].
    intros Hm%list_elem_of_singleton. subst m.
    destruct (match_at_prefix _ _ _ _ E) as (s' & Hs).
    exists [], s'. simpl. by rewrite <- Hs.
  - destruct skip as [|k]; simpl.
    + destruct (Re.match_at r (c :: t)) as [[m' caps']|] eqn:E.
      * intros [Hm|Hin]%elem_of_cons.
        -- subst m. destruct (match_at_prefix _ _ _ _ E) as (s' & Hs).
           exists [], s'. simpl. by rewrite <- Hs.
        -- destruct (IH _ Hin) as (a & b & -> & Hm). by exists (c :: a), b.
      * intros Hin. destruct (IH _ Hin) as (a & b & -> & Hm).
        by exists (c :: a), b.
    + intros Hin. destruct (IH _ Hin) as (a & b & -> & Hm).
      by exists (c :: a), b.
Qed.

(** ** When the span patterns match *)

Lemma lazy_dot_all_total (k : str → option Re.outcome) (s : str) :
  is_Some (k []) → is_Some (Re.lazy Re.dot_all k s).
Proof.
  intros Hk. induction s as [|c t IH]; simpl.
  - destruct (k []); [by eexists|by destruct Hk].
  - destruct (k (c :: t)); [by eexists|]. exact IH.
Qed.

Lemma span_tail_total (s : str) (caps : list str) :
  is_Some (Re.run (Re.Seq (Re.LazyStar Re.dot_all) span_end) s caps
             (fun s' caps' => Some (s', caps'))).
Proof. simpl. apply lazy_dot_all_total. by eexists. Qed.

Lemma startswith_strip (s p : str) :
  Py.startswith s p = true ↔ is_Some (Py.strip_prefix p s).
Proof.
  unfold Py.startswith. destruct (Py.strip_prefix p s); split; done.
Qed.

Lemma match_at_apt (s : str) :
  is_Some (Re.match_at apt_pattern s)
  ↔ Py.startswith s (txt "RUN apt-get update") = true.
Proof.
  rewrite startswith_strip. unfold Re.match_at, apt_pattern.
  cbn [Re.run].
  destruct (Py.strip_prefix (txt "RUN apt-get update") s) as [rest|].
  - split; [by eexists|]. intros _.
    destruct (span_tail_total rest []) as [[s' caps'] E].
    cbn [Re.run] in E. rewrite E. by eexists.
  - split; by intros [? ?].
Qed.

Lemma strip_prefix_occurs (p s : str) :
  is_Some (Py.strip_prefix p s) → occurs p s.
Proof. intros [r Hr]. apply strip_prefix_app in Hr as ->. apply (occurs_here p []). Qed.

Lemma strip_prefix_here (p b : str) : Py.strip_prefix p (p ++ b) = Some b.
Proof.
  induction p as [|a p IH]; simpl; [done|]. by rewrite Ascii.eqb_refl.
Qed.

(** A scan for a pattern finds something exactly when the pattern matches
    at some place of the text. *)
Lemma finditer_nonempty (r : Re.re) (s : str) :
  Re.finditer r s ≠ [] ↔ ∃ a b, s = a ++ b ∧ is_Some (Re.match_at r b).
Proof.
  split.
  - intros H. destruct (Re.finditer r s) as [|m l] eqn:E; [done|].
    assert (Hin : m ∈ Re.finditer_from r 0 s).
    { unfold Re.finditer in E. rewrite E. apply list_elem_of_here. }
    apply finditer_from_match in Hin as (a & b & -> & Hm).
    exists a, (m.1 ++ b). split; [done|by eexists].
  - intros (a & b & -> & Hm). unfold Re.finditer.
    induction a as [|c a IH].
    + destruct Hm as [m Hm]. destruct b; simpl; by rewrite Hm.
    + simpl. destruct (Re.match_at r (c :: a ++ b)); [done|]. exact IH.
Qed.

Lemma occurs_split (x s : str) :
  occurs x s ↔ ∃ a b, s = a ++ b ∧ is_Some (Py.strip_prefix x b).
Proof.
  split.
  - intros (a & b & ->). exists a, (x ++ b). split; [done|].
    rewrite strip_prefix_here. by eexists.
  - intros (a & b & -> & [r Hr]). apply strip_prefix_app in Hr as ->.
    by exists a, r.
Qed.

Lemma findall0_apt_nonempty (d : str) :
  Re.findall0 apt_pattern d ≠ [] ↔ occurs (txt "RUN apt-get update") d.
Proof.
  unfold Re.findall0. rewrite occurs_split.
  assert (H : ((λ m : str * list str, m.1) <$> Re.finditer apt_pattern d) ≠ []
              ↔ Re.finditer apt_pattern d ≠ []).
  { destruct (Re.finditer apt_pattern d); simpl; split; congruence. }
  rewrite H, finditer_nonempty.
  split; intros (a & b & Hd & Hm); exists a, b; split; try done.
  - by apply startswith_strip, match_at_apt.
  - by apply match_at_apt, startswith_strip.
Qed.

Lemma strip_prefix_concat (l1 l2 s : str) :
  Py.strip_prefix (l1 ++ l2) s =
    match Py.strip_prefix l1 s with
    | Some r => Py.strip_prefix l2 r
    | None => None
    end.
Proof.
  revert s. induction l1 as [|a l1 IH]; intros s; simpl.
  - by destruct s.
  - destruct s as [|b s]; [done|]. destruct (Ascii.eqb a b); [apply IH|done].
Qed.

Lemma match_at_pip (s : str) :
  is_Some (Re.match_at pip_pattern s)
  ↔ Py.startswith s (txt "RUN pip install") = true
    ∨ Py.startswith s (txt "RUN pip3 install") = true.
Proof.
  rewrite !startswith_strip.
  change (txt "RUN pip install")
    with (txt "RUN " ++ txt "pip" ++ txt " install").
  change (txt "RUN pip3 install")
    with (txt "RUN " ++ txt "pip3" ++ txt " install").
  rewrite !strip_prefix_concat.
  unfold Re.match_at, pip_pattern. cbn [Re.run].
  destruct (Py.strip_prefix (txt "RUN ") s) as [r1|];
    [|split; [by intros [? ?]|by intros [[? ?]|[? ?]]]].
  rewrite !strip_prefix_concat.
  destruct (Py.strip_prefix (txt "pip") r1) as [r2|];
    [destruct (Py.strip_prefix (txt " install") r2) as [r3|]|].
  - destruct (span_tail_total r3 []) as [[s' caps'] E].
    cbn [Re.run] in E. rewrite E. split; intros _; [left|]; by eexists.
  - destruct (Py.strip_prefix (txt "pip3") r1) as [r2'|];
      [destruct (Py.strip_prefix (txt " install") r2') as [r3'|]|].
    + destruct (span_tail_total r3' []) as [[s' caps'] E].
      cbn [Re.run] in E. rewrite E. split; intros _; [right|]; by eexists.
    + split; [by intros [? ?]|by intros [[? ?]|[? ?]]].
    + split; [by intros [? ?]|by intros [[? ?]|[? ?]]].
  - destruct (Py.strip_prefix (txt "pip3") r1) as [r2'|];
      [destruct (Py.strip_prefix (txt " install") r2') as [r3'|]|].
    + destruct (span_tail_total r3' []) as [[s' caps'] E].
      cbn [Re.run] in E. rewrite E. split; intros _; [right|]; by eexists.
    + split; [by intros [? ?]|by intros [[? ?]|[? ?]]].
    + split; [by intros [? ?]|by intros [[? ?]|[? ?]]].
Qed.

Lemma fmap_nonempty {A B : Type} (f : A → B) (l : list A) :
  f <$> l ≠ [] ↔ l ≠ [].
Proof. destruct l; simpl; split; congruence. Qed.

Lemma findall0_pip_nonempty (d : str) :
  Re.findall0 pip_pattern d ≠ []
  ↔ occurs (txt "RUN pip install") d ∨ occurs (txt "RUN pip3 install") d.
Proof.
  unfold Re.findall0. rewrite fmap_nonempty, finditer_nonempty, !occurs_split.
  split.
  - intros (a & b & Hd & [H|H]%match_at_pip); [left|right]; exists a, b;
      (split; [done|by apply startswith_strip]).
  - intros [(a & b & Hd & H)|(a & b & Hd & H)]; exists a, b;
      (split; [done|]); apply match_at_pip; [left|right];
      by apply startswith_strip.
Qed.

(** No text [COPY], no copy instruction. *)
Lemma match_at_copy (s : str) :
  is_Some (Re.match_at copy_pattern s) →
  Py.startswith s (txt "COPY") = true.
Proof.
  rewrite startswith_strip. unfold Re.match_at, copy_pattern. cbn [Re.run].
  destruct (Py.strip_prefix (txt "COPY") s); [by eexists|by intros [? ?]].
Qed.

Lemma findall2_copy_nonempty (d : str) :
  Re.findall2 copy_pattern d ≠ [] → occurs (txt "COPY") d.
Proof.
  unfold Re.findall2. rewrite fmap_nonempty, finditer_nonempty, occurs_split.
  intros (a & b & Hd & H%match_at_copy). exists a, b.
  split; [done|by apply startswith_strip].
Qed.

(** ** Removing text *)

Lemma replace_from_sublist (old : str) (skip : nat) (s : str) :
  Py.replace_from old [] skip s `sublist_of` s.
Proof.
  revert skip. induction s as [|c t IH]; intros skip; simpl; [done|].
  destruct skip as [|k]; [|by apply sublist_cons].
  destruct (Py.startswith (c :: t) old); simpl.
  - by apply sublist_cons.
  - by apply sublist_skip.
Qed.

Lemma replace_sublist (s old : str) : Py.replace s old [] `sublist_of` s.
Proof.
  unfold Py.replace. destruct old as [|a old].
  - simpl. assert (H : flat_map (λ c : ascii, [c]) s = s).
    { induction s as [|c t IH]; simpl; [done|]. by rewrite IH. }
    by rewrite H.
  - apply replace_from_sublist.
Qed.

Lemma remove_all_sublist (spans : list str) (content : str) :
  remove_all spans content `sublist_of` content.
Proof.
  unfold remove_all. revert content.
  induction spans as [|cmd spans IH]; intros content; simpl; [done|].
  etrans; [apply IH|apply replace_sublist].
Qed.

(** ** Collapsing blank runs *)

Lemma leading_newlines (s : str) :
  ∃ k rest, s = replicate k nl ++ rest ∧ head rest ≠ Some nl.
Proof.
  induction s as [|c t (k & rest & -> & Hr)].
  - by exists 0, [].
  - destruct (decide (c = nl)) as [->|Hc].
    + by exists (S k), rest.
    + exists 0, (c :: replicate k nl ++ rest). split; [done|].
      simpl. congruence.
Qed.

Lemma greedy_cons (p : ascii → bool) (k : str → option Re.outcome)
    (c : ascii) (t : str) :
  Re.greedy p k (c :: t) =
    if p c
    then match Re.greedy p k t with Some o => Some o | None => k (c :: t) end
    else k (c :: t).
Proof. reflexivity. Qed.

Lemma is_nl_spec (c : ascii) : Re.is_nl c = bool_decide (c = nl).
Proof.
  unfold Re.is_nl. destruct (Ascii.eqb_spec c nl).
  - by rewrite bool_decide_eq_true_2.
  - by rewrite bool_decide_eq_false_2.
Qed.

Lemma greedy_newlines (k : str → option Re.outcome) (n : nat) (rest : str) :
  head rest ≠ Some nl → is_Some (k rest) →
  Re.greedy Re.is_nl k (replicate n nl ++ rest) = k rest.
Proof.
  intros Hr [o Ho]. induction n as [|n IH].
  - destruct rest as [|c t]; [done|]. cbn [replicate app].
    rewrite greedy_cons, is_nl_spec, bool_decide_eq_false_2; [done|].
    intros ->. by apply Hr.
  - cbn [replicate app]. rewrite greedy_cons, is_nl_spec.
    rewrite bool_decide_eq_true_2 by done. by rewrite IH, Ho.
Qed.

Lemma match_at_blank_run_many (n : nat) (rest : str) :
  head rest ≠ Some nl →
  Re.match_at blank_run (nl :: nl :: replicate n nl ++ rest)
  = Some (nl :: nl :: replicate n nl, []).
Proof.
  intros Hr. unfold Re.match_at, blank_run.
  cbn [Re.run Py.strip_prefix]. rewrite Ascii.eqb_refl. unfold Re.one.
  rewrite is_nl_spec, bool_decide_eq_true_2 by done.
  rewrite greedy_newlines by (done || by eexists).
  f_equal. f_equal.
  change (nl :: nl :: replicate n nl ++ rest)
    with ((nl :: nl :: replicate n nl) ++ rest).
  rewrite length_app.
  replace (length (nl :: nl :: replicate n nl) + length rest - length rest)
    with (length (nl :: nl :: replicate n nl)) by lia.
  by rewrite take_app_length.
Qed.

Lemma match_at_blank_run_one (rest : str) :
  head rest ≠ Some nl → Re.match_at blank_run (nl :: rest) = None.
Proof.
  intros Hr. unfold Re.match_at, blank_run.
  cbn [Re.run Py.strip_prefix]. rewrite Ascii.eqb_refl. unfold Re.one.
  destruct rest as [|c t]; [done|].
  rewrite is_nl_spec, bool_decide_eq_false_2; [done|].
  intros ->. by apply Hr.
Qed.

Lemma match_at_blank_run_other (c : ascii) (t : str) :
  c ≠ nl → Re.match_at blank_run (c :: t) = None.
Proof.
  intros Hc. unfold Re.match_at, blank_run. cbn [Re.run Py.strip_prefix].
  destruct (Ascii.eqb_spec nl c) as [<-|_]; done.
Qed.

Lemma sub_from_skip (r : Re.re) (repl u rest : str) :
  Re.sub_from r repl (length u) (u ++ rest) = Re.sub_from r repl 0 rest.
Proof. induction u as [|c u IH]; [done|]. simpl. exact IH. Qed.

Lemma sub_blank_nil : Re.sub blank_run [nl; nl] [] = [].
Proof. reflexivity. Qed.

Lemma sub_blank_other (c : ascii) (t : str) :
  c ≠ nl →
  Re.sub blank_run [nl; nl] (c :: t) = c :: Re.sub blank_run [nl; nl] t.
Proof.
  intros Hc. unfold Re.sub. cbn [Re.sub_from].
  by rewrite match_at_blank_run_other.
Qed.

Lemma sub_blank_one (rest : str) :
  head rest ≠ Some nl →
  Re.sub blank_run [nl; nl] (nl :: rest)
  = nl :: Re.sub blank_run [nl; nl] rest.
Proof.
  intros Hr. unfold Re.sub. cbn [Re.sub_from].
  by rewrite match_at_blank_run_one.
Qed.

Lemma sub_blank_many (n : nat) (rest : str) :
  head rest ≠ Some nl →
  Re.sub blank_run [nl; nl] (nl :: nl :: replicate n nl ++ rest)
  = nl :: nl :: Re.sub blank_run [nl; nl] rest.
Proof.
  intros Hr. unfold Re.sub. cbn [Re.sub_from].
  rewrite match_at_blank_run_many by done. cbn [fst length Nat.sub].
  by rewrite sub_from_skip.
Qed.

(** The head of the collapsed text is a newline only if the head of the text
    is. *)
Lemma sub_blank_head (s : str) :
  head s ≠ Some nl → head (Re.sub blank_run [nl; nl] s) ≠ Some nl.
Proof.
  destruct s as [|c t]; [done|]. simpl. intros Hc.
  rewrite sub_blank_other by congruence. simpl. congruence.
Qed.

(** Induction over a text by its runs of newlines. *)
Lemma newline_run_ind (P : str → Prop) :
  P [] →
  (∀ c t, c ≠ nl → P t → P (c :: t)) →
  (∀ rest, head rest ≠ Some nl → P rest → P (nl :: rest)) →
  (∀ n rest, head rest ≠ Some nl → P rest →
     P (nl :: nl :: replicate n nl ++ rest)) →
  ∀ s, P s.
Proof.
  intros Hnil Hother Hone Hmany s.
  assert (H : ∀ m s, length s ≤ m → P s); [|by apply (H (length s))].
  clear s. induction m as [|m IH]; intros s Hs.
  { destruct s; [done|simpl in Hs; lia]. }
  destruct (leading_newlines s) as (k & rest & -> & Hr).
  rewrite length_app, length_replicate in Hs.
  destruct k as [|[|n]].
  - destruct rest as [|c t]; [done|]. simpl in *.
    apply Hother; [congruence|]. apply IH. lia.
  - apply Hone; [done|]. apply IH. simpl in Hs. lia.
  - apply (Hmany n rest); [done|]. apply IH. lia.
Qed.

Lemma occurs_cons_inv (x : str) (c : ascii) (t : str) :
  occurs x (c :: t) → (∃ b, c :: t = x ++ b) ∨ occurs x t.
Proof.
  intros ([|a0 a] & b & H).
  - left. by exists b.
  - right. injection H as -> ->. by exists a, b.
Qed.

Lemma sub_blank_sublist (s : str) :
  Re.sub blank_run [nl; nl] s `sublist_of` s.
Proof.
  induction s as [|c t Hc IH|rest Hr IH|n rest Hr IH] using newline_run_ind.
  - done.
  - rewrite sub_blank_other by done. by apply sublist_skip.
  - rewrite sub_blank_one by done. by apply sublist_skip.
  - rewrite sub_blank_many by done. do 2 apply sublist_skip.
    by apply sublist_inserts_l.
Qed.

Lemma sub_blank_keeps_text (s : str) :
  filter (λ c, c ≠ nl) (Re.sub blank_run [nl; nl] s) = filter (λ c, c ≠ nl) s.
Proof.
  induction s as [|c t Hc IH|rest Hr IH|n rest Hr IH] using newline_run_ind.
  - done.
  - rewrite sub_blank_other by done. rewrite !filter_cons. by rewrite IH.
  - rewrite sub_blank_one by done. rewrite !filter_cons. by rewrite IH.
  - rewrite sub_blank_many by done.
    rewrite !filter_cons, filter_app, IH.
    rewrite !decide_False by (by intros H; apply H).
    assert (Hn : filter (λ c, c ≠ nl) (replicate n nl) = []).
    { induction n as [|n IHn]; [done|]. simpl. rewrite filter_cons.
      by rewrite decide_False by (by intros H; apply H). }
    by rewrite Hn.
Qed.

Lemma sub_blank_no_triple (s : str) :
  ¬ occurs [nl; nl; nl] (Re.sub blank_run [nl; nl] s).
Proof.
  induction s as [|c t Hc IH|rest Hr IH|n rest Hr IH] using newline_run_ind.
  - rewrite sub_blank_nil. intros ([|? ?] & b & H); discriminate H.
  - rewrite sub_blank_other by done.
    intros [(b & H)|H]%occurs_cons_inv; [|done]. injection H as -> _. done.
  - rewrite sub_blank_one by done. pose proof (sub_blank_head rest Hr) as Hh.
    intros [(b & H)|H]%occurs_cons_inv; [|done].
    injection H as H. rewrite H in Hh. by apply Hh.
  - rewrite sub_blank_many by done. pose proof (sub_blank_head rest Hr) as Hh.
    intros [(b & H)|[(b & H)|H]%occurs_cons_inv]%occurs_cons_inv; [| |done].
    + injection H as H. rewrite H in Hh. by apply Hh.
    + injection H as H. rewrite H in Hh. by apply Hh.
Qed.

Lemma sub_blank_idempotent (s : str) :
  Re.sub blank_run [nl; nl] (Re.sub blank_run [nl; nl] s)
  = Re.sub blank_run [nl; nl] s.
Proof.
  induction s as [|c t Hc IH|rest Hr IH|n rest Hr IH] using newline_run_ind.
  - done.
  - rewrite sub_blank_other by done. rewrite sub_blank_other by done.
    by rewrite IH.
  - rewrite sub_blank_one by done.
    rewrite sub_blank_one by (by apply sub_blank_head). by rewrite IH.
  - rewrite sub_blank_many by done.
    pose proof (sub_blank_many 0 (Re.sub blank_run [nl; nl] rest)
                  (sub_blank_head rest Hr)) as H.
    cbn [replicate app] in H. by rewrite H, IH.
Qed.

(** ** Slices and [find] *)

Lemma upto_from (s : str) (i : Z) : Py.upto s i ++ Py.from s i = s.
Proof. unfold Py.upto, Py.from. apply take_drop. Qed.

Lemma index_of_cons (x : str) (c : ascii) (t : str) :
  Py.index_of x (c :: t) =
    if Py.startswith (c :: t) x then Some 0 else S <$> Py.index_of x t.
Proof. reflexivity. Qed.

Lemma index_of_Some (x s : str) (i : nat) :
  Py.index_of x s = Some i →
  ∃ b, s = take i s ++ x ++ b ∧ length (take i s) = i
       ∧ ∀ a' b', s = a' ++ x ++ b' → i ≤ length a'.
Proof.
  revert i. induction s as [|c t IH]; intros i.
  - simpl. destruct (Py.startswith [] x) eqn:E; [|done].
    intros [= <-]. apply startswith_strip in E as [r Hr].
    apply strip_prefix_app in Hr. exists r. split_and!; [done|done|lia].
  - rewrite index_of_cons. destruct (Py.startswith (c :: t) x) eqn:E.
    + intros [= <-]. apply startswith_strip in E as [r Hr].
      apply strip_prefix_app in Hr. exists r. split_and!; [done|done|lia].
    + destruct (Py.index_of x t) as [j|] eqn:Ej; [|done].
      intros [= <-]. destruct (IH j eq_refl) as (b & Hb & Hl & Hfirst).
      exists b. split_and!.
      * simpl. by rewrite <- Hb.
      * simpl. by rewrite Hl.
      * intros [|a0 a'] b' H.
        -- exfalso. simpl in H. rewrite H, startswith_app in E. done.
        -- injection H as -> H. simpl. apply Hfirst in H. lia.
Qed.

Lemma index_of_None (x s : str) : Py.index_of x s = None ↔ ¬ occurs x s.
Proof.
  split.
  - intros H [i Hi]%occurs_index_of. congruence.
  - intros H. destruct (Py.index_of x s) as [i|] eqn:E; [|done].
    exfalso. apply H. by eapply index_of_occurs.
Qed.

Lemma find_from_start (s x : str) :
  Py.find s x 0 =
    match Py.index_of x s with
    | Some i => Z.of_nat i
    | None => (-1)%Z
    end.
Proof.
  unfold Py.find. cbn [Z.ltb Z.compare].
  assert (Hn : (Z.of_nat (length s) <? 0)%Z = false) by (apply Z.ltb_ge; lia).
  rewrite Hn. change (drop (Z.to_nat 0) s) with s.
  by destruct (Py.index_of x s).
Qed.

Lemma slice_bound_nat (s : str) (i : nat) :
  i ≤ length s → Py.slice_bound s (Z.of_nat i) = i.
Proof.
  intros Hi. unfold Py.slice_bound.
  assert (Hn : (Z.of_nat i <? 0)%Z = false) by (apply Z.ltb_ge; lia).
  rewrite Hn. lia.
Qed.

(** ** The copy pass *)

Lemma optimize_copy_commands_spans (d : str) :
  Re.findall2 copy_pattern d ≠ [] →
  (optimize_copy_commands d).1 =
    Py.upto (copy_removed d) (copy_insert_point (copy_removed d))
    ++ copy_instructions d ++ [nl]
    ++ Py.from (copy_removed d) (copy_insert_point (copy_removed d)).
Proof.
  intros H. unfold optimize_copy_commands, copy_removed, copy_instructions.
  by destruct (Re.findall2 copy_pattern d).
Qed.

Lemma copy_removed_sublist (d : str) : copy_removed d `sublist_of` d.
Proof.
  unfold copy_removed. generalize (Re.findall2 copy_pattern d) as cmds.
  intros cmds. revert d. induction cmds as [|cmd cmds IH]; intros d;
    cbn [foldl]; [done|].
  etrans; [apply IH|apply replace_sublist].
Qed.

Lemma copy_insert_point_none (c : str) :
  ¬ occurs (txt "CMD") c →
  Py.upto c (copy_insert_point c) = c ∧ Py.from c (copy_insert_point c) = [].
Proof.
  intros H. apply index_of_None in H.
  unfold copy_insert_point. rewrite find_from_start, H.
  rewrite decide_True by done.
  unfold Py.upto, Py.from. rewrite slice_bound_nat by done.
  by rewrite take_ge, drop_ge.
Qed.

Lemma copy_insert_point_first (c a b : str) :
  c = a ++ txt "CMD" ++ b →
  (∀ a' b', c = a' ++ txt "CMD" ++ b' → length a ≤ length a') →
  Py.upto c (copy_insert_point c) = a
  ∧ Py.from c (copy_insert_point c) = txt "CMD" ++ b.
Proof.
  intros Hc Hfirst.
  destruct (Py.index_of (txt "CMD") c) as [i|] eqn:E.
  - destruct (index_of_Some _ _ _ E) as (b0 & Hb0 & Hl & Hmin).
    assert (Hi : i = length a).
    { apply Nat.le_antisymm; [by apply (Hmin a b)|].
      rewrite <- Hl. by apply (Hfirst _ b0). }
    unfold copy_insert_point. rewrite find_from_start, E.
    rewrite decide_False by lia.
    unfold Py.upto, Py.from. rewrite slice_bound_nat.
    + subst i. rewrite Hc. by rewrite take_app_length, drop_app_length.
    + rewrite Hi, Hc, length_app. lia.
  - apply index_of_None in E. exfalso. apply E. rewrite Hc. by exists a, b.
Qed.

(** ** Where a span ends *)

(** A lazy repetition stops at the first place where what follows matches. *)
Lemma lazy_shortest (p : ascii → bool) (k : str → option Re.outcome)
    (s : str) (o : Re.outcome) :
  Re.lazy p k s = Some o →
  ∃ u s', s = u ++ s' ∧ k s' = Some o
          ∧ ∀ u1 c u2, u = u1 ++ c :: u2 → k (c :: u2 ++ s') = None.
Proof.
  induction s as [|c t IH]; simpl.
  - destruct (k []) eqn:E; [|done]. intros [= <-].
    exists [], []. split_and!; [done|done|]. by intros [|??] ???.
  - destruct (k (c :: t)) eqn:E.
    + intros [= <-]. exists [], (c :: t). split_and!; [done|done|].
      by intros [|??] ???.
    + destruct (p c); [|done]. intros H.
      destruct (IH H) as (u & s' & -> & Hk & Hmin).
      exists (c :: u), s'. split_and!; [done|done|].
      intros [|c1 u1] c2 u2 Hu.
      * injection Hu as <- <-. exact E.
      * injection Hu as <- Hu. by eapply Hmin.
Qed.

(** The end of a span is not met in front of a line break only when the
    line break is followed by another one. *)
Lemma span_end_newline (r : str) (caps : list str) :
  Re.run span_end (nl :: r) caps (fun s' caps' => Some (s', caps')) = None →
  ∃ r', r = nl :: r'.
Proof.
  unfold span_end. cbn [Re.run Py.strip_prefix]. rewrite Ascii.eqb_refl.
  destruct r as [|c r']; unfold Re.one.
  - done.
  - unfold Re.not_nl. destruct (Ascii.eqb_spec c nl) as [->|Hc]; [by eexists|].
    done.
Qed.

Lemma span_end_same (s s' : str) (caps caps' : list str) :
  Re.run span_end s caps (fun s' caps' => Some (s', caps')) = Some (s', caps') →
  s' = s.
Proof.
  unfold span_end. cbn [Re.run].
  match goal with |- match ?x with _ => _ end = _ → _ => destruct x end;
    [|done].
  by intros [= <- <-].
Qed.

Lemma span_tail_newline (t s' : str) (caps caps' : list str) :
  Re.run (Re.Seq (Re.LazyStar Re.dot_all) span_end) t caps
    (fun s' caps' => Some (s', caps')) = Some (s', caps') →
  ∃ u, t = u ++ s' ∧ (nl ∈ u → occurs [nl; nl] t).
Proof.
  cbn [Re.run]. intros (u & s1 & -> & Hk & Hmin)%lazy_shortest.
  apply span_end_same in Hk as Hs. subst s1.
  exists u. split; [done|].
  intros (u1 & u2 & ->)%list_elem_of_split.
  specialize (Hmin u1 nl u2 eq_refl).
  apply span_end_newline in Hmin as [r' Hr'].
  exists u1, r'. rewrite <- !app_assoc. cbn [app]. by rewrite Hr'.
Qed.

Lemma span_match_newline (pre t s' : str) (caps caps' : list str) :
  nl ∉ pre →
  Re.run (Re.Seq (Re.LazyStar Re.dot_all) span_end) t caps
    (fun s' caps' => Some (s', caps')) = Some (s', caps') →
  nl ∈ take (length (pre ++ t) - length s') (pre ++ t) →
  occurs [nl; nl] (pre ++ t).
Proof.
  intros Hpre (u & -> & Hu)%span_tail_newline.
  rewrite !length_app.
  replace (length pre + (length u + length s') - length s')
    with (length (pre ++ u)) by (rewrite length_app; lia).
  rewrite app_assoc, take_app_length, <- app_assoc.
  intros [Hin|Hin]%elem_of_app; [done|].
  by apply occurs_app_r, Hu.
Qed.

Lemma match_at_apt_newline (s m : str) (caps : list str) :
  Re.match_at apt_pattern s = Some (m, caps) → nl ∈ m → occurs [nl; nl] s.
Proof.
  unfold Re.match_at, apt_pattern. cbn [Re.run].
  destruct (Py.strip_prefix (txt "RUN apt-get update") s) as [t|] eqn:Et;
    [|done].
  apply strip_prefix_app in Et as ->.
  destruct (Re.lazy _ _ t) as [[s' caps']|] eqn:E; [|done].
  intros [= <- <-].
  apply (span_match_newline (txt "RUN apt-get update") t s' [] caps');
    [|exact E].
  vm_compute. intros H. by repeat (apply elem_of_cons in H as [H|H]; [done|]);
    apply elem_of_nil in H.
Qed.

Lemma no_newline_in (pre : str) :
  Py.index_of [nl] pre = None → nl ∉ pre.
Proof.
  intros H Hin. apply index_of_None in H. apply H.
  apply list_elem_of_split in Hin as (a & b & ->). by exists a, b.
Qed.

Lemma match_at_pip_newline (s m : str) (caps : list str) :
  Re.match_at pip_pattern s = Some (m, caps) → nl ∈ m → occurs [nl; nl] s.
Proof.
  unfold Re.match_at, pip_pattern. cbn [Re.run].
  destruct (Py.strip_prefix (txt "RUN ") s) as [r1|] eqn:E1; [|done].
  apply strip_prefix_app in E1 as ->.
  destruct (Py.strip_prefix (txt "pip") r1) as [r2|] eqn:E2.
  - apply strip_prefix_app in E2 as ->.
    destruct (Py.strip_prefix (txt " install") r2) as [r3|] eqn:E3.
    + apply strip_prefix_app in E3 as ->.
      destruct (span_tail_total r3 []) as [[s' caps'] E].
      pose proof E as E'. cbn [Re.run] in E'. rewrite E'.
      intros [= <- <-].
      apply (span_match_newline (txt "RUN pip install") r3 s' [] caps');
        [|exact E].
      by apply no_newline_in.
    + destruct (Py.strip_prefix (txt "pip3") (txt "pip" ++ r2)) as [q2|] eqn:F2;
        [|done].
      destruct (Py.strip_prefix (txt " install") q2) as [q3|] eqn:F3; [|done].
      apply strip_prefix_app in F3 as ->.
      change (txt "pip3") with (txt "pip" ++ txt "3") in F2.
      rewrite strip_prefix_concat, strip_prefix_here in F2.
      apply strip_prefix_app in F2 as ->.
      destruct (span_tail_total q3 []) as [[s' caps'] E].
      pose proof E as E'. cbn [Re.run] in E'. rewrite E'.
      intros [= <- <-].
      apply (span_match_newline (txt "RUN pip3 install") q3 s' [] caps');
        [|exact E].
      by apply no_newline_in.
  - destruct (Py.strip_prefix (txt "pip3") r1) as [q2|] eqn:F2; [|done].
    change (txt "pip3") with (txt "pip" ++ txt "3") in F2.
    rewrite strip_prefix_concat, E2 in F2. done.
Qed.

(** A span of either install pattern takes in a line break only where the
    text has an empty line. *)
Lemma apt_spans_newline (d m : str) :
  m ∈ Re.findall0 apt_pattern d → nl ∈ m → occurs [nl; nl] d.
Proof.
  unfold Re.findall0, Re.finditer.
  intros ([m' caps] & -> & Hin)%list_elem_of_fmap Hnl.
  apply finditer_from_match in Hin as (a & b & -> & Hm).
  apply occurs_app_r. by eapply match_at_apt_newline.
Qed.

Lemma pip_spans_newline (d m : str) :
  m ∈ Re.findall0 pip_pattern d → nl ∈ m → occurs [nl; nl] d.
Proof.
  unfold Re.findall0, Re.finditer.
  intros ([m' caps] & -> & Hin)%list_elem_of_fmap Hnl.
  apply finditer_from_match in Hin as (a & b & -> & Hm).
  apply occurs_app_r. by eapply match_at_pip_newline.
Qed.

(** X1: in a document without an empty line no install span takes in a line
    break, so the extractors find no package name: the merged apt
    instruction is the one of the empty package set, and the pip pass writes
    an empty [requirements.txt]. *)
Theorem packages_need_an_empty_line (d : str) (w : world) :
  ¬ occurs [nl; nl] d →
  Forall (λ cmd, nl ∉ cmd) (Re.findall0 apt_pattern d)
  ∧ Forall (λ cmd, nl ∉ cmd) (Re.findall0 pip_pattern d)
  ∧ collect_packages apt_pkg_pattern (Re.findall0 apt_pattern d) = ∅
  ∧ collect_packages pip_pkg_pattern (Re.findall0 pip_pattern d) = ∅
  ∧ (Re.findall0 apt_pattern d ≠ [] →
       optimize_apt_commands d
       = insert_after_from (apt_combined_command ∅)
           (cleaned (Re.findall0 apt_pattern d) d))
  ∧ (Re.findall0 pip_pattern d ≠ [] →
       files (optimize_pip_commands d w).2 !! requirements_path w = Some []).
Proof.
  intros Hd.
  assert (Ha : Forall (λ cmd, nl ∉ cmd) (Re.findall0 apt_pattern d)).
  { apply Forall_forall. intros m Hm Hnl. by eapply Hd, apt_spans_newline. }
  assert (Hp : Forall (λ cmd, nl ∉ cmd) (Re.findall0 pip_pattern d)).
  { apply Forall_forall. intros m Hm Hnl. by eapply Hd, pip_spans_newline. }
  assert (Hca : collect_packages apt_pkg_pattern (Re.findall0 apt_pattern d) = ∅)
    by (by apply collect_packages_needs_newline).
  assert (Hcp : collect_packages pip_pkg_pattern (Re.findall0 pip_pattern d) = ∅)
    by (by apply collect_packages_needs_newline).
  split_and!; try done.
  - intros Hs. by rewrite optimize_apt_commands_spans, Hca.
  - intros Hs. rewrite optimize_pip_commands_run. cbn [snd]. unfold pip_world.
    destruct (Re.findall0 pip_pattern d); [done|].
    cbn [files]. by rewrite lookup_insert_eq, Hcp.
Qed.

Lemma packages_need_an_empty_line_witness :
  ¬ occurs [nl; nl] Examples.example_dockerfile
  ∧ Re.findall0 apt_pattern Examples.example_dockerfile ≠ []
  ∧ optimize_apt_commands Examples.example_dockerfile
    = insert_after_from (apt_combined_command ∅)
        (cleaned (Re.findall0 apt_pattern Examples.example_dockerfile)
           Examples.example_dockerfile).
Proof.
  assert (H : ¬ occurs [nl; nl] Examples.example_dockerfile).
  { apply index_of_None. vm_compute. reflexivity. }
  assert (Hs : Re.findall0 apt_pattern Examples.example_dockerfile ≠ []).
  { vm_compute. discriminate. }
  split_and!; [exact H|exact Hs|].
  exact (proj1 (proj2 (proj2 (proj2 (proj2
           (packages_need_an_empty_line Examples.example_dockerfile
              Examples.empty_world H))))) Hs).
Defined.

(** ** The groups of the copy pass *)

Lemma filter_none {A} (P : A → Prop) `{!∀ x, Decision (P x)} (l : list A) :
  Forall (λ x, ¬ P x) l → filter P l = [].
Proof.
  induction 1 as [|x l Hx _ IH]; [done|]. by rewrite filter_cons_False.
Qed.

Lemma first_seen_snoc (dests : list str) (d : str) :
  first_seen (dests ++ [d])
  = if decide (d ∈ first_seen dests) then first_seen dests
    else first_seen dests ++ [d].
Proof. unfold first_seen. by rewrite foldl_app. Qed.

Lemma elem_of_first_seen (dests : list str) (d : str) :
  d ∈ first_seen dests ↔ d ∈ dests.
Proof.
  induction dests as [|x dests IH] using rev_ind; [done|].
  rewrite first_seen_snoc, elem_of_app, list_elem_of_singleton.
  destruct (decide (x ∈ first_seen dests)) as [Hx|Hx].
  - rewrite IH. split; [by left|]. intros [H| ->]; [done|]. by apply IH.
  - by rewrite elem_of_app, list_elem_of_singleton, IH.
Qed.

Lemma first_seen_NoDup (dests : list str) : NoDup (first_seen dests).
Proof.
  induction dests as [|x dests IH] using rev_ind; [constructor|].
  rewrite first_seen_snoc.
  destruct (decide (x ∈ first_seen dests)) as [Hx|Hx]; [done|].
  apply NoDup_app. split_and!; [done| |apply NoDup_singleton].
  intros y Hy ->%list_elem_of_singleton. done.
Qed.

(** Adding a copy to groups that are given by a function of the
    destination. *)
Lemma group_add_fmap (F : str → list str) (seen : list str) (dest src : str) :
  NoDup seen →
  group_add dest src ((λ d, (d, F d)) <$> seen)
  = ((λ d, (d, F d ++ if decide (d = dest) then [src] else [])) <$> seen)
    ++ if decide (dest ∈ seen) then [] else [(dest, [src])].
Proof.
  induction 1 as [|d seen Hd Hnd IH]; [done|].
  cbn [fmap list_fmap group_add]. fold (list_fmap _ _ (λ d, (d, F d)) seen).
  destruct (decide (d = dest)) as [->|Hne].
  - rewrite (decide_True (P := dest ∈ dest :: seen)) by apply list_elem_of_here.
    rewrite app_nil_r. f_equal. apply list_fmap_ext.
    intros i d' Hd'. rewrite decide_False, app_nil_r; [done|].
    intros ->. apply Hd. by eapply list_elem_of_lookup_2.
  - rewrite app_nil_r. cbn [app]. f_equal.
    etrans; [apply IH|]. f_equal.
    destruct (decide (dest ∈ seen)) as [Hin|Hin].
    + rewrite decide_True; [done|]. by apply list_elem_of_further.
    + rewrite decide_False; [done|].
      intros [?|?]%elem_of_cons; [by subst|done].
Qed.

Lemma copy_groups_snoc (cmds : list (str * str)) (src dest : str) :
  copy_groups (cmds ++ [(src, dest)])
  = group_add dest src (copy_groups cmds).
Proof. unfold copy_groups. by rewrite foldl_app. Qed.

(** The groups, said at once: the destinations in the order in which each is
    met first, each with the sources copied to it, in the order of the
    copies. *)
Lemma copy_groups_partition (cmds : list (str * str)) :
  copy_groups cmds
  = (λ d, (d, (filter (λ c, c.2 = d) cmds).*1)) <$> first_seen (cmds.*2).
Proof.
  induction cmds as [|[src dest] cmds IH] using rev_ind; [done|].
  rewrite copy_groups_snoc, IH.
  rewrite group_add_fmap by apply first_seen_NoDup.
  rewrite fmap_app. cbn [fmap list_fmap snd]. rewrite first_seen_snoc.
  assert (Hf : ∀ d, (filter (λ c : str * str, c.2 = d) (cmds ++ [(src, dest)])).*1
                    = (filter (λ c : str * str, c.2 = d) cmds).*1
                      ++ if decide (d = dest) then [src] else []).
  { intros d. rewrite filter_app, fmap_app. f_equal.
    rewrite filter_cons, filter_nil. cbn [snd].
    destruct (decide (dest = d)) as [->|Hne].
    - by rewrite decide_True.
    - by rewrite decide_False by congruence. }
  destruct (decide (dest ∈ first_seen cmds.*2)) as [Hin|Hin].
  - rewrite app_nil_r. apply list_fmap_ext. intros i d _. by rewrite Hf.
  - rewrite fmap_app. f_equal.
    + apply list_fmap_ext. intros i d _. by rewrite Hf.
    + cbn [fmap list_fmap]. rewrite Hf, decide_True by done.
      rewrite (filter_none (λ c : str * str, c.2 = dest)); [done|].
      apply Forall_forall. intros [s' d'] Hc Heq. cbn [snd] in Heq. subst d'.
      apply Hin, elem_of_first_seen, list_elem_of_fmap. by exists (s', dest).
Qed.

(** ** The splice when no line end follows the anchor *)

Lemma index_of_nl_single (c : ascii) :
  Py.index_of [nl] [c] = if decide (c = nl) then Some 0 else None.
Proof.
  cbn [Py.index_of]. unfold Py.startswith. cbn [Py.strip_prefix].
  destruct (Ascii.eqb_spec nl c) as [<-|Hne].
  - by rewrite decide_True.
  - rewrite decide_False by congruence. cbn [Py.strip_prefix]. done.
Qed.

Lemma find_nl_from_last (body : str) (c : ascii) :
  Py.find (body ++ [c]) [nl] (-1)
  = if decide (c = nl) then Z.of_nat (length body) else (-1)%Z.
Proof.
  unfold Py.find. rewrite length_app. cbn [length Z.ltb Z.compare].
  replace (Z.max 0 (-1 + Z.of_nat (length body + 1)))
    with (Z.of_nat (length body)) by lia.
  assert (Hn : (Z.of_nat (length body + 1) <? Z.of_nat (length body))%Z = false)
    by (apply Z.ltb_ge; lia).
  rewrite Hn, Nat2Z.id, drop_app_length, index_of_nl_single.
  destruct (decide (c = nl)); [f_equal; lia|done].
Qed.

Lemma splice_at_last (combined body : str) (c : ascii) (i : Z) :
  i = (-1)%Z ∨ i = Z.of_nat (length body) →
  Py.upto (body ++ [c]) i ++ [nl] ++ combined ++ Py.from (body ++ [c]) i
  = body ++ [nl] ++ combined ++ [c].
Proof.
  intros Hi.
  assert (Hb : Py.slice_bound (body ++ [c]) i = length body).
  { unfold Py.slice_bound. rewrite length_app. cbn [length].
    destruct Hi as [->| ->].
    - cbn [Z.ltb Z.compare]. lia.
    - assert (Hn : (Z.of_nat (length body) <? 0)%Z = false)
        by (apply Z.ltb_ge; lia).
      rewrite Hn. lia. }
  unfold Py.upto, Py.from. rewrite Hb.
  by rewrite take_app_length, drop_app_length.
Qed.

Lemma find_absent_iff (s x : str) :
  Py.find s x 0 = (-1)%Z ↔ ¬ occurs x s.
Proof.
  rewrite find_from_start, <- index_of_None.
  destruct (Py.index_of x s); split; try done; lia.
Qed.

(** Without the text [FROM] the instruction goes in front of the last
    character. *)
Lemma insert_after_from_no_anchor (combined body : str) (c : ascii) :
  ¬ occurs (txt "FROM") (body ++ [c]) →
  insert_after_from combined (body ++ [c])
  = body ++ [nl] ++ combined ++ [c].
Proof.
  intros H. apply find_absent_iff in H.
  unfold insert_after_from. apply splice_at_last.
  unfold from_idx. rewrite H, find_nl_from_last.
  destruct (decide (c = nl)); [by right|by left].
Qed.

(** With no line end after the first [FROM] the instruction goes in front
    of the last character as well. *)
Lemma insert_after_from_open_line (combined pre line : str) :
  Py.find (pre ++ txt "FROM" ++ line) (txt "FROM") 0 = Z.of_nat (length pre) →
  nl ∉ line →
  ∃ body c,
    pre ++ txt "FROM" ++ line = body ++ [c]
    ∧ insert_after_from combined (pre ++ txt "FROM" ++ line)
      = body ++ [nl] ++ combined ++ [c].
Proof.
  intros Hfirst Hline.
  set (content := pre ++ txt "FROM" ++ line) in *.
  assert (Hlast : ∃ body c, content = body ++ [c]).
  { destruct (decide (content = [])) as [E|E].
    - apply (f_equal length) in E. unfold content in E.
      rewrite !length_app in E. simpl in E. lia.
    - apply exists_last in E as (body & c & E). by exists body, c. }
  destruct Hlast as (body & c & Hc). exists body, c. split; [done|].
  unfold insert_after_from. rewrite Hc. apply splice_at_last. left.
  rewrite <- Hc. unfold from_idx. rewrite Hfirst.
  unfold Py.find.
  assert (Hn : (Z.of_nat (length pre) <? 0)%Z = false) by (apply Z.ltb_ge; lia).
  assert (Hm : (Z.of_nat (length content) <? Z.of_nat (length pre))%Z = false).
  { apply Z.ltb_ge. unfold content. rewrite length_app. lia. }
  rewrite Hn, Hm, Nat2Z.id. unfold content. rewrite drop_app_length.
  assert (Hnone : Py.index_of [nl] (txt "FROM" ++ line) = None).
  { apply index_of_None. intros (a & b & Hab).
    assert (Hin : nl ∈ txt "FROM" ++ line).
    { rewrite Hab. apply elem_of_app. right. apply list_elem_of_here. }
    apply elem_of_app in Hin as [Hin|Hin]; [|done].
    revert Hin. by apply no_newline_in. }
  by rewrite Hnone.
Qed.

Lemma cleaned_sublist (spans : list str) (content : str) :
  cleaned spans content `sublist_of` content.
Proof.
  unfold cleaned. etrans; [apply sub_blank_sublist|apply remove_all_sublist].
Qed.

Lemma insert_after_from_split (combined content : str) :
  ∃ a b, insert_after_from combined content = a ++ [nl] ++ combined ++ b
         ∧ a ++ b = content.
Proof.
  exists (Py.upto content (from_idx content)),
         (Py.from content (from_idx content)).
  split; [done|apply upto_from].
Qed.

(** ** The tokens of [split] *)

Lemma split_from_tokens (cur s : str) :
  Forall (λ c, Py.isspace c = false) cur →
  Forall (λ t, t ≠ [] ∧ Forall (λ c, Py.isspace c = false) t)
    (Py.split_from cur s).
Proof.
  revert cur. induction s as [|c s IH]; intros cur Hcur; cbn [Py.split_from].
  - destruct cur; [constructor|]. constructor; [done|constructor].
  - destruct (Py.isspace c) eqn:Ec.
    + destruct cur as [|a cur]; [by apply IH|].
      constructor; [done|]. by apply IH.
    + apply IH. apply Forall_app. split; [done|]. by constructor.
Qed.

Lemma first_payload_tokens (pat : Re.re) (cmd : str) :
  Forall (λ t, t ≠ [] ∧ Forall (λ c, Py.isspace c = false) t)
    (first_payload pat cmd).
Proof.
  unfold first_payload. destruct (Re.findall1 pat cmd); [constructor|].
  by apply split_from_tokens.
Qed.

(** X2: the package list a pass writes out is strictly ascending, so without
    repeats; it holds exactly the tokens of the first payload of each span;
    and each of its names is non-empty and free of white space. *)
Theorem package_list_invariants (pat : Re.re) (spans : list str) :
  StronglySorted Py.lt (Py.sorted (collect_packages pat spans))
  ∧ NoDup (Py.sorted (collect_packages pat spans))
  ∧ (∀ pkg, pkg ∈ Py.sorted (collect_packages pat spans)
            ↔ ∃ cmd, cmd ∈ spans ∧ pkg ∈ first_payload pat cmd)
  ∧ Forall (λ pkg, pkg ≠ [] ∧ Forall (λ c, Py.isspace c = false) pkg)
      (Py.sorted (collect_packages pat spans)).
Proof.
  split_and!.
  - apply sorted_ascending.
  - apply sorted_NoDup.
  - intros pkg. by rewrite elem_of_sorted, elem_of_collect_packages.
  - apply Forall_forall. intros pkg.
    rewrite elem_of_sorted, elem_of_collect_packages.
    intros (cmd & _ & Hpkg).
    by apply (proj1 (Forall_forall _ _) (first_payload_tokens pat cmd)).
Qed.

(** ** When a pass leaves the document alone *)

(** X3: the apt pass finds a span exactly when the text [RUN apt-get update]
    occurs in the document, and returns a document without it unchanged. *)
Theorem optimize_apt_commands_trigger (d : str) :
  (Re.findall0 apt_pattern d ≠ [] ↔ occurs (txt "RUN apt-get update") d)
  ∧ (¬ occurs (txt "RUN apt-get update") d → optimize_apt_commands d = d).
Proof.
  split; [apply findall0_apt_nonempty|].
  intros H. unfold optimize_apt_commands.
  destruct (Re.findall0 apt_pattern d) eqn:E; [done|].
  exfalso. apply H, findall0_apt_nonempty. by rewrite E.
Qed.

Lemma optimize_apt_commands_trigger_witness :
  ¬ occurs (txt "RUN apt-get update") Examples.pip_dockerfile
  ∧ optimize_apt_commands Examples.pip_dockerfile = Examples.pip_dockerfile.
Proof.
  assert (H : ¬ occurs (txt "RUN apt-get update") Examples.pip_dockerfile).
  { apply index_of_None. vm_compute. reflexivity. }
  split; [exact H|].
  exact (proj2 (optimize_apt_commands_trigger Examples.pip_dockerfile) H).
Defined.

(** X4: the pip pass finds a span exactly when [RUN pip install] or
    [RUN pip3 install] occurs in the document; on a document with neither
    it returns the document unchanged and writes no file. *)
Theorem optimize_pip_commands_trigger (d : str) (w : world) :
  (Re.findall0 pip_pattern d ≠ []
   ↔ occurs (txt "RUN pip install") d ∨ occurs (txt "RUN pip3 install") d)
  ∧ (¬ occurs (txt "RUN pip install") d →
     ¬ occurs (txt "RUN pip3 install") d →
     optimize_pip_commands d w = (Ok d, w)).
Proof.
  split; [apply findall0_pip_nonempty|].
  intros H1 H2. unfold optimize_pip_commands.
  destruct (Re.findall0 pip_pattern d) eqn:E; [done|].
  exfalso. assert (Hs : Re.findall0 pip_pattern d ≠ []) by (by rewrite E).
  apply findall0_pip_nonempty in Hs as [?|?]; done.
Qed.

Lemma optimize_pip_commands_trigger_witness :
  ¬ occurs (txt "RUN pip install") Examples.apt_dockerfile
  ∧ ¬ occurs (txt "RUN pip3 install") Examples.apt_dockerfile
  ∧ optimize_pip_commands Examples.apt_dockerfile Examples.empty_world
    = (Ok Examples.apt_dockerfile, Examples.empty_world).
Proof.
  assert (H1 : ¬ occurs (txt "RUN pip install") Examples.apt_dockerfile).
  { apply index_of_None. vm_compute. reflexivity. }
  assert (H2 : ¬ occurs (txt "RUN pip3 install") Examples.apt_dockerfile).
  { apply index_of_None. vm_compute. reflexivity. }
  split_and!; [exact H1|exact H2|].
  exact (proj2 (optimize_pip_commands_trigger Examples.apt_dockerfile
                  Examples.empty_world) H1 H2).
Defined.

(** X5: a document in which none of the texts [RUN apt-get update],
    [RUN pip install], [RUN pip3 install] and [COPY] occurs goes through the
    copy pass unchanged and through the four passes with nothing but the
    build-argument block put in front of it, and no file is written. *)
Theorem rewrite_without_keywords (d : str) (w : world) :
  ¬ occurs (txt "RUN apt-get update") d →
  ¬ occurs (txt "RUN pip install") d →
  ¬ occurs (txt "RUN pip3 install") d →
  ¬ occurs (txt "COPY") d →
  optimize_copy_commands d = (d, dockerignore_entries)
  ∧ rewrite d w = (Ok (build_args ++ d, dockerignore_entries), w).
Proof.
  intros Ha Hp Hp3 Hc.
  assert (Ea : Re.findall0 apt_pattern d = []).
  { destruct (Re.findall0 apt_pattern d) eqn:E; [done|].
    exfalso. apply Ha, findall0_apt_nonempty. by rewrite E. }
  assert (Ep : Re.findall0 pip_pattern d = []).
  { destruct (Re.findall0 pip_pattern d) eqn:E; [done|].
    exfalso. assert (Hs : Re.findall0 pip_pattern d ≠ []) by (by rewrite E).
    apply findall0_pip_nonempty in Hs as [?|?]; done. }
  assert (Ec : Re.findall2 copy_pattern d = []).
  { destruct (Re.findall2 copy_pattern d) eqn:E; [done|].
    exfalso. apply Hc, findall2_copy_nonempty. by rewrite E. }
  split.
  - unfold optimize_copy_commands. by rewrite Ec.
  - rewrite rewrite_run, rewrite_text_no_spans by done.
    unfold pip_world, optimize_apt_commands. by rewrite Ea, Ep.
Qed.

Lemma rewrite_without_keywords_witness :
  rewrite Examples.plain_dockerfile Examples.empty_world
  = (Ok (build_args ++ Examples.plain_dockerfile, dockerignore_entries),
     Examples.empty_world).
Proof.
  apply (rewrite_without_keywords Examples.plain_dockerfile
           Examples.empty_world);
    apply index_of_None; vm_compute; reflexivity.
Defined.

(** ** What the span passes do to the rest of the text *)

(** X6: the text left once the spans are taken out and the runs of line
    breaks are collapsed is the document with characters left out and
    nothing else changed; only line breaks are dropped by the collapse; no
    three line breaks in a row remain; and collapsing again changes
    nothing. *)
Theorem cleaned_text (spans : list str) (content : str) :
  cleaned spans content `sublist_of` content
  ∧ filter (λ c, c ≠ nl) (cleaned spans content)
    = filter (λ c, c ≠ nl) (remove_all spans content)
  ∧ (occurs [nl; nl; nl] (cleaned spans content) → False)
  ∧ Re.sub blank_run [nl; nl] (cleaned spans content) = cleaned spans content.
Proof.
  split_and!.
  - apply cleaned_sublist.
  - apply sub_blank_keeps_text.
  - apply sub_blank_no_triple.
  - apply sub_blank_idempotent.
Qed.

(** X7: when a span pass finds a span, what it returns is the cleaned text
    with a line break and the merged instruction put in at one place;
    nothing else of the text is moved or rewritten, with or without a
    [FROM]. *)
Theorem span_passes_only_insert (d : str) (w : world) :
  (Re.findall0 apt_pattern d ≠ [] →
   ∃ a b,
     optimize_apt_commands d
     = a ++ [nl]
         ++ apt_combined_command
              (collect_packages apt_pkg_pattern (Re.findall0 apt_pattern d))
         ++ b
     ∧ a ++ b = cleaned (Re.findall0 apt_pattern d) d
     ∧ a ++ b `sublist_of` d)
  ∧ (Re.findall0 pip_pattern d ≠ [] →
     ∃ a b,
       (optimize_pip_commands d w).1
       = Ok (a ++ [nl] ++ pip_combined_command ++ b)
       ∧ a ++ b = cleaned (Re.findall0 pip_pattern d) d
       ∧ a ++ b `sublist_of` d).
Proof.
  split; intros Hs.
  - rewrite optimize_apt_commands_spans by done.
    destruct (insert_after_from_split
                (apt_combined_command
                   (collect_packages apt_pkg_pattern
                      (Re.findall0 apt_pattern d)))
                (cleaned (Re.findall0 apt_pattern d) d)) as (a & b & H1 & H2).
    exists a, b. split_and!; [done|done|]. rewrite H2. apply cleaned_sublist.
  - rewrite optimize_pip_commands_run. cbn [fst].
    rewrite pip_text_spans by done.
    destruct (insert_after_from_split pip_combined_command
                (cleaned (Re.findall0 pip_pattern d) d)) as (a & b & H1 & H2).
    exists a, b. split_and!; [by rewrite H1|done|].
    rewrite H2. apply cleaned_sublist.
Qed.

Lemma span_passes_only_insert_witness :
  Re.findall0 apt_pattern Examples.apt_dockerfile ≠ []
  ∧ ∃ a b,
      optimize_apt_commands Examples.apt_dockerfile
      = a ++ [nl]
          ++ apt_combined_command
               (collect_packages apt_pkg_pattern
                  (Re.findall0 apt_pattern Examples.apt_dockerfile))
          ++ b
      ∧ a ++ b = cleaned (Re.findall0 apt_pattern Examples.apt_dockerfile)
                   Examples.apt_dockerfile
      ∧ a ++ b `sublist_of` Examples.apt_dockerfile.
Proof.
  assert (H : Re.findall0 apt_pattern Examples.apt_dockerfile ≠ [])
    by (vm_compute; discriminate).
  split; [exact H|].
  exact (proj1 (span_passes_only_insert Examples.apt_dockerfile
                  Examples.empty_world) H).
Defined.

(** X8: when the cleaned text has no [FROM], or has no line break after its
    first [FROM], the merged instruction is put in front of the last
    character of the text, whatever that character is. *)
Theorem splice_without_anchor_line (d : str) (w : world) :
  (∀ body c,
     Re.findall0 apt_pattern d ≠ [] →
     cleaned (Re.findall0 apt_pattern d) d = body ++ [c] →
     ¬ occurs (txt "FROM") (body ++ [c]) →
     optimize_apt_commands d
     = body ++ [nl]
         ++ apt_combined_command
              (collect_packages apt_pkg_pattern (Re.findall0 apt_pattern d))
         ++ [c])
  ∧ (∀ body c,
       Re.findall0 pip_pattern d ≠ [] →
       cleaned (Re.findall0 pip_pattern d) d = body ++ [c] →
       ¬ occurs (txt "FROM") (body ++ [c]) →
       (optimize_pip_commands d w).1
       = Ok (body ++ [nl] ++ pip_combined_command ++ [c]))
  ∧ (∀ pre line,
       Re.findall0 apt_pattern d ≠ [] →
       cleaned (Re.findall0 apt_pattern d) d = pre ++ txt "FROM" ++ line →
       Py.find (pre ++ txt "FROM" ++ line) (txt "FROM") 0
         = Z.of_nat (length pre) →
       nl ∉ line →
       ∃ body c,
         pre ++ txt "FROM" ++ line = body ++ [c]
         ∧ optimize_apt_commands d
           = body ++ [nl]
               ++ apt_combined_command
                    (collect_packages apt_pkg_pattern
                       (Re.findall0 apt_pattern d))
               ++ [c])
  ∧ (∀ pre line,
       Re.findall0 pip_pattern d ≠ [] →
       cleaned (Re.findall0 pip_pattern d) d = pre ++ txt "FROM" ++ line →
       Py.find (pre ++ txt "FROM" ++ line) (txt "FROM") 0
         = Z.of_nat (length pre) →
       nl ∉ line →
       ∃ body c,
         pre ++ txt "FROM" ++ line = body ++ [c]
         ∧ (optimize_pip_commands d w).1
           = Ok (body ++ [nl] ++ pip_combined_command ++ [c])).
Proof.
  split_and!.
  - intros body c Hs Hc Hf. rewrite optimize_apt_commands_spans, Hc by done.
    by apply insert_after_from_no_anchor.
  - intros body c Hs Hc Hf. rewrite optimize_pip_commands_run. cbn [fst].
    rewrite pip_text_spans, Hc by done. f_equal.
    by apply insert_after_from_no_anchor.
  - intros pre line Hs Hc Hf Hl.
    rewrite optimize_apt_commands_spans, Hc by done.
    by apply insert_after_from_open_line.
  - intros pre line Hs Hc Hf Hl.
    rewrite optimize_pip_commands_run. cbn [fst].
    rewrite pip_text_spans, Hc by done.
    destruct (insert_after_from_open_line pip_combined_command pre line Hf Hl)
      as (body & c & Hb & Hi).
    exists body, c. by rewrite Hi.
Qed.

Lemma splice_without_anchor_line_witness :
  Re.findall0 apt_pattern Examples.no_from_dockerfile ≠ []
  ∧ cleaned (Re.findall0 apt_pattern Examples.no_from_dockerfile)
      Examples.no_from_dockerfile
    = (nl :: txt "CMD sh") ++ [nl]
  ∧ ¬ occurs (txt "FROM") ((nl :: txt "CMD sh") ++ [nl])
  ∧ optimize_apt_commands Examples.no_from_dockerfile
    = (nl :: txt "CMD sh") ++ [nl]
        ++ apt_combined_command
             (collect_packages apt_pkg_pattern
                (Re.findall0 apt_pattern Examples.no_from_dockerfile))
        ++ [nl].
Proof.
  assert (H1 : Re.findall0 apt_pattern Examples.no_from_dockerfile ≠ [])
    by (vm_compute; discriminate).
  assert (H2 : cleaned (Re.findall0 apt_pattern Examples.no_from_dockerfile)
                 Examples.no_from_dockerfile
               = (nl :: txt "CMD sh") ++ [nl]) by (vm_compute; reflexivity).
  assert (H3 : ¬ occurs (txt "FROM") ((nl :: txt "CMD sh") ++ [nl])).
  { apply index_of_None. vm_compute. reflexivity. }
  split_and!; [exact H1|exact H2|exact H3|].
  exact (proj1 (splice_without_anchor_line Examples.no_from_dockerfile
                  Examples.empty_world) (nl :: txt "CMD sh") nl H1 H2 H3).
Defined.

(** ** The copy pass *)

(** X9: the groups of the copy pass are the destinations in the order in
    which each is first met, each with exactly the sources copied to it, in
    the order of the copies: no copy is lost, doubled or moved to another
    destination, no destination stands twice and no group is empty. *)
Theorem copy_groups_sources (cmds : list (str * str)) :
  copy_groups cmds
  = (λ d, (d, (filter (λ c, c.2 = d) cmds).*1)) <$> first_seen (cmds.*2)
  ∧ NoDup (copy_groups cmds).*1
  ∧ Forall (λ g, g.2 ≠ []) (copy_groups cmds)
  ∧ (∀ src dest, (src, dest) ∈ cmds
                 ↔ ∃ sources, (dest, sources) ∈ copy_groups cmds
                              ∧ src ∈ sources).
Proof.
  pose proof (copy_groups_partition cmds) as Hp.
  split_and!.
  - exact Hp.
  - rewrite Hp, <- list_fmap_compose.
    rewrite (list_fmap_ext _ id (first_seen cmds.*2)) by done.
    rewrite list_fmap_id. apply first_seen_NoDup.
  - rewrite Hp. apply Forall_fmap, Forall_forall.
    intros d Hd. apply (proj1 (elem_of_first_seen _ _)) in Hd. cbn.
    apply list_elem_of_fmap in Hd as ([s d'] & -> & Hin).
    intros E. apply fmap_nil_inv in E.
    assert (Hf : (s, d') ∈ filter (λ c : str * str, c.2 = (s, d').2) cmds)
      by (by apply list_elem_of_filter).
    rewrite E in Hf. by apply elem_of_nil in Hf.
  - intros src dest. rewrite Hp. split.
    + intros Hin. exists ((filter (λ c : str * str, c.2 = dest) cmds).*1).
      split.
      * apply list_elem_of_fmap. exists dest. split; [done|].
        apply elem_of_first_seen, list_elem_of_fmap. by exists (src, dest).
      * apply list_elem_of_fmap. exists (src, dest). split; [done|].
        by apply list_elem_of_filter.
    + intros (sources & (d & [= -> ->] & _)%list_elem_of_fmap & Hsrc).
      apply list_elem_of_fmap in Hsrc as ([s d'] & -> & Hf).
      apply list_elem_of_filter in Hf as [Hd Hin]. cbn in Hd. by subst d'.
Qed.

(** X10: when the copy pass finds a copy, it takes characters out of the
    document and puts the grouped instructions, each on a line of its own,
    at one place: at the end when the text [CMD] occurs nowhere in what is
    left, and otherwise right in front of its first occurrence, wherever
    that is. *)
Theorem copy_pass_placement (d : str) :
  Re.findall2 copy_pattern d ≠ [] →
  copy_removed d `sublist_of` d
  ∧ (¬ occurs (txt "CMD") (copy_removed d) →
     (optimize_copy_commands d).1
     = copy_removed d ++ copy_instructions d ++ [nl])
  ∧ (∀ a b,
       copy_removed d = a ++ txt "CMD" ++ b →
       Py.find (copy_removed d) (txt "CMD") 0 = Z.of_nat (length a) →
       (optimize_copy_commands d).1
       = a ++ copy_instructions d ++ [nl] ++ txt "CMD" ++ b).
Proof.
  intros Hs. split_and!.
  - apply copy_removed_sublist.
  - intros Hc. rewrite optimize_copy_commands_spans by done.
    destruct (copy_insert_point_none _ Hc) as [-> ->].
    by rewrite app_nil_r.
  - intros a b Hc Hf. rewrite optimize_copy_commands_spans by done.
    assert (Hi : copy_insert_point (copy_removed d) = Z.of_nat (length a)).
    { unfold copy_insert_point. rewrite Hf. rewrite decide_False by lia. done. }
    unfold Py.upto, Py.from. rewrite Hi, slice_bound_nat.
    + rewrite Hc. by rewrite take_app_length, drop_app_length.
    + rewrite Hc, length_app. lia.
Qed.

Lemma copy_pass_placement_witness :
  Re.findall2 copy_pattern Examples.copy_dockerfile ≠ []
  ∧ copy_removed Examples.copy_dockerfile
    = (txt "FROM ubuntu:latest" ++ [nl; nl; nl; nl]) ++ txt "CMD"
      ++ (txt " run" ++ [nl])
  ∧ (optimize_copy_commands Examples.copy_dockerfile).1
    = (txt "FROM ubuntu:latest" ++ [nl; nl; nl; nl])
      ++ copy_instructions Examples.copy_dockerfile ++ [nl] ++ txt "CMD"
      ++ (txt " run" ++ [nl]).
Proof.
  assert (H1 : Re.findall2 copy_pattern Examples.copy_dockerfile ≠ [])
    by (vm_compute; discriminate).
  assert (H2 : copy_removed Examples.copy_dockerfile
               = (txt "FROM ubuntu:latest" ++ [nl; nl; nl; nl]) ++ txt "CMD"
                 ++ (txt " run" ++ [nl])) by (vm_compute; reflexivity).
  split_and!; [exact H1|exact H2|].
  apply (proj2 (proj2 (copy_pass_placement Examples.copy_dockerfile H1))
           _ _ H2).
  vm_compute. reflexivity.
Defined.

(** ** The analysis *)

(** A text that is read holds no CR, and a text without CR is read as it
    is. *)
Lemma universal_newlines_no_cr (s : str) : cr ∉ Py.universal_newlines s.
Proof.
  assert (H : ∀ n s, length s ≤ n → cr ∉ Py.universal_newlines s).
  { clear s. induction n as [|n IH]; intros [|c t] Hlen; simpl in *;
      try (by intros ?%elem_of_nil); [lia|].
    assert (Ht : cr ∉ Py.universal_newlines t) by (apply IH; lia).
    destruct (Ascii.eqb_spec c cr) as [->|Hc].
    - destruct t as [|c' t'].
      + intros [?|?]%elem_of_cons; [done|by apply Ht].
      + destruct (Ascii.eqb_spec c' nl) as [->|Hc'].
        * intros [?|Hin]%elem_of_cons; [done|].
          revert Hin. apply IH. simpl in Hlen. lia.
        * intros [?|?]%elem_of_cons; [done|by apply Ht].
    - intros [?|?]%elem_of_cons; [congruence|by apply Ht]. }
  by apply (H (length s)).
Qed.

Lemma universal_newlines_plain (s : str) :
  cr ∉ s → Py.universal_newlines s = s.
Proof.
  induction s as [|c t IH]; intros Hs; [done|].
  apply not_elem_of_cons in Hs as [Hc Ht]. simpl.
  destruct (Ascii.eqb_spec c cr) as [->|_]; [done|]. by rewrite IH.
Qed.

Lemma analyze_run (llm : str → option AnalysisResult) (p : path) (w : world)
    (raw : str) :
  files w !! p = Some raw →
  analyze llm p w
  = ask llm (rewrite_text (Py.universal_newlines raw))
      (save_dockerignore p dockerignore_entries
         (pip_world (optimize_apt_commands (Py.universal_newlines raw)) w)).2.
Proof.
  intros Hp. unfold analyze, mbind, M_bind, read_file. rewrite Hp.
  rewrite rewrite_run.
  destruct (files (pip_world (optimize_apt_commands
                                (Py.universal_newlines raw)) w)
              !! dockerignore_path p) as [c|] eqn:Ed.
  - by rewrite save_dockerignore_present by (by rewrite Ed).
  - by rewrite save_dockerignore_absent by done.
Qed.

Lemma ask_world (llm : str → option AnalysisResult) (content : str)
    (w : world) :
  (ask llm content w).2 = w.
Proof. unfold ask. by destruct (llm content). Qed.

(** X11: [analyze_dockerfile] on a path with no file raises the wrapped
    [FileNotFoundError] and leaves every file as it was.  On a path with a
    file, the text put to the language model is what the four passes return
    for the file's content with its line ends read as LF; the method returns
    the model's result, or raises the wrapped error when the reply cannot be
    used.  In both cases the ignore file next to the Dockerfile exists
    afterwards; the Dockerfile itself still has its content, unless it is
    the working directory's [requirements.txt]; no file other than that
    [requirements.txt] and the ignore file is changed; and the environment
    and the working directory are as before. *)
Theorem analyze_dockerfile_effects (llm : str → option AnalysisResult)
    (p : path) (w : world) :
  (files w !! p = None →
   analyze_dockerfile llm p w
   = (Raised (AnalysisError (FileNotFoundError p)), w))
  ∧ (∀ raw,
       files w !! p = Some raw →
       (analyze_dockerfile llm p w).1
       = match llm (rewrite_text (Py.universal_newlines raw)) with
         | Some analysis => Ok analysis
         | None => Raised (AnalysisError ReplyError)
         end
       ∧ is_Some (files (analyze_dockerfile llm p w).2 !! dockerignore_path p)
       ∧ (p ≠ requirements_path w →
          files (analyze_dockerfile llm p w).2 !! p = Some raw)
       ∧ (∀ q, q ≠ requirements_path w → q ≠ dockerignore_path p →
               files (analyze_dockerfile llm p w).2 !! q = files w !! q)
       ∧ environ (analyze_dockerfile llm p w).2 = environ w
       ∧ cwd (analyze_dockerfile llm p w).2 = cwd w).
Proof.
  split.
  - intros Hp.
    unfold analyze_dockerfile, analyze, mbind, M_bind, read_file.
    by rewrite Hp.
  - intros raw Hp.
    assert (Hw : (analyze_dockerfile llm p w).2
                 = (save_dockerignore p dockerignore_entries
                      (pip_world (optimize_apt_commands
                                    (Py.universal_newlines raw)) w)).2).
    { unfold analyze_dockerfile. rewrite (analyze_run llm p w raw Hp).
      unfold ask. by destruct (llm _). }
    assert (Hr : (analyze_dockerfile llm p w).1
                 = match llm (rewrite_text (Py.universal_newlines raw)) with
                   | Some analysis => Ok analysis
                   | None => Raised (AnalysisError ReplyError)
                   end).
    { unfold analyze_dockerfile. rewrite (analyze_run llm p w raw Hp).
      unfold ask. by destruct (llm _). }
    rewrite Hw. split; [exact Hr|]. clear Hw Hr.
    set (w1 := pip_world (optimize_apt_commands (Py.universal_newlines raw)) w).
    assert (He : environ w1 = environ w) by apply pip_world_environ.
    assert (Hc : cwd w1 = cwd w) by apply pip_world_cwd.
    assert (Hf : ∀ q, q ≠ requirements_path w →
                 files w1 !! q = files w !! q).
    { intros q Hq. by apply pip_world_files_other. }
    destruct (files w1 !! dockerignore_path p) as [c|] eqn:Ed.
    + rewrite save_dockerignore_present by (by rewrite Ed).
      cbn [fst snd]. split_and!.
      * by rewrite Ed.
      * intros Hq. by rewrite Hf.
      * intros q Hq _. by apply Hf.
      * done.
      * done.
    + rewrite save_dockerignore_absent by done.
      cbn [fst snd files environ cwd]. split_and!.
      * rewrite lookup_insert_eq. by eexists.
      * intros Hq. rewrite lookup_insert_ne; [rewrite Hf by done; exact Hp|].
        intros E. rewrite E, Hf, Hp in Ed; [done|exact Hq].
      * intros q Hq Hq'. rewrite lookup_insert_ne by done. by apply Hf.
      * done.
      * done.
Qed.

Lemma analyze_dockerfile_effects_witness :
  files Examples.empty_world !! (Examples.home ++ ["Dockerfile"%string]) = None
  ∧ analyze_dockerfile ReportExamples.sample_llm
      (Examples.home ++ ["Dockerfile"%string]) Examples.empty_world
    = (Raised (AnalysisError
                 (FileNotFoundError (Examples.home ++ ["Dockerfile"%string]))),
       Examples.empty_world)
  ∧ files Examples.managed_world !! (Examples.home ++ ["Dockerfile"%string])
    = Some Examples.pip_dockerfile
  ∧ (analyze_dockerfile ReportExamples.sample_llm
       (Examples.home ++ ["Dockerfile"%string]) Examples.managed_world).1
    = Ok ReportExamples.sample_result
  ∧ (analyze_dockerfile ReportExamples.failing_llm
       (Examples.home ++ ["Dockerfile"%string]) Examples.managed_world).1
    = Raised (AnalysisError ReplyError).
Proof.
  assert (H1 : files Examples.empty_world
                 !! (Examples.home ++ ["Dockerfile"%string]) = None)
    by (vm_compute; reflexivity).
  assert (H2 : files Examples.managed_world
                 !! (Examples.home ++ ["Dockerfile"%string])
               = Some Examples.pip_dockerfile) by (vm_compute; reflexivity).
  split_and!; [exact H1| |exact H2| |].
  - exact (proj1 (analyze_dockerfile_effects ReportExamples.sample_llm
                    (Examples.home ++ ["Dockerfile"%string])
                    Examples.empty_world) H1).
  - exact (proj1 (proj2 (analyze_dockerfile_effects ReportExamples.sample_llm
                           (Examples.home ++ ["Dockerfile"%string])
                           Examples.managed_world) _ H2)).
  - exact (proj1 (proj2 (analyze_dockerfile_effects ReportExamples.failing_llm
                           (Examples.home ++ ["Dockerfile"%string])
                           Examples.managed_world) _ H2)).
Defined.

(** ** The report: sorting the issues *)

#[global] Instance key_le_total : Total key_le.
Proof.
  intros x y. unfold key_le.
  destruct (Z.lt_trichotomy (severity_rank x) (severity_rank y)) as [H|[H|H]];
    [by left; left| |by right; left].
  destruct (le_total (category x) (category y)); [left|right]; by right.
Qed.

#[global] Instance key_le_trans : Transitive key_le.
Proof.
  intros x y z [H1|[H1 H1']] [H2|[H2 H2']]; unfold key_le.
  - left. lia.
  - left. lia.
  - left. lia.
  - right. split; [lia|]. by etrans.
Qed.

Lemma key_le_refl (x : DockerfileIssue) : key_le x x.
Proof. right. split; [done|]. unfold Py.le. by rewrite cmp_refl. Qed.

Lemma insert_issue_Permutation (x : DockerfileIssue) (l : list DockerfileIssue) :
  insert_issue x l ≡ₚ x :: l.
Proof.
  induction l as [|y l IH]; simpl; [done|].
  case_decide; [done|]. rewrite IH. apply Permutation_swap.
Qed.

Lemma sorted_issues_Permutation (l : list DockerfileIssue) :
  sorted_issues l ≡ₚ l.
Proof.
  induction l as [|x l IH]; simpl; [done|].
  by rewrite insert_issue_Permutation, IH.
Qed.

Lemma insert_issue_sorted (x : DockerfileIssue) (l : list DockerfileIssue) :
  StronglySorted key_le l → StronglySorted key_le (insert_issue x l).
Proof.
  induction 1 as [|y l Hl IH Hy]; simpl.
  - by repeat constructor.
  - case_decide as Hxy.
    + constructor; [by constructor|]. constructor; [done|].
      eapply Forall_impl; [exact Hy|]. intros z Hz. by etrans.
    + constructor; [done|]. rewrite insert_issue_Permutation.
      constructor; [|done]. by destruct (total key_le x y).
Qed.

Lemma sorted_issues_sorted (l : list DockerfileIssue) :
  StronglySorted key_le (sorted_issues l).
Proof.
  induction l as [|x l IH]; simpl; [constructor|]. by apply insert_issue_sorted.
Qed.

Lemma insert_issue_filter_key (r : Z) (c : str) (x : DockerfileIssue)
    (l : list DockerfileIssue) :
  filter (λ i, severity_rank i = r ∧ category i = c) (insert_issue x l)
  = filter (λ i, severity_rank i = r ∧ category i = c) (x :: l).
Proof.
  induction l as [|y l IH]; simpl; [done|].
  case_decide as Hxy; [done|].
  rewrite filter_cons, IH, !filter_cons.
  destruct (decide (severity_rank y = r ∧ category y = c)) as [[Hy1 Hy2]|Hy];
    [|done].
  destruct (decide (severity_rank x = r ∧ category x = c)) as [[Hx1 Hx2]|Hx];
    [|done].
  exfalso. apply Hxy. right. split; [lia|]. rewrite Hx2, <- Hy2.
  unfold Py.le. by rewrite cmp_refl.
Qed.

Lemma sorted_issues_stable (r : Z) (c : str) (l : list DockerfileIssue) :
  filter (λ i, severity_rank i = r ∧ category i = c) (sorted_issues l)
  = filter (λ i, severity_rank i = r ∧ category i = c) l.
Proof.
  induction l as [|x l IH]; simpl; [done|].
  by rewrite insert_issue_filter_key, !filter_cons, IH.
Qed.

(** X12: the issues are reported in an order that is a rearrangement of the
    given list, ascending in the pair of the rank of the lower-cased severity
    (high, medium, low, anything else) and the category, and that keeps
    issues of equal rank and category in their given order. *)
Theorem sorted_issues_order (l : list DockerfileIssue) :
  sorted_issues l ≡ₚ l
  ∧ StronglySorted key_le (sorted_issues l)
  ∧ (∀ (r : Z) (c : str),
       filter (λ i, severity_rank i = r ∧ category i = c) (sorted_issues l)
       = filter (λ i, severity_rank i = r ∧ category i = c) l).
Proof.
  split_and!.
  - apply sorted_issues_Permutation.
  - apply sorted_issues_sorted.
  - intros r c. apply sorted_issues_stable.
Qed.

(** ** The loop over the sorted issues *)

Lemma report_issue_step (upper : str → str) (current_severity : option str)
    (report : str) (issue : DockerfileIssue) :
  report_issue upper (current_severity, report) issue
  = (Some (severity issue),
     report
     ++ (if decide (Some (severity issue) = current_severity) then []
         else severity_heading upper (severity issue))
     ++ issue_lines issue).
Proof.
  unfold report_issue.
  destruct (decide (Some (severity issue) = current_severity)) as [<-|Hne].
  - done.
  - by rewrite <- app_assoc.
Qed.

Lemma foldl_report_issue (upper : str → str) (l : list DockerfileIssue)
    (current_severity : option str) (report : str) :
  (foldl (report_issue upper) (current_severity, report) l).2
  = report ++ report_body upper current_severity l.
Proof.
  revert current_severity report.
  induction l as [|issue l IH]; intros cur rep; cbn [foldl report_body].
  - by rewrite app_nil_r.
  - rewrite report_issue_step, IH. by rewrite <- !app_assoc.
Qed.

Lemma generate_report_body (upper : str → str) (result : AnalysisResult) :
  generate_report upper result
  = report_head result
    ++ report_body upper None (sorted_issues (issues result)).
Proof. unfold generate_report. apply foldl_report_issue. Qed.

Lemma report_body_occurs (upper : str → str) (l : list DockerfileIssue)
    (current_severity : option str) (issue : DockerfileIssue) :
  issue ∈ l → occurs (issue_lines issue) (report_body upper current_severity l).
Proof.
  revert current_severity. induction l as [|x l IH]; intros cur Hin.
  - by apply elem_of_nil in Hin.
  - cbn [report_body]. apply elem_of_cons in Hin as [->|Hin].
    + apply occurs_app_r, occurs_app_l, occurs_refl.
    + apply occurs_app_r, occurs_app_r. by apply IH.
Qed.

(** X13: the report starts with the fixed head that carries the scores and
    the metrics, and the lines of every issue of the result stand in it. *)
Theorem generate_report_complete (upper : str → str)
    (result : AnalysisResult) :
  (∃ rest, generate_report upper result = report_head result ++ rest)
  ∧ (∀ issue : DockerfileIssue,
       issue ∈ issues result →
       occurs (issue_lines issue) (generate_report upper result)).
Proof.
  rewrite generate_report_body. split; [by eexists|].
  intros issue Hin. apply occurs_app_r, report_body_occurs.
  by rewrite sorted_issues_Permutation.
Qed.

Lemma generate_report_complete_witness :
  Issue (txt "high") (txt "user") (txt "runs as root")
    (txt "add a USER instruction") (Some 9%Z)
    ∈ issues ReportExamples.sample_result
  ∧ occurs
      (issue_lines
         (Issue (txt "high") (txt "user") (txt "runs as root")
            (txt "add a USER instruction") (Some 9%Z)))
      (generate_report ReportExamples.upper_ascii ReportExamples.sample_result).
Proof.
  assert (H : Issue (txt "high") (txt "user") (txt "runs as root")
                (txt "add a USER instruction") (Some 9%Z)
              ∈ issues ReportExamples.sample_result).
  { simpl. apply list_elem_of_further, list_elem_of_here. }
  split; [exact H|].
  exact (proj2 (generate_report_complete ReportExamples.upper_ascii
                  ReportExamples.sample_result) _ H).
Defined.

Lemma report_body_app (upper : str → str) (l1 l2 : list DockerfileIssue)
    (current_severity : option str) :
  report_body upper current_severity (l1 ++ l2)
  = report_body upper current_severity l1
    ++ report_body upper
         (match last l1 with
          | Some i => Some (severity i)
          | None => current_severity
          end) l2.
Proof.
  revert current_severity. induction l1 as [|x l1 IH]; intros cur; [done|].
  cbn [app report_body]. rewrite (IH (Some (severity x))).
  rewrite <- !app_assoc. do 4 f_equal.
  destruct l1 as [|y l1]; [done|]. rewrite last_cons_cons.
  destruct (last (y :: l1)) eqn:E; [done|]. by apply last_None in E.
Qed.

(** A run of issues of one severity gets one heading, at its start. *)
Lemma report_body_group (upper : str → str) (sev : str)
    (g : list DockerfileIssue) (current_severity : option str) :
  Forall (λ i, severity i = sev) g →
  report_body upper current_severity g
  = match g with
    | [] => []
    | _ => (if decide (Some sev = current_severity) then []
            else severity_heading upper sev)
           ++ concat (issue_lines <$> g)
    end.
Proof.
  intros Hg. revert current_severity.
  induction Hg as [|x g Hx Hg IH]; intros cur; [done|].
  cbn [report_body]. rewrite Hx, IH. f_equal.
  cbn [fmap list_fmap concat]. f_equal.
  destruct g as [|y g]; [done|]. by rewrite decide_True.
Qed.

(** ** Sections of the report *)

Lemma report_body_section (upper : str → str) (sev : str)
    (g rest : list DockerfileIssue) (current_severity : option str) :
  Forall (λ i, severity i = sev) g →
  current_severity ≠ Some sev →
  report_body upper current_severity (g ++ rest)
  = section_text upper sev g
    ++ report_body upper
         (match g with [] => current_severity | _ => Some sev end) rest.
Proof.
  intros Hg Hcur. rewrite report_body_app. f_equal.
  - rewrite (report_body_group upper sev g current_severity Hg).
    destruct g; [done|]. unfold section_text. by rewrite decide_False.
  - f_equal. destruct g as [|x g]; [done|].
    destruct (last (x :: g)) as [i|] eqn:E.
    + apply last_Some_elem_of in E.
      by rewrite (proj1 (Forall_forall _ _) Hg i E).
    + by apply last_None in E.
Qed.

(** A list sorted by a key with values 1, 2 and 3 is its three classes, one
    after the other. *)
Lemma sorted_three_classes (l : list DockerfileIssue) :
  StronglySorted key_le l →
  Forall (λ i, (1 <= severity_rank i <= 3)%Z) l →
  l = filter (λ i, severity_rank i = 1%Z) l
      ++ filter (λ i, severity_rank i = 2%Z) l
      ++ filter (λ i, severity_rank i = 3%Z) l.
Proof.
  induction 1 as [|x l Hl IH Hx]; intros Hr; [done|].
  apply Forall_cons in Hr as [Hrx Hr]. specialize (IH Hr).
  assert (Hge : Forall (λ i, (severity_rank x <= severity_rank i)%Z) l).
  { eapply Forall_impl; [exact Hx|]. intros y [Hlt|[Heq _]]; lia. }
  assert (Hnil : ∀ k, (k < severity_rank x)%Z →
            filter (λ i, severity_rank i = k) l = []).
  { intros k Hk. apply filter_none.
    eapply Forall_impl; [exact Hge|]. intros y Hy Heq. cbn in Hy. lia. }
  rewrite !filter_cons.
  destruct (decide (severity_rank x = 1%Z)) as [E1|N1].
  { rewrite !decide_False by lia. cbn [app]. by f_equal. }
  destruct (decide (severity_rank x = 2%Z)) as [E2|N2].
  { rewrite decide_False by lia. rewrite (Hnil 1%Z) by lia.
    cbn [app]. f_equal. rewrite IH at 1. by rewrite (Hnil 1%Z) by lia. }
  rewrite decide_True by lia. rewrite (Hnil 1%Z), (Hnil 2%Z) by lia.
  cbn [app]. f_equal. rewrite IH at 1. by rewrite (Hnil 1%Z), (Hnil 2%Z) by lia.
Qed.

Lemma filter_ext_Forall {A} (P Q : A → Prop) `{!∀ x, Decision (P x)}
    `{!∀ x, Decision (Q x)} (l : list A) :
  Forall (λ x, P x ↔ Q x) l → filter P l = filter Q l.
Proof.
  induction 1 as [|x l Hx _ IH]; [done|].
  rewrite !filter_cons, IH. destruct (decide (P x)), (decide (Q x)); tauto.
Qed.

Lemma severity_rank_canonical (issue : DockerfileIssue) :
  canonical issue →
  (1 <= severity_rank issue <= 3)%Z
  ∧ (severity_rank issue = 1%Z ↔ severity issue = txt "high")
  ∧ (severity_rank issue = 2%Z ↔ severity issue = txt "medium")
  ∧ (severity_rank issue = 3%Z ↔ severity issue = txt "low").
Proof.
  unfold canonical, severity_rank. rewrite !elem_of_cons, elem_of_nil.
  intros [E|[E|[E|[]]]]; rewrite E; vm_compute; split_and!; try done;
    split; intros H; try done; discriminate H.
Qed.

Lemma report_body_three (upper : str → str) (s1 s2 s3 : str)
    (g1 g2 g3 : list DockerfileIssue) :
  s1 ≠ s2 → s1 ≠ s3 → s2 ≠ s3 →
  Forall (λ i, severity i = s1) g1 →
  Forall (λ i, severity i = s2) g2 →
  Forall (λ i, severity i = s3) g3 →
  report_body upper None (g1 ++ g2 ++ g3)
  = section_text upper s1 g1 ++ section_text upper s2 g2
    ++ section_text upper s3 g3.
Proof.
  intros H12 H13 H23 Hg1 Hg2 Hg3.
  rewrite (report_body_section upper s1 g1 _ None Hg1) by done. f_equal.
  rewrite (report_body_section upper s2 g2 _ _ Hg2)
    by (destruct g1; congruence). f_equal.
  rewrite <- (app_nil_r g3) at 1.
  rewrite (report_body_section upper s3 g3 _ _ Hg3)
    by (destruct g1, g2; congruence).
  cbn [report_body]. by rewrite app_nil_r.
Qed.

Lemma filter_Forall {A} (P : A → Prop) `{!∀ x, Decision (P x)} (l : list A) :
  Forall P (filter P l).
Proof. apply Forall_forall. by intros x [? _]%list_elem_of_filter. Qed.

(** X14: with the three severities the report orders, the report is its head and
    then one section for each severity that occurs, high, medium, low. *)
Theorem generate_report_sections (upper : str → str) (result : AnalysisResult) :
  Forall canonical (issues result) →
  generate_report upper result
  = report_head result
    ++ severity_section upper (txt "high") (sorted_issues (issues result))
    ++ severity_section upper (txt "medium") (sorted_issues (issues result))
    ++ severity_section upper (txt "low") (sorted_issues (issues result)).
Proof.
  intros Hc. rewrite generate_report_body. f_equal.
  assert (Hs : Forall canonical (sorted_issues (issues result))).
  { by rewrite sorted_issues_Permutation. }
  set (S := sorted_issues (issues result)) in *.
  assert (Hr : Forall (λ i, (1 <= severity_rank i <= 3)%Z) S).
  { eapply Forall_impl; [exact Hs|]. intros i Hi.
    by destruct (severity_rank_canonical i Hi). }
  pose proof (sorted_three_classes S (sorted_issues_sorted _) Hr) as HS.
  assert (H1 : filter (λ i, severity_rank i = 1%Z) S
               = filter (λ i, severity i = txt "high") S).
  { apply filter_ext_Forall. eapply Forall_impl; [exact Hs|]. intros i Hi.
    by destruct (severity_rank_canonical i Hi) as (_ & ? & _). }
  assert (H2 : filter (λ i, severity_rank i = 2%Z) S
               = filter (λ i, severity i = txt "medium") S).
  { apply filter_ext_Forall. eapply Forall_impl; [exact Hs|]. intros i Hi.
    by destruct (severity_rank_canonical i Hi) as (_ & _ & ? & _). }
  assert (H3 : filter (λ i, severity_rank i = 3%Z) S
               = filter (λ i, severity i = txt "low") S).
  { apply filter_ext_Forall. eapply Forall_impl; [exact Hs|]. intros i Hi.
    by destruct (severity_rank_canonical i Hi) as (_ & _ & _ & ?). }
  rewrite H1, H2, H3 in HS. rewrite HS at 1. unfold severity_section.
  apply report_body_three; try done; apply filter_Forall.
Qed.

Lemma generate_report_sections_witness :
  Forall canonical (issues ReportExamples.sample_result)
  ∧ generate_report ReportExamples.upper_ascii ReportExamples.sample_result
    = report_head ReportExamples.sample_result
      ++ severity_section ReportExamples.upper_ascii (txt "high")
           (sorted_issues (issues ReportExamples.sample_result))
      ++ severity_section ReportExamples.upper_ascii (txt "medium")
           (sorted_issues (issues ReportExamples.sample_result))
      ++ severity_section ReportExamples.upper_ascii (txt "low")
           (sorted_issues (issues ReportExamples.sample_result)).
Proof.
  assert (H : Forall canonical (issues ReportExamples.sample_result)).
  { unfold canonical. apply (bool_decide_unpack _). vm_compute. exact I. }
  split; [exact H|].
  exact (generate_report_sections ReportExamples.upper_ascii
           ReportExamples.sample_result H).
Defined.

(** ** What the copy scanner returns *)

Lemma greedy_consumes (p : ascii → bool) (k : str → option Re.outcome)
    (s : str) (o : Re.outcome) :
  Re.greedy p k s = Some o →
  ∃ u s', s = u ++ s' ∧ Forall (λ c, p c = true) u ∧ k s' = Some o.
Proof.
  induction s as [|c t IH]; simpl.
  - intros H. by exists [], [].
  - destruct (p c) eqn:Ec.
    + destruct (Re.greedy p k t) as [o'|] eqn:E.
      * intros [= <-]. destruct (IH eq_refl) as (u & s' & -> & Hu & Hk).
        exists (c :: u), s'. split_and!; [done|by constructor|done].
      * intros H. by exists [], (c :: t).
    + intros H. by exists [], (c :: t).
Qed.

Lemma lazy_consumes (p : ascii → bool) (k : str → option Re.outcome)
    (s : str) (o : Re.outcome) :
  Re.lazy p k s = Some o →
  ∃ u s', s = u ++ s' ∧ Forall (λ c, p c = true) u ∧ k s' = Some o.
Proof.
  induction s as [|c t IH]; simpl.
  - destruct (k []) eqn:E; [|done]. intros [= <-]. by exists [], [].
  - destruct (k (c :: t)) eqn:E.
    + intros [= <-]. by exists [], (c :: t).
    + destruct (p c) eqn:Ec; [|done]. intros H.
      destruct (IH H) as (u & s' & -> & Hu & Hk).
      exists (c :: u), s'. split_and!; [done|by constructor|done].
Qed.

Lemma one_consumes (p : ascii → bool) (k : str → option Re.outcome)
    (s : str) (o : Re.outcome) :
  Re.one p k s = Some o → ∃ c s', s = c :: s' ∧ p c = true ∧ k s' = Some o.
Proof.
  destruct s as [|c t]; simpl; [done|].
  destruct (p c) eqn:Ec; [|done]. intros H. by exists c, t.
Qed.

(** [c+] and [c+?] take a non-empty run of the class. *)
Lemma plus_consumes (p : ascii → bool) (k : str → option Re.outcome)
    (s : str) (o : Re.outcome) :
  Re.one p (Re.greedy p k) s = Some o →
  ∃ u s', s = u ++ s' ∧ u ≠ [] ∧ Forall (λ c, p c = true) u ∧ k s' = Some o.
Proof.
  intros (c & s1 & -> & Hc & (u & s' & -> & Hu & Hk)%greedy_consumes)%one_consumes.
  exists (c :: u), s'. split_and!; [done|done|by constructor|done].
Qed.

Lemma lazy_plus_consumes (p : ascii → bool) (k : str → option Re.outcome)
    (s : str) (o : Re.outcome) :
  Re.one p (Re.lazy p k) s = Some o →
  ∃ u s', s = u ++ s' ∧ u ≠ [] ∧ Forall (λ c, p c = true) u ∧ k s' = Some o.
Proof.
  intros (c & s1 & -> & Hc & (u & s' & -> & Hu & Hk)%lazy_consumes)%one_consumes.
  exists (c :: u), s'. split_and!; [done|done|by constructor|done].
Qed.

Lemma take_consumed (u s' : str) :
  take (length (u ++ s') - length s') (u ++ s') = u.
Proof.
  rewrite length_app.
  replace (length u + length s' - length s') with (length u) by lia.
  apply take_app_length.
Qed.

(** A match of the copy pattern, taken apart. *)
Lemma match_at_copy_shape (s m : str) (caps : list str) :
  Re.match_at copy_pattern s = Some (m, caps) →
  ∃ ws1 src ws2 dest trail,
    m = txt "COPY" ++ ws1 ++ src ++ ws2 ++ dest ++ trail ++ [nl]
    ∧ caps = [src; dest]
    ∧ ws1 ≠ [] ∧ Forall (λ c, Py.isspace c = true) ws1
    ∧ src ≠ [] ∧ (nl ∉ src)
    ∧ ws2 ≠ [] ∧ Forall (λ c, Py.isspace c = true) ws2
    ∧ dest ≠ [] ∧ (nl ∉ dest)
    ∧ Forall (λ c, Py.isspace c = true ∨ c = bslash) trail.
Proof.
  unfold Re.match_at, copy_pattern. cbn [Re.run].
  destruct (Py.strip_prefix (txt "COPY") s) as [s1|] eqn:E0; [|done].
  apply strip_prefix_app in E0 as ->.
  match goal with
  | |- match ?x with _ => _ end = _ → _ => destruct x as [[s' caps']|] eqn:E
  end; [|done].
  intros [= <- <-].
  apply plus_consumes in E as (ws1 & s2 & -> & Hws1 & Fws1 & E).
  apply lazy_plus_consumes in E as (src & s3 & -> & Hsrc & Fsrc & E).
  apply plus_consumes in E as (ws2 & s4 & -> & Hws2 & Fws2 & E).
  apply lazy_plus_consumes in E as (dest & s5 & -> & Hdest & Fdest & E).
  apply greedy_consumes in E as (trail & s6 & -> & Ftrail & E).
  destruct (Py.strip_prefix [nl] s6) as [rest|] eqn:E7; [|done].
  apply strip_prefix_app in E7 as ->.
  injection E as Hs Hcaps. subst s' caps'.
  exists ws1, src, ws2, dest, trail.
  assert (Hdot : ∀ u : str, Forall (λ c, Re.dot c = true) u → nl ∉ u).
  { intros u Hu Hin. rewrite Forall_forall in Hu. specialize (Hu nl Hin).
    unfold Re.dot in Hu. by rewrite Ascii.eqb_refl in Hu. }
  split_and!; try done.
  - rewrite <- (take_consumed
                   (txt "COPY" ++ ws1 ++ src ++ ws2 ++ dest ++ trail ++ [nl])
                   rest).
    by rewrite <- !app_assoc.
  - cbn [app]. f_equal; [|f_equal].
    + apply take_consumed.
    + apply take_consumed.
  - by apply Hdot.
  - by apply Hdot.
  - eapply Forall_impl; [exact Ftrail|]. intros c Hc. unfold Re.space_or_bslash in Hc.
    apply orb_true_iff in Hc as [Hc|Hc]; [by left|right].
    by apply Ascii.eqb_eq in Hc.
Qed.

(** X15: every pair the copy scanner returns comes from a place of the
    document of the shape [COPY], white space, the source, white space, the
    destination, white space or backslashes, line break, where white space
    is what [\s] matches.  Source and destination are not empty and hold no
    line break. *)
Theorem copy_scanner_fields (d src dest : str) :
  (src, dest) ∈ Re.findall2 copy_pattern d →
  src ≠ [] ∧ dest ≠ [] ∧ (nl ∉ src) ∧ (nl ∉ dest)
  ∧ ∃ ws1 ws2 trail,
      occurs (txt "COPY" ++ ws1 ++ src ++ ws2 ++ dest ++ trail ++ [nl]) d
      ∧ ws1 ≠ [] ∧ Forall (λ c, Py.isspace c = true) ws1
      ∧ ws2 ≠ [] ∧ Forall (λ c, Py.isspace c = true) ws2
      ∧ Forall (λ c, Py.isspace c = true ∨ c = bslash) trail.
Proof.
  unfold Re.findall2, Re.finditer.
  intros ([m caps] & Hpair & Hin)%list_elem_of_fmap.
  apply finditer_from_match in Hin as (a & b & Hd & Hm). cbn [fst] in *.
  destruct (match_at_prefix _ _ _ _ Hm) as (s' & Hs').
  apply match_at_copy_shape in Hm
    as (ws1 & src' & ws2 & dest' & trail & Hm & -> & H1 & H2 & H3 & H4 & H5
        & H6 & H7 & H8 & H9).
  cbn [snd] in Hpair. injection Hpair as -> ->.
  split_and!; try done.
  exists ws1, ws2, trail. split_and!; try done.
  exists a, b. by rewrite <- Hm.
Qed.

Lemma copy_scanner_fields_witness :
  (txt "a.txt", txt "/x") ∈ Re.findall2 copy_pattern Examples.copy_dockerfile
  ∧ txt "a.txt" ≠ [] ∧ txt "/x" ≠ [].
Proof.
  assert (H : (txt "a.txt", txt "/x")
              ∈ Re.findall2 copy_pattern Examples.copy_dockerfile).
  { vm_compute. apply list_elem_of_here. }
  split; [exact H|].
  destruct (copy_scanner_fields Examples.copy_dockerfile (txt "a.txt")
              (txt "/x") H) as (H1 & H2 & _).
  exact (conj H1 H2).
Defined.

(** ** The first payload of an install line *)

Lemma greedy_longest (p : ascii → bool) (k : str → option Re.outcome)
    (u s' : str) (o : Re.outcome) :
  Forall (λ c, p c = true) u →
  (∀ c, head s' = Some c → p c = false) →
  k s' = Some o →
  Re.greedy p k (u ++ s') = Some o.
Proof.
  intros Hu Hs Hk. induction Hu as [|c u Hc Hu IH]; cbn [app].
  - destruct s' as [|c t]; simpl; [done|].
    by rewrite (Hs c eq_refl).
  - simpl. by rewrite Hc, IH.
Qed.

Lemma greedy_some (p : ascii → bool) (k : str → option Re.outcome)
    (u s' : str) :
  Forall (λ c, p c = true) u → is_Some (k s') →
  is_Some (Re.greedy p k (u ++ s')).
Proof.
  intros Hu Hk. induction Hu as [|c u Hc Hu IH]; cbn [app].
  - destruct s' as [|c t]; simpl; [done|]. destruct (p c); [|done].
    destruct (Re.greedy p k t); [by eexists|done].
  - simpl. rewrite Hc. destruct IH as [o ->]. by eexists.
Qed.

Lemma greedy_none (p : ascii → bool) (k : str → option Re.outcome) (s : str) :
  (∀ u s', s = u ++ s' → Forall (λ c, p c = true) u → k s' = None) →
  Re.greedy p k s = None.
Proof.
  induction s as [|c t IH]; intros Hk; simpl.
  - by apply (Hk [] []).
  - destruct (p c) eqn:Ec; [|by apply (Hk [] (c :: t))].
    rewrite IH; [by apply (Hk [] (c :: t))|].
    intros u s' -> Hu. apply (Hk (c :: u) s'); [done|by constructor].
Qed.

Lemma lazy_first (p : ascii → bool) (k : str → option Re.outcome)
    (u s' : str) :
  Forall (λ c, p c = true) u →
  (∀ u1 c u2, u = u1 ++ c :: u2 → k (c :: u2 ++ s') = None) →
  Re.lazy p k (u ++ s') = Re.lazy p k s'.
Proof.
  intros Hu. induction Hu as [|c u Hc Hu IH]; intros Hmin; [done|].
  cbn [app]. simpl. rewrite (Hmin [] c u eq_refl), Hc.
  apply IH. intros u1 c' u2 ->. by apply (Hmin (c :: u1) c' u2).
Qed.

Lemma lazy_here (p : ascii → bool) (k : str → option Re.outcome)
    (s : str) (o : Re.outcome) :
  k s = Some o → Re.lazy p k s = Some o.
Proof. intros Hk. destruct s; simpl; by rewrite Hk. Qed.

Lemma greedy_outcome (p : ascii → bool) (k : str → option Re.outcome)
    (P : Re.outcome → Prop) (s : str) (o : Re.outcome) :
  (∀ s' o', k s' = Some o' → P o') → Re.greedy p k s = Some o → P o.
Proof.
  intros Hk. induction s as [|c t IH]; simpl.
  - apply Hk.
  - destruct (p c); [|apply Hk].
    destruct (Re.greedy p k t) as [o'|] eqn:E; [|apply Hk].
    intros [= <-]. by apply IH.
Qed.

(** What follows the names of an install line lets the pattern end. *)
Lemma line_end_matches (trail more : str) (caps : list str) :
  Forall (λ c, Re.space_or_bslash c = true) trail →
  ∃ s', Re.greedy Re.space_or_bslash
          (λ s, match Py.strip_prefix [nl] s with
                | Some s'' => Some (s'', caps)
                | None => None
                end)
          (trail ++ nl :: more) = Some (s', caps).
Proof.
  intros Ht.
  destruct (greedy_some Re.space_or_bslash
              (λ s, match Py.strip_prefix [nl] s with
                    | Some s'' => Some (s'', caps)
                    | None => None
                    end) trail (nl :: more) Ht) as [[s' caps'] E].
  { cbn [Py.strip_prefix]. rewrite Ascii.eqb_refl. by eexists. }
  exists s'. rewrite E. f_equal. f_equal.
  apply (greedy_outcome _ _ (λ o, o.2 = caps) _ _) in E; [done|].
  intros s1 o'. destruct (Py.strip_prefix [nl] s1); [|done].
  by intros [= <-].
Qed.

(** Inside the names the pattern cannot end. *)
Lemma line_end_fails (c : ascii) (u2 trail more : str) (caps : list str) :
  nl ∉ c :: u2 →
  (∀ x, last (c :: u2) = Some x → Re.space_or_bslash x = false) →
  Re.greedy Re.space_or_bslash
    (λ s, match Py.strip_prefix [nl] s with
          | Some s'' => Some (s'', caps)
          | None => None
          end)
    (c :: u2 ++ trail ++ nl :: more) = None.
Proof.
  intros Hnl Hlast. apply greedy_none. intros u s' Hs Hu.
  destruct s' as [|x s']; [done|]. cbn [Py.strip_prefix].
  destruct (Ascii.eqb_spec nl x) as [<-|Hx]; [|done]. exfalso.
  change (c :: u2 ++ trail ++ nl :: more)
    with ((c :: u2) ++ trail ++ nl :: more) in Hs.
  apply app_eq_app in Hs as [l [[Hl1 Hl2]|[Hl1 Hl2]]].
  - (* the names reach past [u]: the line break is among them *)
    destruct l as [|y l].
    + rewrite app_nil_r in Hl1.
      destruct (last (c :: u2)) as [z|] eqn:Ez; [|by apply last_None in Ez].
      pose proof (Hlast z eq_refl) as Hz.
      rewrite Hl1 in Ez. apply last_Some_elem_of in Ez.
      rewrite Forall_forall in Hu. rewrite (Hu z Ez) in Hz. done.
    + cbn [app] in Hl2. injection Hl2 as <- _.
      apply Hnl. rewrite Hl1. apply elem_of_app. right. apply list_elem_of_here.
  - (* [u] reaches past the names: their last character is in the class *)
    destruct (last (c :: u2)) as [z|] eqn:Ez; [|by apply last_None in Ez].
    pose proof (Hlast z eq_refl) as Hz.
    apply last_Some_elem_of in Ez.
    rewrite Forall_forall in Hu.
    rewrite (Hu z) in Hz; [done|]. rewrite Hl1. apply elem_of_app. by left.
Qed.

Lemma dot_no_newline (u : str) : nl ∉ u → Forall (λ c, Re.dot c = true) u.
Proof.
  intros Hu. apply Forall_forall. intros c Hc. unfold Re.dot.
  destruct (Ascii.eqb_spec c nl) as [->|_]; done.
Qed.

(** On an install line the pattern matches at the install words and its
    group is the names. *)
Lemma run_payload_pattern (l ws payload trail more : str) :
  install_line ws payload trail →
  ∃ s', Re.run (payload_pattern l)
          (l ++ ws ++ payload ++ trail ++ nl :: more) []
          (λ s' caps, Some (s', caps))
        = Some (s', [payload]).
Proof.
  intros (Hws & Fws & (Hp & Hnl & Hhead & Hlast) & Ftrail).
  unfold payload_pattern. cbn [Re.run]. rewrite strip_prefix_here.
  destruct ws as [|c0 ws]; [done|]. apply Forall_cons in Fws as [Hc0 Fws].
  cbn [app]. unfold Re.one at 1. unfold Re.space at 1. rewrite Hc0.
  destruct payload as [|c1 p']; [done|].
  destruct (line_end_matches trail more [c1 :: p'] Ftrail) as [s' Hend].
  exists s'.
  apply greedy_longest; [done| |].
  { intros c [= <-]. by apply Hhead. }
  cbn [app]. unfold Re.one.
  assert (Hc1 : Re.dot c1 = true).
  { unfold Re.dot. destruct (Ascii.eqb_spec c1 nl) as [->|_]; [|done].
    exfalso. apply Hnl, list_elem_of_here. }
  rewrite Hc1.
  rewrite lazy_first.
  - apply lazy_here.
    change (c1 :: p' ++ trail ++ nl :: more)
      with ((c1 :: p') ++ trail ++ nl :: more).
    rewrite take_consumed. exact Hend.
  - apply dot_no_newline. intros Hin. apply Hnl. by apply list_elem_of_further.
  - intros u1 c u2 Hp'. apply line_end_fails.
    + intros Hin. apply Hnl. rewrite Hp'. apply list_elem_of_further.
      apply elem_of_app. by right.
    + intros x Hx. apply Hlast. rewrite Hp'.
      change (c1 :: u1 ++ c :: u2) with ((c1 :: u1) ++ c :: u2).
      by rewrite last_app, Hx.
Qed.

(** ** The scan up to the first install words *)

Lemma startswith_occurs (s x : str) :
  Py.startswith s x = true → ∃ b, s = x ++ b.
Proof.
  unfold Py.startswith. destruct (Py.strip_prefix x s) as [b|] eqn:E; [|done].
  intros _. exists b. by apply strip_prefix_app.
Qed.

(** A pattern that starts with literal text matches nowhere in front of the
    first occurrence of that text. *)
Lemma finditer_from_first (l : str) (r : Re.re) (head s : str) :
  Py.index_of l (head ++ s) = Some (length head) →
  Re.finditer_from (Re.Seq (Re.Lit l) r) 0 (head ++ s)
  = Re.finditer_from (Re.Seq (Re.Lit l) r) 0 s.
Proof.
  induction head as [|c head IH]; [done|].
  cbn [app length]. rewrite index_of_cons.
  destruct (Py.startswith (c :: head ++ s) l) eqn:E; [done|].
  destruct (Py.index_of l (head ++ s)) as [i|] eqn:Ei; [|done].
  intros [= ->]. cbn [Re.finditer_from].
  assert (Hm : Re.match_at (Re.Seq (Re.Lit l) r) (c :: head ++ s) = None).
  { unfold Re.match_at. cbn [Re.run]. unfold Py.startswith in E.
    by destruct (Py.strip_prefix l (c :: head ++ s)). }
  rewrite Hm. by apply IH.
Qed.

(** The first payload of a span whose first install words open an install
    line is the list of the names on that line. *)
Lemma first_payload_install_line (l head ws payload trail more : str) :
  Py.find (head ++ l ++ ws ++ payload ++ trail ++ nl :: more) l 0
    = Z.of_nat (length head) →
  install_line ws payload trail →
  first_payload (payload_pattern l)
    (head ++ l ++ ws ++ payload ++ trail ++ nl :: more)
  = Py.split payload.
Proof.
  intros Hfind Hline.
  assert (Hidx : Py.index_of l (head ++ l ++ ws ++ payload ++ trail ++ nl :: more)
                 = Some (length head)).
  { rewrite find_from_start in Hfind.
    destruct (Py.index_of l _) as [i|]; [f_equal; lia|lia]. }
  unfold first_payload, Re.findall1, Re.finditer.
  unfold payload_pattern at 1.
  rewrite (finditer_from_first l _ head _ Hidx).
  fold (payload_pattern l).
  destruct (run_payload_pattern l ws payload trail more Hline) as [s' Hrun].
  assert (Hm : ∃ m, Re.match_at (payload_pattern l)
                      (l ++ ws ++ payload ++ trail ++ nl :: more)
                    = Some (m, [payload])).
  { unfold Re.match_at. rewrite Hrun. by eexists. }
  destruct Hm as [m Hm].
  destruct (l ++ ws ++ payload ++ trail ++ nl :: more) as [|c t] eqn:Es;
    cbn [Re.finditer_from]; rewrite Hm; reflexivity.
Qed.

(** ** Conservation of the names on an install line *)

(** C3, as the code has it by design.  Take a matched apt span whose first
    [install -y] opens an install line: white space, the names, blanks or
    backslashes, and the line break, all inside the span.  Every name on that
    line occurs in the text the apt pass returns.  For a matched pip span and
    its first [install] every such name occurs in the [requirements.txt]
    the pip pass writes.  Every (source, destination) pair the copy scanner
    matches occurs in a COPY instruction of the text the copy pass returns,
    the source among the listed sources and the destination last, and for
    the text that reaches the copy pass that instruction is in the text the
    pipeline returns. *)
Theorem C3_install_line_names_are_kept (d : str) (w : world) :
  (∀ cmd head ws payload trail more pkg : str,
      cmd ∈ Re.findall0 apt_pattern d →
      cmd = head ++ txt "install -y" ++ ws ++ payload ++ trail ++ nl :: more →
      Py.find cmd (txt "install -y") 0 = Z.of_nat (length head) →
      install_line ws payload trail →
      pkg ∈ Py.split payload →
      occurs pkg (optimize_apt_commands d))
  ∧ (∀ cmd head ws payload trail more pkg : str,
      cmd ∈ Re.findall0 pip_pattern d →
      cmd = head ++ txt "install" ++ ws ++ payload ++ trail ++ nl :: more →
      Py.find cmd (txt "install") 0 = Z.of_nat (length head) →
      install_line ws payload trail →
      pkg ∈ Py.split payload →
      ∃ content,
        files (optimize_pip_commands d w).2 !! requirements_path w
          = Some content
        ∧ occurs pkg content)
  ∧ (∀ src dest : str,
      (src, dest) ∈ Re.findall2 copy_pattern d →
      ∃ (sources : list str) (sep : str),
        src ∈ sources ∧ (sep = [] ∨ sep = txt "/")
        ∧ occurs
            (txt "COPY " ++ Py.join (txt " ") sources ++ txt " " ++ dest ++ sep)
            (optimize_copy_commands d).1)
  ∧ (∀ src dest : str,
      (src, dest)
        ∈ Re.findall2 copy_pattern (pip_text (optimize_apt_commands d)) →
      ∃ (sources : list str) (sep : str),
        src ∈ sources ∧ (sep = [] ∨ sep = txt "/")
        ∧ occurs
            (txt "COPY " ++ Py.join (txt " ") sources ++ txt " " ++ dest ++ sep)
            (rewrite_text d)
        ∧ (rewrite d w).1 = Ok (rewrite_text d, dockerignore_entries)).
Proof.
  destruct (extracted_payloads_are_kept d w) as (Hapt & Hpip & Hc1 & Hc2).
  split_and!; [| |exact Hc1|exact Hc2].
  - intros cmd head ws payload trail more pkg Hcmd Hshape Hfind Hline Hpkg.
    apply (Hapt cmd pkg Hcmd).
    change apt_pkg_pattern with (payload_pattern (txt "install -y")).
    rewrite Hshape in Hfind |- *.
    by rewrite first_payload_install_line.
  - intros cmd head ws payload trail more pkg Hcmd Hshape Hfind Hline Hpkg.
    apply (Hpip cmd pkg Hcmd).
    change pip_pkg_pattern with (payload_pattern (txt "install")).
    rewrite Hshape in Hfind |- *.
    by rewrite first_payload_install_line.
Qed.

Lemma install_line_curl_git : install_line (txt " ") (txt "curl git") [].
Proof.
  unfold install_line, names_text. split_and!; try done.
  - by repeat constructor.
  - apply (bool_decide_unpack _). vm_compute. exact I.
  - by intros c [= <-].
  - by intros c [= <-].
Qed.

Lemma install_line_flask : install_line (txt " ") (txt "flask") [].
Proof.
  unfold install_line, names_text. split_and!; try done.
  - by repeat constructor.
  - apply (bool_decide_unpack _). vm_compute. exact I.
  - by intros c [= <-].
  - by intros c [= <-].
Qed.

Lemma C3_install_line_names_are_kept_witness :
  occurs (txt "git") (optimize_apt_commands Examples.apt_dockerfile)
  ∧ (∃ content,
        files (optimize_pip_commands Examples.pip_dockerfile
                 Examples.empty_world).2
          !! requirements_path Examples.empty_world = Some content
        ∧ occurs (txt "flask") content)
  ∧ (∃ (sources : list str) (sep : str),
        txt "b.txt" ∈ sources ∧ (sep = [] ∨ sep = txt "/")
        ∧ occurs
            (txt "COPY " ++ Py.join (txt " ") sources ++ txt " " ++ txt "/x"
             ++ sep)
            (optimize_copy_commands Examples.copy_dockerfile).1).
Proof.
  split_and!.
  - apply (proj1 (C3_install_line_names_are_kept Examples.apt_dockerfile
                    Examples.empty_world)
             (txt "RUN apt-get update && apt-get install -y curl git" ++ [nl])
             (txt "RUN apt-get update && apt-get ") (txt " ")
             (txt "curl git") [] []).
    + apply (bool_decide_unpack _). vm_compute. exact I.
    + vm_compute. reflexivity.
    + vm_compute. reflexivity.
    + exact install_line_curl_git.
    + apply (bool_decide_unpack _). vm_compute. exact I.
  - apply (proj1 (proj2 (C3_install_line_names_are_kept Examples.pip_dockerfile
                           Examples.empty_world))
             (txt "RUN pip install flask" ++ [nl])
             (txt "RUN pip ") (txt " ") (txt "flask") [] []).
    + apply (bool_decide_unpack _). vm_compute. exact I.
    + vm_compute. reflexivity.
    + vm_compute. reflexivity.
    + exact install_line_flask.
    + apply (bool_decide_unpack _). vm_compute. exact I.
  - apply (proj1 (proj2 (proj2
             (C3_install_line_names_are_kept Examples.copy_dockerfile
                Examples.empty_world)))).
    apply (bool_decide_unpack _). vm_compute. exact I.
Defined.

(** C3 as stated fails, twice.  By design: [flask] is a package name in a
    matched pip span, and it occurs nowhere in the rewritten text (it is
    written to [requirements.txt]).  By a defect: in the example of [main]
    the names [python3] and [nginx] stand in the two matched apt spans, which
    are taken out of the text, and neither name is left in the text the
    pipeline returns. *)
Lemma C3_counterexample :
  Re.findall0 pip_pattern Examples.pip_dockerfile
  = [ txt "RUN pip install flask" ++ [nl] ]
  ∧ (rewrite Examples.pip_dockerfile Examples.empty_world).1
    = Ok (rewrite_text Examples.pip_dockerfile, dockerignore_entries)
  ∧ ¬ occurs (txt "flask") (rewrite_text Examples.pip_dockerfile)
  ∧ Re.findall0 apt_pattern Examples.example_dockerfile
    = [ txt "RUN apt-get update && apt-get install -y python3";
        txt "RUN apt-get update && apt-get install -y nginx" ]
  ∧ (rewrite Examples.example_dockerfile Examples.empty_world).1
    = Ok (rewrite_text Examples.example_dockerfile, dockerignore_entries)
  ∧ ¬ occurs (txt "python3") (rewrite_text Examples.example_dockerfile)
  ∧ ¬ occurs (txt "nginx") (rewrite_text Examples.example_dockerfile).
Proof.
  split_and!;
    first [ apply find_absent; vm_compute; reflexivity
          | by rewrite rewrite_run
          | vm_compute; reflexivity ].
Qed.
